(** * Content-safety classification, fingerprinting and the filter pipeline

    A shallow embedding of the document-formatting system:
    - [src/content_preservation.py]  (ContentPreservationEngine),
    - [multi_stage_formatter.py]     (MultiStageFormatter),
    - [legacy/src/safe_formatting.py] (SafeFormattingEngine._generate_safe_css).

    Texts are Python [str] values, modelled as lists of 8-bit characters.
    Python's character predicates ([str.isspace], [\d], [\w], [str.lower],
    [str.isupper], ...) are embedded on the ASCII range, where they are
    exact; a character above 127 is a caseless symbol that is neither a
    space, a digit nor a word character.  Characters beyond 255 (the four
    bullet glyphs of the first list pattern) are outside this alphabet. *)

From Stdlib Require Import String Ascii.
From Stdlib Require Import List Arith Bool Lia PeanoNat.
From Stdlib Require Import DecimalString Sorted.
Import ListNotations.
Open Scope string_scope.
Open Scope list_scope.
Open Scope nat_scope.

Set Implicit Arguments.

(** ** Characters and texts *)

Definition text := list ascii.

Definition text_of (s : string) : text := list_ascii_of_string s.
Coercion text_of : string >-> text.

Module Chars.

Definition code (c : ascii) : nat := nat_of_ascii c.

Definition between (lo hi n : nat) : bool := (lo <=? n) && (n <=? hi).

(** [str.isspace] / [\s] on ASCII: TAB..CR, FS..US and the blank. *)
Definition is_space (c : ascii) : bool :=
  between 9 13 (code c) || between 28 32 (code c).

Definition is_digit (c : ascii) : bool := between 48 57 (code c).
Definition is_upper (c : ascii) : bool := between 65 90 (code c).
Definition is_lower (c : ascii) : bool := between 97 122 (code c).
Definition is_alpha (c : ascii) : bool := is_upper c || is_lower c.

(** [\w]: alphanumeric or underscore. *)
Definition is_word (c : ascii) : bool :=
  is_alpha c || is_digit c || (code c =? 95).

Definition lower (c : ascii) : ascii :=
  if is_upper c then ascii_of_nat (code c + 32) else c.
Definition upper (c : ascii) : ascii :=
  if is_lower c then ascii_of_nat (code c - 32) else c.

Definition eqb (a b : ascii) : bool := Ascii.eqb a b.

Definition newline : ascii := ascii_of_nat 10.

End Chars.

(** ** The [str] operations the program uses *)

Module Str.

Fixpoint eqb (a b : text) : bool :=
  match a, b with
  | [], [] => true
  | x :: a', y :: b' => Chars.eqb x y && eqb a' b'
  | _, _ => false
  end.

(** [s.startswith(p)] *)
Fixpoint startswith (p s : text) : bool :=
  match p, s with
  | [], _ => true
  | x :: p', y :: s' => Chars.eqb x y && startswith p' s'
  | _ :: _, [] => false
  end.

(** [needle in hay] *)
Fixpoint contains (needle hay : text) : bool :=
  startswith needle hay ||
  match hay with
  | [] => false
  | _ :: hay' => contains needle hay'
  end.

(** [s.endswith(p)] *)
Definition endswith (p s : text) : bool := startswith (rev p) (rev s).

Fixpoint lstrip (s : text) : text :=
  match s with
  | c :: s' => if Chars.is_space c then lstrip s' else s
  | [] => []
  end.

Definition rstrip (s : text) : text := rev (lstrip (rev s)).

(** [s.strip()] *)
Definition strip (s : text) : text := rstrip (lstrip s).

(** [s.lower()] *)
Definition lower (s : text) : text := map Chars.lower s.

(** [s.isupper()]: no lowercase character and at least one uppercase one. *)
Definition isupper (s : text) : bool :=
  forallb (fun c => negb (Chars.is_lower c)) s && existsb Chars.is_upper s.

(** [s.istitle()]: the scan of [unicode_istitle]; [prev] is
    [previous_is_cased], [cased] records that a cased character was seen. *)
Fixpoint istitle_from (prev cased : bool) (s : text) : bool :=
  match s with
  | [] => cased
  | c :: s' =>
      if Chars.is_upper c then
        if prev then false else istitle_from true true s'
      else if Chars.is_lower c then
        if prev then istitle_from true true s' else false
      else istitle_from false cased s'
  end.

Definition istitle (s : text) : bool := istitle_from false false s.

(** [sep.join(parts)] *)
Fixpoint join (sep : text) (parts : list text) : text :=
  match parts with
  | [] => []
  | [p] => p
  | p :: rest => p ++ sep ++ join sep rest
  end.

(** [len(s.split())]: the number of maximal runs of non-space characters;
    [inword] tells whether the previous character belonged to a run. *)
Fixpoint count_words_from (inword : bool) (s : text) : nat :=
  match s with
  | [] => 0
  | c :: s' =>
      if Chars.is_space c then count_words_from false s'
      else (if inword then 0 else 1) + count_words_from true s'
  end.

Definition count_words (s : text) : nat := count_words_from false s.

(** [s[i:j]] for [i <= j] *)
Definition slice (i j : nat) (s : text) : text := firstn (j - i) (skipn i s).

(** [str(n)] for a non-negative integer *)
Definition of_nat (n : nat) : text :=
  text_of (NilEmpty.string_of_uint (Nat.to_uint n)).

(** [s.replace(old, new)] for a one-character [old] *)
Definition replace_char (old : ascii) (new : text) (s : text) : text :=
  flat_map (fun c => if Chars.eqb c old then new else [c]) s.

End Str.

(** ** The document object model, as far as the program reads it *)

(** A paragraph object of the document library: [para_id] stands for the
    identity of the object, [para_text] is [.text] and [style_name] is
    [.style.name]. *)
Record paragraph := {
  para_id : nat;
  para_text : text;
  style_name : text
}.

(** [Document(path)]: the paragraphs in order and the number of tables. *)
Record document := {
  doc_paragraphs : list paragraph;
  doc_tables : nat
}.

(** ** Regular expressions: the fragment of Python's [re] the patterns use *)

Module Re.

Inductive item :=
| IChar (c : ascii)          (* a literal member *)
| IRange (lo hi : ascii)     (* lo-hi *)
| IDigit                     (* \d *)
| IWord                      (* \w *)
| ISpace.                    (* \s *)

Inductive regex :=
| Eps
| Lit (c : ascii)            (* one literal character *)
| Any                        (* .   : anything but a newline *)
| Cls (items : list item)    (* [...] and the escapes \d \w \s *)
| Bol                        (* ^ *)
| Eol                        (* $ *)
| WordB                      (* \b *)
| Seq (r1 r2 : regex)
| Alt (r1 r2 : regex)
| Rep (r : regex) (lo : nat) (hi : option nat)   (* greedy r{lo,hi} *)
| Group (n : nat) (r : regex).                   (* capturing group n *)

(** Captures: the most recent binding of a group comes first. *)
Definition caps := list (nat * (nat * nat)).
Definition mstate := (nat * caps)%type.

Fixpoint lookup (n : nat) (c : caps) : option (nat * nat) :=
  match c with
  | [] => None
  | (m, span) :: c' => if m =? n then Some span else lookup n c'
  end.

Section Matcher.

(** [icase] is [re.IGNORECASE]; [s] is the subject string. *)
Variable icase : bool.
Variable s : text.

Definition lit_match (c ch : ascii) : bool :=
  if icase then Chars.eqb (Chars.lower c) (Chars.lower ch)
  else Chars.eqb c ch.

Definition in_range (lo hi ch : ascii) : bool :=
  Chars.between (Chars.code lo) (Chars.code hi) (Chars.code ch).

(** Under IGNORECASE the compiled set holds the lower-cased members of
    the written set and is tested against the lower-cased character. *)
Definition item_match (it : item) (ch : ascii) : bool :=
  match it with
  | IChar c => lit_match c ch
  | IRange lo hi =>
      if icase
      then in_range lo hi (Chars.lower ch)
           || in_range lo hi (Chars.upper (Chars.lower ch))
      else in_range lo hi ch
  | IDigit => Chars.is_digit ch
  | IWord => Chars.is_word ch
  | ISpace => Chars.is_space ch
  end.

Definition word_at (i : nat) : bool :=
  match nth_error s i with
  | Some c => Chars.is_word c
  | None => false
  end.

(** [\b]: the characters on the two sides differ in word-ness. *)
Definition at_boundary (i : nat) : bool :=
  xorb (match i with 0 => false | S j => word_at j end) (word_at i).

(** [$]: at the end, or just before a final newline. *)
Definition at_end (i : nat) : bool :=
  (i =? length s) ||
  ((S i =? length s) &&
   match nth_error s i with
   | Some c => Chars.eqb c Chars.newline
   | None => false
   end).

Definition step_char (p : ascii -> bool) (st : mstate) : list mstate :=
  match nth_error s (fst st) with
  | Some ch => if p ch then [(S (fst st), snd st)] else []
  | None => []
  end.

Definition guard (b : bool) (st : mstate) : list mstate :=
  if b then [st] else [].

(** The [lo] mandatory iterations of a repetition. *)
Fixpoint rep_min (body : mstate -> list mstate) (n : nat)
         (k : mstate -> list mstate) (st : mstate) : list mstate :=
  match n with
  | 0 => k st
  | S n' => flat_map (rep_min body n' k) (body st)
  end.

Definition dec (limit : option nat) : option nat :=
  match limit with
  | Some n => Some (pred n)
  | None => None
  end.

Definition exhausted (limit : option nat) : bool :=
  match limit with
  | Some 0 => true
  | _ => false
  end.

(** The optional iterations: greedy, one more iteration is preferred to
    stopping, and an iteration that consumes nothing ends the loop.
    [fuel] bounds the number of iterations; every iteration advances, so
    [S (length s - position)] is enough. *)
Fixpoint rep_more (body : mstate -> list mstate) (fuel : nat)
         (limit : option nat) (st : mstate) : list mstate :=
  match fuel with
  | 0 => [st]
  | S f =>
      (if exhausted limit then []
       else flat_map
              (fun st' =>
                 if fst st <? fst st'
                 then rep_more body f (dec limit) st'
                 else [])
              (body st))
      ++ [st]
  end.

Definition more_limit (lo : nat) (hi : option nat) : option nat :=
  match hi with
  | Some h => Some (h - lo)
  | None => None
  end.

(** The backtracking matcher: all ways to match [r] from a state, in the
    order in which Python's engine tries them. *)
Fixpoint run (r : regex) (st : mstate) : list mstate :=
  match r with
  | Eps => [st]
  | Lit c => step_char (lit_match c) st
  | Any => step_char (fun ch => negb (Chars.eqb ch Chars.newline)) st
  | Cls items => step_char (fun ch => existsb (fun it => item_match it ch) items) st
  | Bol => guard (fst st =? 0) st
  | Eol => guard (at_end (fst st)) st
  | WordB => guard (at_boundary (fst st)) st
  | Seq r1 r2 => flat_map (run r2) (run r1 st)
  | Alt r1 r2 => run r1 st ++ run r2 st
  | Rep r' lo hi =>
      rep_min (run r') lo
        (fun st' =>
           rep_more (run r') (S (length s - fst st')) (more_limit lo hi) st')
        st
  | Group n r' =>
      map (fun st' => (fst st', (n, (fst st, fst st')) :: snd st'))
          (run r' st)
  end.

(** The first match that starts at [i]; with [must_advance] an empty
    match is refused and the engine backtracks to the next alternative. *)
Definition match_at (r : regex) (must_advance : bool) (i : nat)
  : option mstate :=
  find (fun st => negb (must_advance && (fst st =? i))) (run r (i, [])).

(** Scan the start positions [i, i+1, ..., length s]; [n] counts the
    positions left. *)
Fixpoint scan (r : regex) (must_advance : bool) (n i : nat)
  : option (nat * mstate) :=
  match match_at r must_advance i with
  | Some st => Some (i, st)
  | None =>
      match n with
      | 0 => None
      | S n' => scan r false n' (S i)
      end
  end.

(** [re.search(r, s)] as a truth value. *)
Definition search (r : regex) : bool :=
  match scan r false (length s) 0 with
  | Some _ => true
  | None => false
  end.

(** [re.match(r, s)] as a truth value. *)
Definition match_ (r : regex) : bool :=
  match match_at r false 0 with
  | Some _ => true
  | None => false
  end.

(** What [findall] reports for one match: the whole match when the
    pattern has no group, the text of group 1 when it has one (the empty
    string if the group took no part). *)
Definition report (grouped : bool) (start : nat) (st : mstate) : text :=
  if grouped then
    match lookup 1 (snd st) with
    | Some (a, b) => Str.slice a b s
    | None => []
    end
  else Str.slice start (fst st) s.

(** [re.findall(r, s)]: non-overlapping matches from left to right.  After
    an empty match the scan resumes at the same place and must advance. *)
Fixpoint findall_from (r : regex) (grouped : bool) (fuel : nat)
         (must_advance : bool) (i : nat) : list text :=
  match fuel with
  | 0 => []
  | S f =>
      match scan r must_advance (length s - i) i with
      | None => []
      | Some (start, st) =>
          report grouped start st ::
          findall_from r grouped f (fst st =? start) (fst st)
      end
  end.

End Matcher.

(** No two matches start at the same place and an empty match is followed
  by a non-empty one or a later start, so there are at most
  [2 * (length s + 1)] of them. *)
Definition findall (r : regex) (grouped : bool) (s : text) : list text :=
findall_from false s r grouped (2 * (length s + 1)) false 0.

(** Whether the pattern has a capturing group. *)
Fixpoint has_group (r : regex) : bool :=
match r with
| Group _ _ => true
| Seq r1 r2 | Alt r1 r2 => has_group r1 || has_group r2
| Rep r' _ _ => has_group r'
| _ => false
end.

(** [re.findall(r, s)] for a pattern with at most one group. *)
Definition findall_py (r : regex) (s : text) : list text :=
findall r (has_group r) s.

(** [consumes r]: every match of [r] takes at least one character. *)
Fixpoint consumes (r : regex) : bool :=
  match r with
  | Lit _ | Any | Cls _ => true
  | Seq r1 r2 => consumes r1 || consumes r2
  | Alt r1 r2 => consumes r1 && consumes r2
  | Rep r' lo _ => (0 <? lo) && consumes r'
  | Group _ r' => consumes r'
  | Eps | Bol | Eol | WordB => false
  end.

(** [loops_consume r]: the body of every repetition in [r] consumes. *)
Fixpoint loops_consume (r : regex) : bool :=
  match r with
  | Rep r' _ _ => consumes r' && loops_consume r'
  | Seq r1 r2 | Alt r1 r2 => loops_consume r1 && loops_consume r2
  | Group _ r' => loops_consume r'
  | _ => true
  end.

(** *** Pattern syntax *)

Fixpoint lits (w : text) : regex :=
match w with
| [] => Eps
| [c] => Lit c
| c :: w' => Seq (Lit c) (lits w')
end.

Definition word (w : string) : regex := lits (text_of w).

Fixpoint alts (rs : list regex) : regex :=
match rs with
| [] => Eps
| [r] => r
| r :: rs' => Alt r (alts rs')
end.

Fixpoint seqs (rs : list regex) : regex :=
match rs with
| [] => Eps
| [r] => r
| r :: rs' => Seq r (seqs rs')
end.

Definition words (ws : list string) : regex := alts (map word ws).

Definition star (r : regex) : regex := Rep r 0 None.
Definition plus (r : regex) : regex := Rep r 1 None.
Definition opt (r : regex) : regex := Rep r 0 (Some 1).
Definition digit : regex := Cls [IDigit].
Definition wordc : regex := Cls [IWord].
Definition space : regex := Cls [ISpace].
Definition chr (n : nat) : ascii := ascii_of_nat n.

End Re.

(** ** [src/content_preservation.py] *)

Module ContentPreservation.
Import Re.

Inductive ContentSafetyLevel :=
| SAFE_TO_MODIFY
| CONTENT_CRITICAL
| REQUIRES_REVIEW.

(** *** [ContentPreservationEngine.__init__]: the pattern library *)

Definition procedural_language_patterns : list regex :=
[ (* \b(step|procedure|process|method|instruction)\b *)
  seqs [WordB;
        Group 1 (words ["step"; "procedure"; "process"; "method"; "instruction"]);
        WordB];
  (* \b(shall|must|required|mandatory|prohibited)\b *)
  seqs [WordB;
        Group 1 (words ["shall"; "must"; "required"; "mandatory"; "prohibited"]);
        WordB];
  (* \b(warning|caution|danger|notice|alert)\b *)
  seqs [WordB;
        Group 1 (words ["warning"; "caution"; "danger"; "notice"; "alert"]);
        WordB];
  (* \b(follow|execute|perform|complete)\b.*\b(exactly|precisely)\b *)
  seqs [WordB;
        Group 1 (words ["follow"; "execute"; "perform"; "complete"]);
        WordB; star Any; WordB;
        Group 2 (words ["exactly"; "precisely"]);
        WordB] ].

Definition technical_terms_patterns : list regex :=
[ (* \b[A-Z]{2,}\b *)
  seqs [WordB; Rep (Cls [IRange "A" "Z"]) 2 None; WordB];
  (* \b\w+[-_]\w+\b *)
  seqs [WordB; plus wordc; Cls [IChar "-"; IChar "_"]; plus wordc; WordB];
  (* \b\d+\.\d+\.\d+\b *)
  seqs [WordB; plus digit; Lit "."; plus digit; Lit "."; plus digit; WordB];
  (* \b[a-zA-Z]+\d+[a-zA-Z]*\b *)
  seqs [WordB; plus (Cls [IRange "a" "z"; IRange "A" "Z"]); plus digit;
        star (Cls [IRange "a" "z"; IRange "A" "Z"]); WordB];
  (* \b(API|SDK|HTTP|REST|JSON|XML)\b *)
  seqs [WordB;
        Group 1 (words ["API"; "SDK"; "HTTP"; "REST"; "JSON"; "XML"]);
        WordB];
  (* \b(OAuth|SSL|TLS|HTTPS)\b *)
  seqs [WordB; Group 1 (words ["OAuth"; "SSL"; "TLS"; "HTTPS"]); WordB] ].

Definition numerical_values_patterns : list regex :=
[ (* \b\d+\.\d+\b *)
  seqs [WordB; plus digit; Lit "."; plus digit; WordB];
  (* \$\d+(?:,\d{3})*(?:\.\d{2})?\b *)
  seqs [Lit "$"; plus digit;
        star (Seq (Lit ",") (Rep digit 3 (Some 3)));
        opt (Seq (Lit ".") (Rep digit 2 (Some 2)));
        WordB];
  (* \b\d+%\b *)
  seqs [WordB; plus digit; Lit "%"; WordB];
  (* \b\d{1,3}(?:,\d{3})*\b *)
  seqs [WordB; Rep digit 1 (Some 3);
        star (Seq (Lit ",") (Rep digit 3 (Some 3)));
        WordB];
  (* \b\d+\s*(PSI|V|A|Hz|Â°[CF])\b  -- the source spells the degree sign
     as the two characters U+00C2 U+00B0 *)
  seqs [WordB; plus digit; star space;
        Group 1 (alts [word "PSI"; word "V"; word "A"; word "Hz";
                       seqs [Lit (chr 194); Lit (chr 176);
                             Cls [IChar "C"; IChar "F"]]]);
        WordB];
  (* \b\d+[-/]\d+[-/]\d{2,4}\b *)
  seqs [WordB; plus digit; Cls [IChar "-"; IChar "/"]; plus digit;
        Cls [IChar "-"; IChar "/"]; Rep digit 2 (Some 4); WordB] ].

Definition regulatory_compliance_patterns : list regex :=
[ (* \b(FDA|ISO|OSHA|EPA|compliance|regulation)\b *)
  seqs [WordB;
        Group 1 (words ["FDA"; "ISO"; "OSHA"; "EPA"; "compliance"; "regulation"]);
        WordB];
  (* \b(standard|specification|requirement|guideline)\b *)
  seqs [WordB;
        Group 1 (words ["standard"; "specification"; "requirement"; "guideline"]);
        WordB];
  (* \b(approved|certified|validated|authorized)\b *)
  seqs [WordB;
        Group 1 (words ["approved"; "certified"; "validated"; "authorized"]);
        WordB];
  (* \b(CE|UL|FCC|RoHS)\b.*\b(certified|compliant)\b *)
  seqs [WordB; Group 1 (words ["CE"; "UL"; "FCC"; "RoHS"]); WordB;
        star Any; WordB; Group 2 (words ["certified"; "compliant"]); WordB] ].

(** The dictionary, in insertion order (the order [.items()] yields). *)
Definition prohibited_patterns : list (string * list regex) :=
[ ("procedural_language", procedural_language_patterns);
  ("technical_terms", technical_terms_patterns);
  ("numerical_values", numerical_values_patterns);
  ("regulatory_compliance", regulatory_compliance_patterns) ].

(** [re.search(pattern, text, re.IGNORECASE)] *)
Definition search_icase (t : text) (p : regex) : bool := search true t p.

(** *** [assess_paragraph_safety] *)

(** The nested loops: the first pattern, of the first category, that is
  found in the text; the loops return there. *)
Fixpoint first_hit (cats : list (string * list regex)) (t : text)
: option (string * regex) :=
match cats with
| [] => None
| (name, patterns) :: cats' =>
    match find (search_icase t) patterns with
    | Some p => Some (name, p)
    | None => first_hit cats' t
    end
end.

Definition is_empty (t : text) : bool :=
match t with
| [] => true
| _ => false
end.

Definition assess_paragraph_safety (t : text) : ContentSafetyLevel :=
if is_empty (Str.strip t) then SAFE_TO_MODIFY
else
  match first_hit prohibited_patterns t with
  | Some _ => CONTENT_CRITICAL
  | None =>
      if search false t (plus digit) then REQUIRES_REVIEW
      else SAFE_TO_MODIFY
  end.


(** *** [create_content_fingerprint] *)

Record ContentFingerprint := {
full_text_hash : text;
paragraph_hashes : list text;
structure_hash : text;
word_count : nat;
character_count : nat;
numerical_values : list text;
timestamp : nat
}.

Definition has_text (p : paragraph) : bool :=
negb (is_empty (Str.strip (para_text p))).

(** ['\n'.join(paragraph.text for paragraph in doc.paragraphs
              if paragraph.text.strip())] *)
Definition full_text (doc : document) : text :=
Str.join [Chars.newline] (map para_text (filter has_text (doc_paragraphs doc))).

Definition quoted (s : string) : text := [chr 34] ++ text_of s ++ [chr 34].

(** [json.dumps(structure_data, sort_keys=True)] *)
Definition structure_json (paragraph_count table_count heading_count : nat) : text :=
text_of "{" ++ quoted "heading_count" ++ text_of ": " ++ Str.of_nat heading_count
++ text_of ", " ++ quoted "paragraph_count" ++ text_of ": " ++ Str.of_nat paragraph_count
++ text_of ", " ++ quoted "table_count" ++ text_of ": " ++ Str.of_nat table_count
++ text_of "}".

Definition is_heading (p : paragraph) : bool :=
Str.startswith (text_of "Heading") (style_name p).

(** [list(dict.fromkeys(xs))]: the first occurrence of every value. *)
Fixpoint dedupe_from (seen xs : list text) : list text :=
match xs with
| [] => []
| x :: xs' =>
    if existsb (Str.eqb x) seen then dedupe_from seen xs'
    else x :: dedupe_from (x :: seen) xs'
end.

Definition dedupe (xs : list text) : list text := dedupe_from [] xs.

(** The loop over [prohibited_patterns['numerical_values']]. *)
Definition extract_numerical_values (t : text) : list text :=
dedupe (flat_map (fun p => findall_py p t) numerical_values_patterns).

Section Engine.

(** [hashlib.sha256(t.encode('utf-8')).hexdigest()] *)
Variable sha256_hex : text -> text.

(** [now] is the value [datetime.now()] returns during the call. *)
Definition create_content_fingerprint (now : nat) (doc : document)
  : ContentFingerprint :=
  let ft := full_text doc in
  let kept := filter has_text (doc_paragraphs doc) in
  {| full_text_hash := sha256_hex ft;
     paragraph_hashes := map (fun p => sha256_hex (para_text p)) kept;
     structure_hash :=
       sha256_hex
         (structure_json (length kept) (doc_tables doc)
            (length (filter is_heading (doc_paragraphs doc))));
     word_count := Str.count_words ft;
     character_count := length ft;
     numerical_values := extract_numerical_values ft;
     timestamp := now |}.

(** *** [identify_prohibited_zones] *)

Record ProhibitedZone := {
  zone_type : string;
  start_paragraph : nat;
  end_paragraph : nat;
  content_hash : text;
  safety_level : ContentSafetyLevel;
  text_sample : text
}.

(** The loop over the categories for paragraph [i]: in each category the
    inner loop stops at its first matching pattern ([break]); the loop
    over the categories goes on. *)
Definition zones_of_paragraph (i : nat) (t : text) : list ProhibitedZone :=
  flat_map
    (fun cat =>
       match find (search_icase t) (snd cat) with
       | Some _ =>
           [ {| zone_type := fst cat;
                start_paragraph := i;
                end_paragraph := i;
                content_hash := sha256_hex t;
                safety_level := CONTENT_CRITICAL;
                text_sample := firstn 100 t |} ]
       | None => []
       end)
    prohibited_patterns.

Definition enumerate (A : Type) (xs : list A) : list (nat * A) :=
  combine (seq 0 (length xs)) xs.

Definition identify_prohibited_zones (doc : document) : list ProhibitedZone :=
  flat_map
    (fun ip =>
       if has_text (snd ip)
       then zones_of_paragraph (fst ip) (para_text (snd ip))
       else [])
    (enumerate (doc_paragraphs doc)).

(** *** [validate_content_integrity] *)

Record IntegrityReport := {
  content_hash_match : bool;
  word_count_match : bool;
  character_count_match : bool;
  numerical_values_preserved : bool;
  missing_values : list text;
  overall_valid : bool
}.

(** The loop over [original_fingerprint.numerical_values]; the state is
    the pair of [numerical_values_preserved] and [missing_values]. *)
Definition check_values (values : list text) (processed : text)
  : bool * list text :=
  fold_left
    (fun acc value =>
       if negb (Str.contains value processed)
       then (false, snd acc ++ [value])
       else acc)
    values (true, []).

Definition validate_content_integrity (fp : ContentFingerprint)
           (processed_content : text) : IntegrityReport :=
  let processed_hash := sha256_hex processed_content in
  let hash_ok := Str.eqb processed_hash (full_text_hash fp) in
  let words_ok := Str.count_words processed_content =? word_count fp in
  let chars_ok := length processed_content =? character_count fp in
  let nv := check_values (numerical_values fp) processed_content in
  {| content_hash_match := hash_ok;
     word_count_match := words_ok;
     character_count_match := chars_ok;
     numerical_values_preserved := fst nv;
     missing_values := snd nv;
     overall_valid := hash_ok && words_ok && chars_ok && fst nv |}.

End Engine.

(** *** [get_safety_report]: the counts of the report

    The loop over the paragraphs fills [safety_counts] and
    [total_paragraphs]; the report copies them into [safety_breakdown] and
    adds the number of prohibited zones.  The two percentages of the report
    are floating-point numbers and are left out. *)

Record safety_breakdown := {
  safe_to_modify : nat;
  requires_review : nat;
  content_critical : nat;
  total_paragraphs : nat
}.

Definition count_paragraph (acc : safety_breakdown) (p : paragraph)
  : safety_breakdown :=
  if has_text p then
    match assess_paragraph_safety (para_text p) with
    | SAFE_TO_MODIFY =>
        {| safe_to_modify := S (safe_to_modify acc);
           requires_review := requires_review acc;
           content_critical := content_critical acc;
           total_paragraphs := S (total_paragraphs acc) |}
    | REQUIRES_REVIEW =>
        {| safe_to_modify := safe_to_modify acc;
           requires_review := S (requires_review acc);
           content_critical := content_critical acc;
           total_paragraphs := S (total_paragraphs acc) |}
    | CONTENT_CRITICAL =>
        {| safe_to_modify := safe_to_modify acc;
           requires_review := requires_review acc;
           content_critical := S (content_critical acc);
           total_paragraphs := S (total_paragraphs acc) |}
    end
  else acc.

Definition count_safety_levels (doc : document) : safety_breakdown :=
  fold_left count_paragraph (doc_paragraphs doc)
    {| safe_to_modify := 0; requires_review := 0; content_critical := 0;
       total_paragraphs := 0 |}.

(** [report['prohibited_zones_count']] *)
Definition prohibited_zones_count (sha256_hex : text -> text) (doc : document)
  : nat :=
  length (identify_prohibited_zones sha256_hex doc).

End ContentPreservation.

(** ** [multi_stage_formatter.py] *)

Module MultiStage.
Import Re.

(** [self.debug_info]: the diagnostics each stage appends to.  The progress
    lines the stages print are not part of the model. *)
Record debug_info := {
dbg_stage1 : list text;
dbg_stage2 : list text;
dbg_stage3 : list text
}.

(** [f"'{text}' ({reason})"] *)
Definition filtered_entry (t : text) (reason : string) : text :=
text_of "'" ++ t ++ text_of "' (" ++ text_of reason ++ text_of ")".

(** The patterns of the two filter stages. *)

(* \.{5,} *)
Definition dotted_line : regex := Rep (Lit ".") 5 None.

(* ^[A-Z]+-\d+$ *)
Definition page_reference : regex :=
  seqs [Bol; plus (Cls [IRange "A" "Z"]); Lit "-"; plus digit; Eol].

(* ^\d+\.\d+\s+.*\.{3,}\s*\d+ *)
Definition toc_entry : regex :=
  seqs [Bol; plus digit; Lit "."; plus digit; plus space; star Any;
        Rep (Lit ".") 3 None; star space; plus digit].

(* page \d+ *)
Definition page_number : regex := Seq (word "page ") (plus digit).

(* revision: *)
Definition revision_info : regex := word "revision:".

(* report # *)
Definition report_number : regex := word "report #".

(* date:?\s*\d{2}-\d{2}-\d{2} *)
Definition date_stamp : regex :=
  seqs [word "date"; opt (Lit ":"); star space;
        Rep digit 2 (Some 2); Lit "-"; Rep digit 2 (Some 2);
        Lit "-"; Rep digit 2 (Some 2)].

(** *** Stage 1: the [if]/[elif] chain of [stage1_navigation_filter];
  the result is the [reason] of the first rule that applies. *)
Definition stage1_reason (raw : text) : option string :=
let text := Str.strip raw in
let text_lower := Str.lower text in
if length text <? 3 then Some "too short"
else if Str.eqb text "TABLE OF CONTENTS" then Some "table of contents"
else if Str.contains "table of contents" text_lower
  then Some "table of contents variant"
else if Str.eqb text "MASTER TABLE OF CONTENTS"
  then Some "master table of contents"
else if Str.contains "master table" text_lower
  then Some "master table variant"
else if Str.contains "record of revisions" text_lower
  then Some "record of revisions"
else if Str.contains "revision highlights" text_lower
  then Some "revision highlights"
else if Str.contains "list of effective sections" text_lower
  then Some "list of effective sections"
else if Str.contains "list of effective pages" text_lower
  then Some "list of effective pages"
(* re.search(r'\.{5,}', text) *)
else if search false text (Rep (Lit ".") 5 None)
  then Some "dotted lines (TOC)"
(* re.match(r'^[A-Z]+-\d+$', text) *)
else if match_ false text
          (seqs [Bol; plus (Cls [IRange "A" "Z"]); Lit "-"; plus digit; Eol])
  then Some "page reference"
(* re.search(r'^\d+\.\d+\s+.*\.{3,}\s*\d+', text) *)
else if search false text
          (seqs [Bol; plus digit; Lit "."; plus digit; plus space; star Any;
                 Rep (Lit ".") 3 None; star space; plus digit])
  then Some "TOC entry with page numbers"
else None.

(** The loop of a filter stage: [kept] is [kept_paragraphs], [dbg] the
  stage's list in [debug_info]; both grow by [append]. *)
Fixpoint filter_loop (reason_of : text -> option string)
       (paragraphs kept : list paragraph) (dbg : list text)
: list paragraph * list text :=
match paragraphs with
| [] => (kept, dbg)
| para :: rest =>
    match reason_of (para_text para) with
    | Some reason =>
        filter_loop reason_of rest kept
          (dbg ++ [filtered_entry (Str.strip (para_text para)) reason])
    | None => filter_loop reason_of rest (kept ++ [para]) dbg
    end
end.

Definition stage1_navigation_filter (paragraphs : list paragraph)
         (d : debug_info) : list paragraph * debug_info :=
let r := filter_loop stage1_reason paragraphs [] (dbg_stage1 d) in
(fst r, {| dbg_stage1 := snd r;
           dbg_stage2 := dbg_stage2 d;
           dbg_stage3 := dbg_stage3 d |}).

(** *** Stage 2: the [if]/[elif] chain of [stage2_metadata_filter] *)
Definition stage2_reason (raw : text) : option string :=
let text := Str.strip raw in
let text_lower := Str.lower text in
if Str.eqb text "INTENTIONALLY LEFT BLANK"
  then Some "intentionally left blank (exact)"
else if Str.contains "intentionally left blank" text_lower
  then Some "intentionally left blank (variant)"
else if Str.contains "this page intentionally left blank" text_lower
  then Some "this page intentionally left blank"
(* re.search(r'page \d+', text_lower) *)
else if search false text_lower (Seq (word "page ") (plus digit))
  then Some "page number"
(* re.search(r'revision:', text_lower) *)
else if search false text_lower (word "revision:")
  then Some "revision info"
(* re.search(r'report #', text_lower) *)
else if search false text_lower (word "report #")
  then Some "report number"
else if Str.contains "oae." text_lower then Some "oae reference"
else if Str.contains "company name" text_lower && (length text <? 50)
  then Some "company header"
else if Str.eqb text "FLIGHT ATTENDANT POLICIES & PROCEDURES HANDBOOK"
  then Some "document title"
else if Str.contains "policies & procedures handbook" text_lower
        && (length text <? 100)
  then Some "handbook title"
else if Str.contains "flight crew training manual" text_lower
        && (length text <? 100)
  then Some "manual title"
(* re.search(r'date:?\s*\d{2}-\d{2}-\d{2}', text_lower) *)
else if search false text_lower
          (seqs [word "date"; opt (Lit ":"); star space;
                 Rep digit 2 (Some 2); Lit "-"; Rep digit 2 (Some 2);
                 Lit "-"; Rep digit 2 (Some 2)])
  then Some "date stamp"
else None.

Definition stage2_metadata_filter (paragraphs : list paragraph)
         (d : debug_info) : list paragraph * debug_info :=
let r := filter_loop stage2_reason paragraphs [] (dbg_stage2 d) in
(fst r, {| dbg_stage1 := dbg_stage1 d;
           dbg_stage2 := snd r;
           dbg_stage3 := dbg_stage3 d |}).

(** *** Stage 3 *)

(** The six [list_patterns]; the bullet glyphs of the first class lie
  outside the 8-bit alphabet, its hyphen and asterisk remain. *)
Definition list_patterns : list regex :=
[ (* ^[•\-\*◦►○]\s+ *)
  seqs [Bol; Cls [IChar "-"; IChar "*"]; plus space];
  (* ^\d+\.\s+ *)
  seqs [Bol; plus digit; Lit "."; plus space];
  (* ^[a-z]\)\s+ *)
  seqs [Bol; Cls [IRange "a" "z"]; Lit ")"; plus space];
  (* ^[A-Z]\)\s+ *)
  seqs [Bol; Cls [IRange "A" "Z"]; Lit ")"; plus space];
  (* ^\([a-z]\)\s+ *)
  seqs [Bol; Lit "("; Cls [IRange "a" "z"]; Lit ")"; plus space];
  (* ^\([A-Z]\)\s+ *)
  seqs [Bol; Lit "("; Cls [IRange "A" "Z"]; Lit ")"; plus space] ].

Definition imperative_starts : list string :=
[ "read,"; "understand"; "comply"; "report"; "maintain"; "avoid";
  "use"; "respect"; "promote"; "cooperate"; "ensure"; "follow";
  "wear"; "keep"; "replace"; "check"; "verify"; "submit" ].

Definition modal_phrases : list string :=
[ "must "; "shall "; "will "; "should "; "are required to";
  "are responsible for" ].

(** The three list rules that precede the heading rules. *)
Definition list_rule (text_clean : text) : bool :=
let text_lower := Str.lower text_clean in
existsb (fun p => match_ false text_clean p) list_patterns
|| existsb (fun verb => Str.startswith (text_of verb) text_lower) imperative_starts
|| existsb (fun phrase => Str.contains (text_of phrase) text_lower) modal_phrases.

Definition _classify_paragraph (t : text) : string :=
let text_clean := Str.strip t in
let text_lower := Str.lower text_clean in
(* the code after the heading block *)
let special_or_default :=
  if Str.startswith "NOTE:" text_clean then "Normal" else "Body Text" in
if existsb (fun p => match_ false text_clean p) list_patterns
  then "List Paragraph"
else if existsb (fun verb => Str.startswith (text_of verb) text_lower)
          imperative_starts
  then "List Paragraph"
else if existsb (fun phrase => Str.contains (text_of phrase) text_lower)
          modal_phrases
  then "List Paragraph"
else if (length text_clean <? 100) && negb (Str.endswith "." text_clean)
  then
    if Str.isupper text_clean then
      if length text_clean <? 30 then "Heading 2" else "Heading 1"
    else if Str.istitle text_clean then "Heading 3"
    else special_or_default
else special_or_default.

(** An element of [classified_paragraphs]. *)
Record classified := {
c_text : text;
c_style : string;
original_para : paragraph
}.

(** [f"'{text[:50]}...' -> {style}"] *)
Definition classified_entry (t : text) (style : string) : text :=
text_of "'" ++ firstn 50 t ++ text_of "...' -> " ++ text_of style.

Fixpoint classify_loop (paragraphs : list paragraph)
       (out : list classified) (dbg : list text)
: list classified * list text :=
match paragraphs with
| [] => (out, dbg)
| para :: rest =>
    let text := Str.strip (para_text para) in
    let style := _classify_paragraph text in
    classify_loop rest
      (out ++ [{| c_text := text; c_style := style; original_para := para |}])
      (dbg ++ [classified_entry text style])
end.

Definition stage3_classify_content (paragraphs : list paragraph)
         (d : debug_info) : list classified * debug_info :=
let r := classify_loop paragraphs [] (dbg_stage3 d) in
(fst r, {| dbg_stage1 := dbg_stage1 d;
           dbg_stage2 := dbg_stage2 d;
           dbg_stage3 := snd r |}).

(** *** [format_document] and the check of [compare_results] *)

(** [collections.Counter], in insertion order; [counter_incr] is
    [counts[key] += 1]. *)
Definition counter := list (string * nat).

Fixpoint counter_incr (key : string) (c : counter) : counter :=
  match c with
  | [] => [(key, 1)]
  | (k, n) :: c' =>
      if String.eqb k key then (k, S n) :: c'
      else (k, n) :: counter_incr key c'
  end.

(** A paragraph of the new document: its text and the style assigned. *)
Record new_paragraph := {
  np_text : text;
  np_style : string
}.

(** What [format_document] leaves behind: the new document and the triple
    it returns. *)
Record format_result := {
  new_doc : list new_paragraph;
  total_processed : nat;
  total_filtered : nat;
  style_counts : counter
}.

Section Formatting.

(** Whether the template of the new document has a style of that name:
    assigning an unknown style raises. *)
Variable style_known : string -> bool.

(** The loop that writes the new document.  The handler of the [try]
    assigns Body Text; if that style is unknown too, the exception leaves
    the function ([None]). *)
Fixpoint write_loop (items : list classified) (out : list new_paragraph)
         (counts : counter) : option (list new_paragraph * counter) :=
  match items with
  | [] => Some (out, counts)
  | item :: rest =>
      if style_known (c_style item) then
        write_loop rest
          (out ++ [{| np_text := c_text item; np_style := c_style item |}])
          (counter_incr (c_style item) counts)
      else if style_known "Body Text" then
        write_loop rest
          (out ++ [{| np_text := c_text item; np_style := "Body Text" |}])
          (counter_incr "Body Text" counts)
      else None
  end.

(** [format_document], from the paragraphs of the loaded document on; the
    second component is [self.debug_info] after the call. *)
Definition format_document (doc_paragraphs : list paragraph) (d : debug_info)
  : option format_result * debug_info :=
  let all_paragraphs :=
    filter (fun p => negb (ContentPreservation.is_empty (Str.strip (para_text p))))
           doc_paragraphs in
  let s1 := stage1_navigation_filter all_paragraphs d in
  let s2 := stage2_metadata_filter (fst s1) (snd s1) in
  let s3 := stage3_classify_content (fst s2) (snd s2) in
  match write_loop (fst s3) [] [] with
  | Some (doc, counts) =>
      (Some {| new_doc := doc;
               total_processed := length (fst s3);
               total_filtered := length all_paragraphs - length (fst s3);
               style_counts := counts |},
       snd s3)
  | None => (None, snd s3)
  end.

End Formatting.

(** The critical check of [compare_results] on the paragraphs of the output
    document. *)
Definition intentional_blank_found (output_texts : list text) : bool :=
  existsb (fun t => Str.contains "INTENTIONALLY LEFT BLANK" t)
          (filter (fun t => negb (ContentPreservation.is_empty (Str.strip t)))
                  output_texts).

End MultiStage.

(** ** [legacy/src/safe_formatting.py]: the style sheet generator *)

Module SafeFormatting.
Import ContentPreservation.

Record SafeFormattingRule := {
element_type : string;
css_properties : list (string * string);   (* the dict, in insertion order *)
conditions : list string;
rule_safety_level : ContentSafetyLevel
}.

Definition visual_only : list string :=
[ "font-family"; "font-size"; "font-weight"; "font-style";
  "color"; "background-color"; "text-align"; "line-height";
  "margin"; "padding"; "border"; "border-collapse";
  "width"; "height"; "display"; "float"; "clear" ].

Definition layout_only : list string :=
[ "margin-top"; "margin-bottom"; "margin-left"; "margin-right";
  "padding-top"; "padding-bottom"; "padding-left"; "padding-right";
  "text-indent"; "vertical-align"; "page-break-before"; "page-break-after" ].

Definition prohibited_properties : list string :=
[ "content"; "counter-increment"; "counter-reset"; "quotes"; "text-transform" ].

(** [prop in visual_only + layout_only] *)
Definition allowed (prop : string) : bool :=
existsb (String.eqb prop) (visual_only ++ layout_only).

Definition mk_rule (el : string) (props : list (string * string))
         (cond : string) : string * SafeFormattingRule :=
(el, {| element_type := el; css_properties := props;
        conditions := [cond]; rule_safety_level := SAFE_TO_MODIFY |}).

(** [_create_default_style_guide] *)
Definition default_style_guide : list (string * SafeFormattingRule) :=
[ mk_rule "h1"
    [ ("font-family", "Arial, sans-serif"); ("font-size", "18px");
      ("font-weight", "bold"); ("color", "#000080");
      ("margin-bottom", "12px"); ("margin-top", "16px") ]
    "is_main_heading";
  mk_rule "h2"
    [ ("font-family", "Arial, sans-serif"); ("font-size", "14px");
      ("font-weight", "bold"); ("color", "#333333");
      ("margin-bottom", "8px"); ("margin-top", "12px") ]
    "is_section_heading";
  mk_rule "h3"
    [ ("font-family", "Arial, sans-serif"); ("font-size", "13px");
      ("font-weight", "bold"); ("color", "#666666");
      ("margin-bottom", "6px"); ("margin-top", "10px") ]
    "is_subsection_heading";
  mk_rule "p"
    [ ("font-family", "Arial, sans-serif"); ("font-size", "12px");
      ("line-height", "1.15"); ("margin-bottom", "6px") ]
    "is_body_text";
  mk_rule "table"
    [ ("border-collapse", "collapse"); ("width", "100%");
      ("font-family", "Arial, sans-serif"); ("font-size", "12px");
      ("margin-bottom", "12px") ]
    "is_data_table";
  mk_rule "td"
    [ ("border", "1px solid #ddd"); ("padding", "6px");
      ("text-align", "left") ]
    "is_table_cell";
  mk_rule "th"
    [ ("border", "1px solid #ddd"); ("padding", "6px");
      ("background-color", "#f2f2f2"); ("font-weight", "bold");
      ("text-align", "left") ]
    "is_table_header" ].

Definition nl : text := [Chars.newline].
Definition dquote : text := [Re.chr 34].

(** The first literal of [_generate_safe_css]. *)
Definition base_styles : text :=
text_of "
body {
    font-family: Arial, sans-serif;
    line-height: 1.6;
    margin: 40px;
    max-width: 800px;
    color: #333;
}

.document-title {
    border-bottom: 2px solid #000080;
    padding-bottom: 10px;
    margin-bottom: 20px;
}".

(** The property keys a rule contributes: those that pass the allow-list
  test ([properties], before formatting). *)
Definition emitted_properties (rule : SafeFormattingRule)
: list (string * string) :=
filter (fun pv => allowed (fst pv)) (css_properties rule).

(** [f'  {prop}: {value};'] *)
Definition declaration (pv : string * string) : text :=
text_of "  " ++ text_of (fst pv) ++ text_of ": " ++ text_of (snd pv) ++ text_of ";".

(** The block of one style-guide entry, when it has a declaration. *)
Definition rule_block (entry : string * SafeFormattingRule) : list text :=
match emitted_properties (snd entry) with
| [] => []
| props =>
    [ text_of (fst entry) ++ text_of " {" ++ nl
      ++ Str.join nl (map declaration props) ++ nl ++ text_of "}" ]
end.

Section Generator.

(** The two pictographs of the markers; their characters lie outside the
    8-bit alphabet. *)
Variable preserved_mark review_mark : text.

(** The last literal of [_generate_safe_css]. *)
Definition safety_styles : text :=
  text_of "
.preserved {
    /* Original formatting preserved for safety-critical content */
    background-color: #fff9c4 !important;
    border-left: 4px solid #f0ad4e !important;
    padding: 8px !important;
    margin: 4px 0 !important;
    font-family: inherit !important;
    font-size: inherit !important;
}

.requires-review {
    /* Content that requires human review */
    background-color: #e6f3ff !important;
    border-left: 4px solid #007bff !important;
    padding: 4px !important;
}

.preserved::before {
    content: " ++ dquote ++ preserved_mark ++ text_of " PRESERVED: " ++ dquote
  ++ text_of ";
    font-weight: bold;
    color: #8a6d3b;
}

.requires-review::before {
    content: " ++ dquote ++ review_mark ++ text_of " REVIEW: " ++ dquote
  ++ text_of ";
    font-weight: bold;
    color: #0056b3;
}

.document-metadata {
    margin-top: 40px;
    padding-top: 20px;
    border-top: 1px solid #ddd;
    color: #666;
    font-size: 11px;
}

/* Print styles */
@media print {
    .preserved, .requires-review {
        background-color: white !important;
        border-left: 2px solid #000 !important;
    }
    
    .preserved::before, .requires-review::before {
        content: " ++ dquote ++ dquote ++ text_of ";
    }
}".

(** [css_rules], before the final join. *)
Definition css_rules (style_guide : list (string * SafeFormattingRule))
  : list text :=
  [base_styles] ++ flat_map rule_block style_guide ++ [safety_styles].

Definition _generate_safe_css
           (style_guide : list (string * SafeFormattingRule)) : text :=
  Str.join (nl ++ nl) (css_rules style_guide).

End Generator.

(** *** [_escape_html] *)

Definition _escape_html (t : text) : text :=
  if is_empty t then []
  else
    Str.replace_char "'" "&#x27;"
      (Str.replace_char (Re.chr 34) "&quot;"
         (Str.replace_char ">" "&gt;"
            (Str.replace_char "<" "&lt;"
               (Str.replace_char "&" "&amp;" t)))).

(** *** [_classify_paragraph_type] *)

Definition _classify_paragraph_type (p : paragraph) : string :=
  let style_name := Str.lower (style_name p) in
  if Str.contains "heading 1" style_name || Str.contains "title" style_name
    then "h1"
  else if Str.contains "heading 2" style_name then "h2"
  else if Str.contains "heading 3" style_name then "h3"
  else if Str.contains "heading 4" style_name then "h4"
  else if Str.contains "heading 5" style_name then "h5"
  else if Str.contains "heading 6" style_name then "h6"
  else if Str.contains "list" style_name || Str.contains "bullet" style_name
    then "li"
  else "p".

(** *** [validate_css_safety] *)

Record css_validation := {
  is_safe : bool;
  violations : list text;
  warnings : list text
}.

(** [unsafe_patterns]: each pattern as written and as parsed. *)
Definition unsafe_patterns : list (string * Re.regex) :=
  [ ("content\s*:", Re.seqs [Re.word "content"; Re.star Re.space; Re.Lit ":"]);
    ("javascript\s*:", Re.seqs [Re.word "javascript"; Re.star Re.space; Re.Lit ":"]);
    ("expression\s*\(", Re.seqs [Re.word "expression"; Re.star Re.space; Re.Lit "("]);
    ("@import", Re.word "@import") ].

(** The two loops; the state is the pair of [is_safe] and [violations]. *)
Definition check_properties (css_content : text) (acc : bool * list text)
  : bool * list text :=
  fold_left
    (fun acc prohibited_prop =>
       if Str.contains (text_of prohibited_prop) css_content
       then (false,
             snd acc ++ [text_of "Prohibited property found: "
                         ++ text_of prohibited_prop])
       else acc)
    prohibited_properties acc.

Definition check_patterns (css_content : text) (acc : bool * list text)
  : bool * list text :=
  fold_left
    (fun acc pattern =>
       if Re.search true css_content (snd pattern)
       then (false,
             snd acc ++ [text_of "Unsafe pattern found: " ++ text_of (fst pattern)])
       else acc)
    unsafe_patterns acc.

Definition validate_css_safety (css_content : text) : css_validation :=
  let r := check_patterns css_content
             (check_properties css_content (true, [])) in
  {| is_safe := fst r; violations := snd r; warnings := [] |}.

(** *** [_apply_formatting_rule] and [generate_safe_html] *)

Record FormattingChange := {
  element_id : text;
  change_type : string;
  old_value : text;
  new_value : text;
  css_property : string;
  rationale : text
}.

(** [_map_css_to_format_key]: [mapping.get(css_property)] *)
Definition _map_css_to_format_key (css_property : string) : option string :=
  if String.eqb css_property "font-family" then Some "font_name"
  else if String.eqb css_property "font-size" then Some "font_size"
  else if String.eqb css_property "font-weight" then Some "bold"
  else if String.eqb css_property "font-style" then Some "italic"
  else if String.eqb css_property "text-align" then Some "alignment"
  else None.

(** The [metadata] dictionary of an extracted content; a missing key is
    [None]. *)
Record metadata := {
  md_title : option text;
  md_author : option text;
  md_created : option nat;
  md_document_path : option text
}.

(** A loaded document as [extract_content_safely] reads it: the paragraphs,
    the tables as rows of cell texts, and the core properties (a property
    that is not set is [None]). *)
Record docx := {
  dx_paragraphs : list paragraph;
  dx_tables : list (list (list text));
  dx_title : option text;
  dx_author : option text;
  dx_created : option nat
}.

(** An entry of [heading_hierarchy]. *)
Record heading_entry := {
  he_level : nat;
  he_text : text;
  he_index : nat
}.

Record structure := {
  heading_hierarchy : list heading_entry;
  table_positions : list nat;
  list_structures : list text
}.

(** A cell of an extracted table. *)
Record cell := {
  cell_text : text;
  cell_safety_level : ContentSafetyLevel
}.

(** [int(element_type[1])]: the index must exist and the character must be
    a digit; otherwise the call raises ([None]). *)
Definition int_of_second (element_type : string) : option nat :=
  match text_of element_type with
  | _ :: c :: _ =>
      if Chars.is_digit c then Some (Chars.code c - 48) else None
  | _ => None
  end.

Section Rendering.

(** The values held by a [formatting] dictionary and Python's [str] on
    them. *)
Variable value : Type.
Variable py_str : value -> text.

Record ParagraphData := {
  pd_index : nat;
  pd_text : text;
  pd_style_name : text;
  pd_element_type : string;
  pd_formatting : list (string * value);
  pd_safety_level : ContentSafetyLevel
}.

Record TableData := {
  td_index : nat;
  td_rows : list (list cell);
  td_formatting : list (string * string)
}.

Record content := {
  ct_paragraphs : list ParagraphData;
  ct_tables : list TableData;
  ct_metadata : metadata;
  ct_structure : structure
}.

(** [_extract_paragraph_formatting] reads the runs and the paragraph format
    of the document library. *)
Variable _extract_paragraph_formatting : paragraph -> list (string * value).

(** [_extract_table_data] *)
Definition _extract_table_data (table : list (list text)) (table_index : nat)
  : TableData :=
  {| td_index := table_index;
     td_rows :=
       map (map (fun t => {| cell_text := t;
                             cell_safety_level := assess_paragraph_safety t |}))
           table;
     td_formatting :=
       [ ("border_style", "solid"); ("border_width", "1px");
         ("cell_padding", "6px") ] |}.

(** The paragraph loop of [extract_content_safely]: [paras] and [headings]
    are the lists built so far; a failing [int] leaves the function. *)
Fixpoint extract_paragraphs (indexed : list (nat * paragraph))
         (paras : list ParagraphData) (headings : list heading_entry)
  : option (list ParagraphData * list heading_entry) :=
  match indexed with
  | [] => Some (paras, headings)
  | (i, paragraph) :: rest =>
      if is_empty (Str.strip (para_text paragraph))
      then extract_paragraphs rest paras headings
      else
        let element_type := _classify_paragraph_type paragraph in
        let para_data :=
          {| pd_index := i;
             pd_text := para_text paragraph;
             pd_style_name := style_name paragraph;
             pd_element_type := element_type;
             pd_formatting := _extract_paragraph_formatting paragraph;
             pd_safety_level := assess_paragraph_safety (para_text paragraph) |} in
        if Str.startswith "h" (text_of element_type) then
          match int_of_second element_type with
          | Some level =>
              extract_paragraphs rest (paras ++ [para_data])
                (headings ++ [{| he_level := level;
                                 he_text := para_text paragraph;
                                 he_index := i |}])
          | None => None
          end
        else extract_paragraphs rest (paras ++ [para_data]) headings
  end.

Definition or_empty (t : option text) : text :=
  match t with
  | Some x => x
  | None => []
  end.

(** [extract_content_safely]; [None] stands for an exception. *)
Definition extract_content_safely (document_path : text) (doc : docx)
  : option content :=
  match extract_paragraphs (enumerate (dx_paragraphs doc)) [] [] with
  | Some (paras, headings) =>
      Some {| ct_paragraphs := paras;
              ct_tables :=
                map (fun it => _extract_table_data (snd it) (fst it))
                    (enumerate (dx_tables doc));
              ct_metadata :=
                {| md_title := Some (or_empty (dx_title doc));
                   md_author := Some (or_empty (dx_author doc));
                   md_created := dx_created doc;
                   md_document_path := Some document_path |};
              ct_structure :=
                {| heading_hierarchy := headings;
                   table_positions := seq 0 (length (dx_tables doc));
                   list_structures := [] |} |}
  | None => None
  end.

(** [d.get(key)] / [key in d] on a dictionary kept as an association list *)
Fixpoint dict_get (A : Type) (key : string) (d : list (string * A)) : option A :=
  match d with
  | [] => None
  | (k, v) :: d' => if String.eqb k key then Some v else dict_get key d'
  end.

Definition _apply_formatting_rule (paragraph : ParagraphData)
           (rule : SafeFormattingRule) : list FormattingChange :=
  flat_map
    (fun pv : string * string =>
       let css_prop := fst pv in
       let new_value := text_of (snd pv) in
       match _map_css_to_format_key css_prop with
       | Some format_key =>
           match dict_get format_key (pd_formatting paragraph) with
           | Some current =>
               let old_value := py_str current in
               if negb (Str.eqb old_value new_value) then
                 [ {| element_id :=
                        text_of "paragraph_" ++ Str.of_nat (pd_index paragraph);
                      change_type := css_prop;
                      old_value := old_value;
                      new_value := new_value;
                      css_property := css_prop;
                      rationale :=
                        text_of "Applied " ++ text_of (element_type rule)
                        ++ text_of " style rule" |} ]
               else []
           | None => []
           end
       | None => []
       end)
    (css_properties rule).

(** The changes the paragraph loop of [generate_safe_html] collects in
    [changes_made]; they are logged and not returned. *)
Definition changes_made (c : content)
           (style_guide : list (string * SafeFormattingRule))
  : list FormattingChange :=
  flat_map
    (fun para =>
       match pd_safety_level para with
       | SAFE_TO_MODIFY =>
           match dict_get (pd_element_type para) style_guide with
           | Some rule => _apply_formatting_rule para rule
           | None => []
           end
       | _ => []
       end)
    (ct_paragraphs c).

Definition attr (name value_ : string) : text :=
  text_of name ++ text_of "=" ++ dquote ++ text_of value_ ++ dquote.

(** The element a paragraph becomes. *)
Definition paragraph_html (para : ParagraphData) : text :=
  match pd_safety_level para with
  | CONTENT_CRITICAL =>
      text_of "<p " ++ attr "class" "preserved" ++ text_of " "
      ++ attr "data-safety" "critical" ++ text_of ">"
      ++ _escape_html (pd_text para) ++ text_of "</p>"
  | REQUIRES_REVIEW =>
      text_of "<" ++ text_of (pd_element_type para) ++ text_of " "
      ++ attr "class" "requires-review" ++ text_of " "
      ++ attr "data-safety" "review" ++ text_of ">"
      ++ _escape_html (pd_text para)
      ++ text_of "</" ++ text_of (pd_element_type para) ++ text_of ">"
  | SAFE_TO_MODIFY =>
      text_of "<" ++ text_of (pd_element_type para) ++ text_of " "
      ++ attr "data-safety" "safe" ++ text_of ">"
      ++ _escape_html (pd_text para)
      ++ text_of "</" ++ text_of (pd_element_type para) ++ text_of ">"
  end.

(** The element a table cell becomes; [row_idx] is the index of its row. *)
Definition cell_html (row_idx : nat) (c : cell) : text :=
  let cell_text := cell_text c in
  let safety_level := assess_paragraph_safety cell_text in
  let cell_class :=
    match safety_level with
    | CONTENT_CRITICAL => "preserved"
    | REQUIRES_REVIEW => "requires-review"
    | SAFE_TO_MODIFY => "formatted"
    end in
  let data_safety :=
    match safety_level with
    | CONTENT_CRITICAL => "critical"
    | REQUIRES_REVIEW => "review"
    | SAFE_TO_MODIFY => "safe"
    end in
  let cell_tag := if row_idx =? 0 then "th" else "td" in
  text_of "<" ++ text_of cell_tag ++ text_of " " ++ attr "class" cell_class
  ++ text_of " " ++ attr "data-safety" data_safety ++ text_of ">"
  ++ _escape_html cell_text ++ text_of "</" ++ text_of cell_tag ++ text_of ">".

Definition table_html (table : TableData) : list text :=
  [text_of "<table>"]
  ++ flat_map
       (fun ir : nat * list cell =>
          [text_of "<tr>"] ++ map (cell_html (fst ir)) (snd ir)
          ++ [text_of "</tr>"])
       (combine (seq 0 (length (td_rows table))) (td_rows table))
  ++ [text_of "</table>"].

Definition truthy (t : option text) : bool :=
  match t with
  | Some (_ :: _) => true
  | _ => false
  end.

Definition or_default (t : option text) (default : string) : text :=
  match t with
  | Some x => x
  | None => text_of default
  end.

Variable preserved_mark review_mark : text.

(** [html_parts], before the final join; [style_guide] is [None] when the
    caller passes no style guide. *)
Definition html_parts (c : content)
           (style_guide : option (list (string * SafeFormattingRule)))
  : list text :=
  let guide :=
    match style_guide with
    | Some g => g
    | None => default_style_guide
    end in
  let title := or_default (md_title (ct_metadata c)) "Formatted Document" in
  [ text_of "<!DOCTYPE html>";
    text_of "<html " ++ attr "lang" "en" ++ text_of ">";
    text_of "<head>";
    text_of "<meta " ++ attr "charset" "UTF-8" ++ text_of ">";
    text_of "<meta " ++ attr "name" "viewport" ++ text_of " "
    ++ attr "content" "width=device-width, initial-scale=1.0" ++ text_of ">";
    text_of "<title>" ++ _escape_html title ++ text_of "</title>";
    text_of "<style>" ++ _generate_safe_css preserved_mark review_mark guide
    ++ text_of "</style>";
    text_of "</head><body>" ]
  ++ (if is_empty title then []
      else [ text_of "<h1 " ++ attr "class" "document-title" ++ text_of ">"
             ++ _escape_html title ++ text_of "</h1>" ])
  ++ map paragraph_html (ct_paragraphs c)
  ++ flat_map table_html (ct_tables c)
  ++ [ text_of "<div " ++ attr "class" "document-metadata" ++ text_of ">";
       text_of "<p><small>Processed: "
       ++ or_default (md_document_path (ct_metadata c)) "Unknown"
       ++ text_of "</small></p>" ]
  ++ (if truthy (md_author (ct_metadata c))
      then [ text_of "<p><small>Author: "
             ++ _escape_html (or_default (md_author (ct_metadata c)) "")
             ++ text_of "</small></p>" ]
      else [])
  ++ [ text_of "</div>"; text_of "</body></html>" ].

Definition generate_safe_html (c : content)
           (style_guide : option (list (string * SafeFormattingRule))) : text :=
  Str.join nl (html_parts c style_guide).

End Rendering.

End SafeFormatting.

(** * Notions used by the statements *)

Module Notions.
Import Re ContentPreservation.

(** [v] occurs in [s] as a contiguous run of characters. *)
Definition occurs_in (v s : text) : Prop := exists a b, s = a ++ v ++ b.

(** [l1] is [l2] with some elements left out: same elements, same order. *)
Inductive subsequence (A : Type) : list A -> list A -> Prop :=
| sub_nil : subsequence [] []
| sub_keep x l1 l2 : subsequence l1 l2 -> subsequence (x :: l1) (x :: l2)
| sub_drop x l1 l2 : subsequence l1 l2 -> subsequence l1 (x :: l2).

(** The four categories in the order the specification fixes. *)
Definition category_order : list string :=
[ "procedural_language"; "technical_terms"; "numerical_values";
  "regulatory_compliance" ].

(** Every pattern of the library with its category, category by category. *)
Definition flat_patterns : list (string * regex) :=
flat_map (fun cat => map (pair (fst cat)) (snd cat)) prohibited_patterns.

(** The characters from [lo] to [hi]. *)
Definition chars_between (lo hi : ascii) : list ascii :=
  map ascii_of_nat (seq (Chars.code lo) (S (Chars.code hi) - Chars.code lo)).

(** A member of a set in lower case; a range is spelled out, member by
    member. *)
Definition fold_item (it : item) : list item :=
  match it with
  | IChar c => [IChar (Chars.lower c)]
  | IRange lo hi => map (fun x => IChar (Chars.lower x)) (chars_between lo hi)
  | IDigit => [IDigit]
  | IWord => [IWord]
  | ISpace => [ISpace]
  end.

(** A pattern in lower case: every literal and every member of a set is
    replaced by its lower-case form. *)
Fixpoint fold_case (r : regex) : regex :=
  match r with
  | Lit c => Lit (Chars.lower c)
  | Cls items => Cls (flat_map fold_item items)
  | Seq r1 r2 => Seq (fold_case r1) (fold_case r2)
  | Alt r1 r2 => Alt (fold_case r1) (fold_case r2)
  | Rep r' lo hi => Rep (fold_case r') lo hi
  | Group n r' => Group n (fold_case r')
  | Eps => Eps
  | Any => Any
  | Bol => Bol
  | Eol => Eol
  | WordB => WordB
  end.

(** Pattern [p] matches text [t] case-insensitively: the pattern in lower
    case is found, by an exact search that tells the two cases apart, in
    the text in lower case. *)
Definition found_ignoring_case (t : text) (p : regex) : bool :=
  search false (Str.lower t) (fold_case p).

(** The safety classifier in the words of the specification: blank text is
  safe; else the first pattern that matches case-insensitively, if any,
  makes the text critical; else a digit asks for review; else the text is
  safe. *)
Definition assess_by_spec (t : text) : ContentSafetyLevel :=
if forallb Chars.is_space t then SAFE_TO_MODIFY
else
  match find (fun cp => found_ignoring_case t (snd cp)) flat_patterns with
  | Some _ => CONTENT_CRITICAL
  | None =>
      if existsb Chars.is_digit t then REQUIRES_REVIEW else SAFE_TO_MODIFY
  end.

(** Two documents with the same content: the same paragraph texts and style
  names in the same order, and as many tables.  The paragraph objects may
  differ. *)
Definition same_content (d1 d2 : document) : Prop :=
map para_text (doc_paragraphs d1) = map para_text (doc_paragraphs d2)
/\ map style_name (doc_paragraphs d1) = map style_name (doc_paragraphs d2)
/\ doc_tables d1 = doc_tables d2.

(** The premises of the upper-case heading rule, read on the stripped text
  the classifier works with. *)
Definition heading_candidate (t : text) : Prop :=
let text_clean := Str.strip t in
length text_clean < 100
/\ Str.endswith "." text_clean = false
/\ Str.isupper text_clean = true
/\ MultiStage.list_rule text_clean = false.

(** The tier of a heading label: [Heading 1] is the top tier. *)
Definition heading_tier (style : string) : option nat :=
if String.eqb style "Heading 1" then Some 1
else if String.eqb style "Heading 2" then Some 2
else if String.eqb style "Heading 3" then Some 3
else None.

(** Label [a] is a heading of higher priority than heading label [b]. *)
Definition outranks (a b : string) : Prop :=
match heading_tier a, heading_tier b with
| Some m, Some n => m < n
| _, _ => False
end.

(** The claim on the tiers of upper-case headings, as it is worded: the
  shorter text gets the tier of higher priority. *)
Definition short_heading_outranks_long : Prop :=
forall t1 t2 : text,
  heading_candidate t1 -> heading_candidate t2 ->
  length (Str.strip t1) < 30 -> 30 <= length (Str.strip t2) ->
  outranks (MultiStage._classify_paragraph t1)
           (MultiStage._classify_paragraph t2).

(** The five characters [_escape_html] replaces. *)
Definition is_special (c : ascii) : bool :=
  Chars.eqb c "&" || Chars.eqb c "<" || Chars.eqb c ">"
  || Chars.eqb c (Re.chr 34) || Chars.eqb c "'".

(** The entity that stands for a character. *)
Definition esc_char (c : ascii) : text :=
  if Chars.eqb c "&" then text_of "&amp;"
  else if Chars.eqb c "<" then text_of "&lt;"
  else if Chars.eqb c ">" then text_of "&gt;"
  else if Chars.eqb c (Re.chr 34) then text_of "&quot;"
  else if Chars.eqb c "'" then text_of "&#x27;"
  else [c].

(** The elements of [xs] taken at the positions where they appear for the
    first time, in the order of those positions. *)
Definition first_appearances (xs : list text) : list text :=
  map snd
      (filter (fun kx : nat * text =>
                 negb (existsb (Str.eqb (snd kx)) (firstn (fst kx) xs)))
              (combine (seq 0 (length xs)) xs)).

(** The zones of the paragraph with index [i]. *)
Definition zones_at (i : nat) (zones : list ProhibitedZone)
  : list ProhibitedZone :=
  filter (fun z => start_paragraph z =? i) zones.

(** The claim on the number of zones, as it is worded: a paragraph never
    has more than one zone. *)
Definition one_zone_per_paragraph : Prop :=
  forall (sha : text -> text) (doc : document) (i : nat),
    length (zones_at i (identify_prohibited_zones sha doc)) <= 1.

(** Every pattern the program hands to [re]. *)
Definition library_patterns : list regex :=
  map snd flat_patterns ++ [plus digit]
  ++ [ MultiStage.dotted_line; MultiStage.page_reference; MultiStage.toc_entry;
       MultiStage.page_number; MultiStage.revision_info;
       MultiStage.report_number; MultiStage.date_stamp ]
  ++ MultiStage.list_patterns.

(** The phrase of the blank-page rule. *)
Definition blank_phrase : text := "intentionally left blank".

(** What a filter stage keeps. *)
Definition survives (reason_of : text -> option string) (p : paragraph) : bool :=
match reason_of (para_text p) with
| None => true
| Some _ => false
end.

End Notions.

(** * The inputs of the scenarios *)

Module Scenarios.

Definition discount_text : text := "Total cost is $15,000.00 with 15% discount.".

Definition discount_document : document :=
{| doc_paragraphs :=
     [ {| para_id := 0; para_text := discount_text; style_name := "Normal" |} ];
   doc_tables := 0 |}.

(** The same content held by another paragraph object. *)
Definition discount_copy : document :=
{| doc_paragraphs :=
     [ {| para_id := 7; para_text := discount_text; style_name := "Normal" |} ];
   doc_tables := 0 |}.

Definition power_switch_document : document :=
{| doc_paragraphs :=
     [ {| para_id := 0;
          para_text := "Step 1: Turn off the main power switch.";
          style_name := "Normal" |} ];
   doc_tables := 0 |}.

Definition blank_page : paragraph :=
{| para_id := 3; para_text := "  This Page Intentionally Left Blank ";
   style_name := "Normal" |}.

Definition overview : paragraph :=
{| para_id := 4; para_text := "Cabin safety overview"; style_name := "Normal" |}.

Definition short_heading : text := "SCOPE".
Definition long_heading : text := "EMERGENCY EVACUATION PROCEDURES FOR CABIN CREW".

(** Paragraphs for a run of the formatter. *)
Definition handbook_paragraphs : list paragraph :=
  [ {| para_id := 0; para_text := "TABLE OF CONTENTS"; style_name := "Normal" |};
    {| para_id := 1; para_text := "   "; style_name := "Normal" |};
    {| para_id := 2; para_text := " GENERAL "; style_name := "Normal" |};
    {| para_id := 3; para_text := "INTENTIONALLY LEFT BLANK"; style_name := "Normal" |};
    {| para_id := 4; para_text := "Crew members must report on time.";
       style_name := "Normal" |} ].

Definition no_debug : MultiStage.debug_info :=
  {| MultiStage.dbg_stage1 := []; MultiStage.dbg_stage2 := [];
     MultiStage.dbg_stage3 := [] |}.

(** A loaded document with the paragraph of the first scenario. *)
Definition power_switch_docx : SafeFormatting.docx :=
  {| SafeFormatting.dx_paragraphs :=
       [ {| para_id := 0;
            para_text := "Step 1: Turn off the main power switch.";
            style_name := "Normal" |} ];
     SafeFormatting.dx_tables := [];
     SafeFormatting.dx_title := None;
     SafeFormatting.dx_author := None;
     SafeFormatting.dx_created := None |}.

(** A document whose paragraphs are all blank. *)
Definition blank_document : document :=
  {| doc_paragraphs :=
       [ {| para_id := 0; para_text := ""; style_name := "Normal" |};
         {| para_id := 1; para_text := "   "; style_name := "Heading 1" |} ];
     doc_tables := 2 |}.

End Scenarios.

(** * Properties *)

(** ** Characters and strings *)

Module StrFacts.
Import Notions.

Lemma chars_eqb_eq (a b : ascii) : Chars.eqb a b = true <-> a = b.
Proof. apply Ascii.eqb_eq. Qed.

Lemma chars_eqb_refl (a : ascii) : Chars.eqb a a = true.
Proof. apply Ascii.eqb_refl. Qed.

Lemma eqb_eq (a b : text) : Str.eqb a b = true <-> a = b.
Proof.
revert b. induction a as [|x a IH]; intros [|y b]; simpl; split;
  try congruence; auto.
- intros H. apply andb_true_iff in H as [Hx Hab].
  apply chars_eqb_eq in Hx. apply IH in Hab. congruence.
- intros H. injection H as -> ->.
  rewrite chars_eqb_refl. simpl. now apply IH.
Qed.

Lemma eqb_refl (a : text) : Str.eqb a a = true.
Proof. now apply eqb_eq. Qed.

Lemma startswith_iff (p s : text) :
Str.startswith p s = true <-> exists t, s = p ++ t.
Proof.
revert s. induction p as [|x p IH]; intros s; simpl.
- split; eauto.
- destruct s as [|y s].
  + split; [discriminate | intros [t Ht]; discriminate].
  + rewrite andb_true_iff, chars_eqb_eq, IH. split.
    * intros [-> [t ->]]. now exists t.
    * intros [t Ht]. injection Ht as -> ->. eauto.
Qed.

Lemma contains_iff (v s : text) : Str.contains v s = true <-> occurs_in v s.
Proof.
unfold occurs_in. induction s as [|c s IH]; simpl.
- rewrite orb_false_r, startswith_iff. split.
  + intros [t Ht]. exists [], t. exact Ht.
  + intros [a [b H]]. destruct a; [|discriminate]. now exists b.
- rewrite orb_true_iff, startswith_iff, IH. split.
  + intros [[t Ht] | [a [b H]]].
    * exists [], t. exact Ht.
    * exists (c :: a), b. simpl. now rewrite H.
  + intros [a [b H]]. destruct a as [|x a]; simpl in H.
    * left. now exists b.
    * right. injection H as _ H. now exists a, b.
Qed.

Lemma contains_app_l (v a b : text) :
Str.contains v a = true -> Str.contains v (a ++ b) = true.
Proof.
rewrite !contains_iff. intros [x [y ->]]. exists x, (y ++ b).
now rewrite <- !app_assoc.
Qed.

Lemma contains_slice (i j : nat) (s : text) :
Str.contains (Str.slice i j s) s = true.
Proof.
apply contains_iff. unfold Str.slice.
exists (firstn i s), (skipn (j - i) (skipn i s)).
now rewrite firstn_skipn, firstn_skipn.
Qed.

Lemma contains_nil (s : text) : Str.contains [] s = true.
Proof. destruct s; reflexivity. Qed.

(** *** Stripping *)

Lemma lstrip_nil_iff (s : text) :
Str.lstrip s = [] <-> forallb Chars.is_space s = true.
Proof.
induction s as [|c s IH]; simpl; [tauto|].
destruct (Chars.is_space c); simpl; [exact IH|].
split; discriminate.
Qed.

Lemma lstrip_all_space (s : text) :
forallb Chars.is_space s = true -> Str.lstrip s = [].
Proof. apply lstrip_nil_iff. Qed.

Lemma lstrip_suffix (s : text) :
exists a, s = a ++ Str.lstrip s /\ forallb Chars.is_space a = true.
Proof.
induction s as [|c s [a [Ha Hs]]]; simpl.
- now exists [].
- destruct (Chars.is_space c) eqn:E.
  + exists (c :: a). simpl. rewrite E, Hs. split; [congruence | reflexivity].
  + now exists [].
Qed.

Lemma forallb_rev (A : Type) (p : A -> bool) (l : list A) :
forallb p (rev l) = forallb p l.
Proof.
induction l as [|x l IH]; simpl; [reflexivity|].
rewrite forallb_app, IH. simpl. rewrite andb_true_r. apply andb_comm.
Qed.

(** [s.strip()] removes a run of spaces at each end. *)
Lemma strip_decompose (s : text) :
exists a b, s = a ++ Str.strip s ++ b
            /\ forallb Chars.is_space a = true
            /\ forallb Chars.is_space b = true.
Proof.
destruct (lstrip_suffix s) as [a [Ha Hsa]].
destruct (lstrip_suffix (rev (Str.lstrip s))) as [b [Hb Hsb]].
exists a, (rev b). unfold Str.strip, Str.rstrip. repeat split.
- rewrite <- rev_app_distr, <- Hb, rev_involutive. exact Ha.
- exact Hsa.
- now rewrite forallb_rev.
Qed.

Lemma strip_nil_iff (s : text) :
Str.strip s = [] <-> forallb Chars.is_space s = true.
Proof.
split.
- intros H. destruct (strip_decompose s) as [a [b [Hs [Ha Hb]]]].
  rewrite H in Hs. rewrite Hs. simpl. rewrite forallb_app. now rewrite Ha, Hb.
- intros H. unfold Str.strip. now rewrite (lstrip_all_space s H).
Qed.

End StrFacts.

(** ** The matcher *)

Module ReFacts.
Import Re StrFacts.

Section WithSubject.

Variable icase : bool.
Variable s : text.

Lemma match_at_free (r : regex) (i : nat) :
  match_at icase s r false i = None <-> run icase s r (i, []) = [].
Proof.
  unfold match_at. destruct (run icase s r (i, [])); simpl; split;
    intros H; try discriminate H; reflexivity.
Qed.

(** A scan that may match the empty string fails exactly when no start
    position in its range has a match. *)
Lemma scan_none_iff (r : regex) (n i : nat) :
  scan icase s r false n i = None <->
  forall j, i <= j <= i + n -> run icase s r (j, []) = [].
Proof.
  revert i. induction n as [|n IH]; intros i; simpl.
  - destruct (match_at icase s r false i) eqn:E.
    + split; [discriminate|]. intros H.
      assert (Hi : run icase s r (i, []) = []) by (apply H; lia).
      apply match_at_free in Hi. congruence.
    + apply match_at_free in E. split; [|reflexivity].
      intros _ j Hj. replace j with i by lia. exact E.
  - destruct (match_at icase s r false i) eqn:E.
    + split; [discriminate|]. intros H.
      assert (Hi : run icase s r (i, []) = []) by (apply H; lia).
      apply match_at_free in Hi. congruence.
    + apply match_at_free in E. rewrite IH. split.
      * intros H j Hj. destruct (Nat.eq_dec j i) as [->|Hne]; [exact E|].
        apply H. lia.
      * intros H j Hj. apply H. lia.
Qed.

Lemma search_false_iff (r : regex) :
  search icase s r = false <->
  forall j, j <= length s -> run icase s r (j, []) = [].
Proof.
  unfold search.
  destruct (scan icase s r false (length s) 0) eqn:E.
  - split; [discriminate|]. intros H.
    assert (Hn : scan icase s r false (length s) 0 = None).
    { apply scan_none_iff. intros j Hj. apply H. lia. }
    congruence.
  - split; [|reflexivity]. intros _ j Hj.
    apply (proj1 (scan_none_iff r (length s) 0) E). lia.
Qed.

(** *** Positions stay in range and never go back *)

Definition ranged (f : mstate -> list mstate) : Prop :=
  forall st st', fst st <= length s -> In st' (f st) ->
                 fst st <= fst st' <= length s.

Lemma step_char_ranged (p : ascii -> bool) : ranged (step_char s p).
Proof.
  intros st st' _ H. unfold step_char in H.
  destruct (nth_error s (fst st)) as [ch|] eqn:E; [|contradiction].
  assert (fst st < length s) by (apply nth_error_Some; congruence).
  destruct (p ch); [|contradiction].
  destruct H as [<- | []]. simpl. lia.
Qed.

Lemma guard_ranged (b : mstate -> bool) : ranged (fun st => guard (b st) st).
Proof.
  intros st st' Hst H. unfold guard in H.
  destruct (b st); [|contradiction]. destruct H as [<- | []]. lia.
Qed.

Lemma rep_more_ranged (body : mstate -> list mstate) :
  ranged body -> forall fuel limit, ranged (rep_more body fuel limit).
Proof.
  intros Hb fuel. induction fuel as [|fuel IH]; intros limit st st' Hst H; simpl in H.
  - destruct H as [<- | []]. lia.
  - apply in_app_or in H as [H | [<- | []]]; [|lia].
    destruct (exhausted limit); [contradiction|].
    apply in_flat_map in H as [st1 [H1 H]].
    destruct (fst st <? fst st1); [|contradiction].
    pose proof (Hb st st1 Hst H1).
    assert (fst st1 <= fst st' <= length s)
      by (eapply IH; [|exact H]; lia).
    lia.
Qed.

Lemma rep_min_ranged (body k : mstate -> list mstate) :
  ranged body -> ranged k -> forall n, ranged (rep_min body n k).
Proof.
  intros Hb Hk n. induction n as [|n IH]; intros st st' Hst H; simpl in H.
  - now apply Hk.
  - apply in_flat_map in H as [st1 [H1 H]].
    pose proof (Hb st st1 Hst H1).
    assert (fst st1 <= fst st' <= length s)
      by (eapply IH; [|exact H]; lia).
    lia.
Qed.

Lemma run_ranged (r : regex) : ranged (run icase s r).
Proof.
  induction r as [ | c | | items | | | | r1 IH1 r2 IH2 | r1 IH1 r2 IH2
                   | r IH lo hi | n r IH ]; cbn [run].
  - intros st st' Hst [<- | []]. lia.
  - apply step_char_ranged.
  - apply step_char_ranged.
  - apply step_char_ranged.
  - apply (guard_ranged (fun st => fst st =? 0)).
  - apply (guard_ranged (fun st => at_end s (fst st))).
  - apply (guard_ranged (fun st => at_boundary s (fst st))).
  - intros st st' Hst H. apply in_flat_map in H as [st1 [H1 H]].
    pose proof (IH1 st st1 Hst H1).
    assert (fst st1 <= fst st' <= length s) by (apply IH2; [lia | exact H]).
    lia.
  - intros st st' Hst H.
    apply in_app_or in H as [H|H]; [now apply IH1 | now apply IH2].
  - apply rep_min_ranged; [exact IH|].
    intros st st' Hst H. eapply rep_more_ranged; eassumption.
  - intros st st' Hst H. apply in_map_iff in H as [st1 [<- H1]].
    cbn [fst]. now apply IH.
Qed.

(** *** The iteration bound of a repetition is never reached *)

Lemma flat_map_ext_In (A B : Type) (f g : A -> list B) (l : list A) :
  (forall x, In x l -> f x = g x) -> flat_map f l = flat_map g l.
Proof.
  induction l as [|x l IH]; simpl; intros H; [reflexivity|].
  rewrite (H x (or_introl eq_refl)). f_equal. apply IH.
  intros y Hy. apply H. now right.
Qed.

Lemma rep_more_fuel (body : mstate -> list mstate) :
  ranged body ->
  forall fuel fuel' limit st,
    fst st <= length s ->
    length s - fst st < fuel -> length s - fst st < fuel' ->
    rep_more body fuel limit st = rep_more body fuel' limit st.
Proof.
  intros Hb fuel.
  induction fuel as [|fuel IH]; intros fuel' limit st Hst Hf Hf'; [lia|].
  destruct fuel' as [|fuel']; [lia|]. simpl.
  destruct (exhausted limit); [reflexivity|]. f_equal.
  apply flat_map_ext_In. intros st1 H1.
  destruct (fst st <? fst st1) eqn:E; [|reflexivity].
  apply Nat.ltb_lt in E. pose proof (Hb st st1 Hst H1).
  apply IH; lia.
Qed.

Lemma rep_more_S (body : mstate -> list mstate) (f : nat)
      (limit : option nat) (st : mstate) :
  rep_more body (S f) limit st =
  (if exhausted limit then []
   else flat_map
          (fun st' =>
             if fst st <? fst st' then rep_more body f (dec limit) st' else [])
          (body st))
  ++ [st].
Proof. reflexivity. Qed.

(** The loop of a repetition satisfies its defining equation: one more
    iteration that advances, or stop. *)
Lemma rep_more_unfold (r : regex) (limit : option nat) (st : mstate) :
  fst st <= length s ->
  rep_more (run icase s r) (S (length s - fst st)) limit st =
  (if exhausted limit then []
   else flat_map
          (fun st' =>
             if fst st <? fst st'
             then rep_more (run icase s r) (S (length s - fst st'))
                    (dec limit) st'
             else [])
          (run icase s r st))
  ++ [st].
Proof.
  intros Hst. rewrite rep_more_S.
  destruct (exhausted limit); [reflexivity|]. f_equal.
  apply flat_map_ext_In. intros st1 H1.
  destruct (fst st <? fst st1) eqn:E; [|reflexivity].
  apply Nat.ltb_lt in E. pose proof (run_ranged r st st1 Hst H1).
  apply rep_more_fuel; [apply run_ranged | lia | lia | lia].
Qed.

(** *** A body that consumes always advances *)

Lemma rep_min_advances (body k : mstate -> list mstate) (n : nat) :
  ranged body -> ranged k ->
  (forall st st', fst st <= length s -> In st' (body st) -> fst st < fst st') ->
  forall st st', fst st <= length s ->
                 In st' (rep_min body (S n) k st) -> fst st < fst st'.
Proof.
  intros Hb Hk Hadv st st' Hst H. simpl in H.
  apply in_flat_map in H as [st1 [H1 H]].
  pose proof (Hadv st st1 Hst H1). pose proof (Hb st st1 Hst H1).
  assert (fst st1 <= fst st' <= length s)
    by (eapply (rep_min_ranged Hb Hk n); [|exact H]; lia).
  lia.
Qed.

Lemma consumes_advances (r : regex) :
  consumes r = true ->
  forall st st', fst st <= length s -> In st' (run icase s r st) ->
                 fst st < fst st'.
Proof.
  induction r as [ | c | | items | | | | r1 IH1 r2 IH2 | r1 IH1 r2 IH2
                   | r IH lo hi | n r IH ]; cbn [consumes run]; intros Hc;
    try discriminate.
  - intros st st' Hst H. unfold step_char in H.
    destruct (nth_error s (fst st)); [|contradiction].
    destruct (lit_match icase c a); [|contradiction].
    destruct H as [<- | []]. simpl. lia.
  - intros st st' Hst H. unfold step_char in H.
    destruct (nth_error s (fst st)); [|contradiction].
    destruct (negb (Chars.eqb a Chars.newline)); [|contradiction].
    destruct H as [<- | []]. simpl. lia.
  - intros st st' Hst H. unfold step_char in H.
    destruct (nth_error s (fst st)); [|contradiction].
    destruct (existsb (fun it => item_match icase it a) items); [|contradiction].
    destruct H as [<- | []]. simpl. lia.
  - intros st st' Hst H. apply in_flat_map in H as [st1 [H1 H]].
    pose proof (run_ranged r1 st st1 Hst H1).
    assert (fst st1 <= fst st' <= length s)
      by (apply (run_ranged r2); [lia | exact H]).
    apply orb_true_iff in Hc as [Hc|Hc].
    + specialize (IH1 Hc st st1 Hst H1). lia.
    + assert (fst st1 < fst st') by (apply (IH2 Hc st1 st'); [lia | exact H]).
      lia.
  - apply andb_true_iff in Hc as [Hc1 Hc2]. intros st st' Hst H.
    apply in_app_or in H as [H|H]; [now apply IH1 | now apply IH2].
  - apply andb_true_iff in Hc as [Hlo Hc]. apply Nat.ltb_lt in Hlo.
    destruct lo as [|lo]; [lia|].
    apply rep_min_advances.
    + apply run_ranged.
    + intros st st' Hst H. eapply rep_more_ranged; [apply run_ranged | | exact H].
      exact Hst.
    + now apply IH.
  - intros st st' Hst H. apply in_map_iff in H as [st1 [<- H1]].
    cbn [fst]. now apply IH.
Qed.

(** *** [findall] never runs short of matches *)

Lemma match_at_some (r : regex) (ma : bool) (i : nat) (st : mstate) :
  match_at icase s r ma i = Some st ->
  In st (run icase s r (i, [])) /\ (ma = true -> fst st <> i).
Proof.
  unfold match_at. intros H. apply find_some in H as [Hin Hb].
  split; [exact Hin|]. intros ->. simpl in Hb.
  now apply negb_true_iff, Nat.eqb_neq in Hb.
Qed.

Lemma scan_some (r : regex) (n : nat) :
  forall ma i start st,
    scan icase s r ma n i = Some (start, st) ->
    i <= start <= i + n
    /\ In st (run icase s r (start, []))
    /\ (ma = true -> start = i -> fst st <> i).
Proof.
  induction n as [|n IH]; intros ma i start st H; simpl in H;
    destruct (match_at icase s r ma i) as [st0|] eqn:E.
  - injection H as <- <-. apply match_at_some in E as [Hin Hne].
    split; [lia|]. split; [exact Hin | intros Hma _; now apply Hne].
  - discriminate.
  - injection H as <- <-. apply match_at_some in E as [Hin Hne].
    split; [lia|]. split; [exact Hin | intros Hma _; now apply Hne].
  - apply IH in H as [Hr [Hin _]].
    split; [lia|]. split; [exact Hin | intros _ Hs; lia].
Qed.

(** The number of matches still possible from position [i]. *)
Definition matches_left (must_advance : bool) (i : nat) : nat :=
  2 * (length s - i) + (if must_advance then 1 else 2).

Lemma findall_from_fuel (r : regex) (grouped : bool) :
  forall fuel fuel' ma i,
    i <= length s ->
    matches_left ma i <= fuel -> matches_left ma i <= fuel' ->
    findall_from icase s r grouped fuel ma i
    = findall_from icase s r grouped fuel' ma i.
Proof.
  induction fuel as [|fuel IH]; intros fuel' ma i Hi Hf Hf'.
  - unfold matches_left in Hf. destruct ma; lia.
  - destruct fuel' as [|fuel'];
      [unfold matches_left in Hf'; destruct ma; lia|].
    simpl.
    destruct (scan icase s r ma (length s - i) i) as [[start st]|] eqn:E;
      [|reflexivity].
    f_equal. apply scan_some in E as [Hr [Hin Hne]].
    assert (Hrg : start <= fst st <= length s).
    { apply (run_ranged r (start, []) st); [simpl; lia | exact Hin]. }
    unfold matches_left in *.
    destruct (fst st =? start) eqn:Q;
      [apply Nat.eqb_eq in Q | apply Nat.eqb_neq in Q].
    + destruct (Nat.eq_dec start i) as [Hs|Hs].
      * destruct ma.
        -- exfalso. apply (Hne eq_refl Hs). lia.
        -- apply IH; lia.
      * apply IH; destruct ma; lia.
    + apply IH; destruct ma; lia.
Qed.

Lemma rep_more_nonempty (body : mstate -> list mstate) (fuel : nat)
      (limit : option nat) (st : mstate) :
  rep_more body fuel limit st <> [].
Proof.
  destruct fuel; simpl; [discriminate|].
  intros H. apply app_eq_nil in H as [_ H]. discriminate.
Qed.

Lemma run_plus (r : regex) (st : mstate) :
  run icase s (plus r) st =
  flat_map
    (fun st' => rep_more (run icase s r) (S (length s - fst st')) None st')
    (run icase s r st).
Proof. reflexivity. Qed.

Lemma flat_map_nonempty (A B : Type) (f : A -> list B) (l : list A) :
  (forall x, f x <> []) -> flat_map f l = [] <-> l = [].
Proof.
  intros Hf. destruct l as [|x l]; simpl; [tauto|]. split.
  - intros H. apply app_eq_nil in H as [H _]. now apply Hf in H.
  - discriminate.
Qed.

Lemma run_digit_at (j : nat) (c : caps) :
  run icase s digit (j, c) =
  match nth_error s j with
  | Some ch => if Chars.is_digit ch then [(S j, c)] else []
  | None => []
  end.
Proof.
  unfold digit. cbn [run]. unfold step_char. cbn [fst snd].
  destruct (nth_error s j) as [ch|]; [|reflexivity].
  cbn [existsb item_match]. now rewrite orb_false_r.
Qed.

(** [\d+] matches at [j] exactly when the character there is a digit. *)
Lemma run_digits (j : nat) :
  run icase s (plus digit) (j, []) = [] <->
  (forall c, nth_error s j = Some c -> Chars.is_digit c = false).
Proof.
  rewrite run_plus, flat_map_nonempty
    by (intros x; apply rep_more_nonempty).
  rewrite run_digit_at.
  destruct (nth_error s j) as [c|] eqn:E.
  - destruct (Chars.is_digit c) eqn:D.
    + split; [discriminate|]. intros H. specialize (H c eq_refl). congruence.
    + split; [|reflexivity]. intros _ c' Hc'. congruence.
  - split; [|reflexivity]. intros _ c' Hc'. discriminate.
Qed.

(** [re.search(r'\d+', s)] finds something exactly when [s] has a digit. *)
Lemma search_digits : search icase s (plus digit) = existsb Chars.is_digit s.
Proof.
  destruct (existsb Chars.is_digit s) eqn:E.
  - apply existsb_exists in E as [c [Hin Hc]].
    apply In_nth_error in Hin as [j Hj].
    destruct (search icase s (plus digit)) eqn:S; [reflexivity|].
    assert (Hlt : j < length s) by (apply nth_error_Some; congruence).
    pose proof (proj1 (search_false_iff (plus digit)) S j (Nat.lt_le_incl _ _ Hlt)) as H.
    apply run_digits with (c := c) in H; congruence.
  - apply search_false_iff. intros j _. apply run_digits. intros c Hc.
    apply nth_error_In in Hc.
    destruct (Chars.is_digit c) eqn:D; [|reflexivity].
    assert (existsb Chars.is_digit s = true)
      by (apply existsb_exists; eauto).
    congruence.
Qed.

(** Whatever [findall] reports occurs in the subject. *)
Lemma report_contains (grouped : bool) (start : nat) (st : mstate) :
  Str.contains (report s grouped start st) s = true.
Proof.
  unfold report. destruct grouped.
  - destruct (lookup 1 (snd st)) as [[a b]|].
    + apply contains_slice.
    + apply contains_nil.
  - apply contains_slice.
Qed.

Lemma findall_from_contains (r : regex) (grouped : bool) (fuel : nat) :
  forall (must_advance : bool) (i : nat) (v : text),
    In v (findall_from icase s r grouped fuel must_advance i) ->
    Str.contains v s = true.
Proof.
  induction fuel as [|fuel IH]; simpl; intros ma i v Hin; [contradiction|].
  destruct (scan icase s r ma (length s - i) i) as [[start st]|];
    [|contradiction].
  destruct Hin as [<- | Hin].
  - apply report_contains.
  - eapply IH; eassumption.
Qed.

End WithSubject.

(** More fuel than [findall] takes changes nothing: no match is lost. *)
Lemma findall_fuel_enough (r : regex) (grouped : bool) (s : text) (fuel : nat) :
  2 * (length s + 1) <= fuel ->
  findall_from false s r grouped fuel false 0 = findall r grouped s.
Proof.
  intros H. unfold findall.
  apply findall_from_fuel; unfold matches_left; lia.
Qed.

Lemma findall_py_contains (r : regex) (s v : text) :
In v (findall_py r s) -> Str.contains v s = true.
Proof. apply findall_from_contains. Qed.

End ReFacts.

(** ** IGNORECASE is matching in lower case *)

Module CaseFacts.
Import Re ContentPreservation Notions.

(** *** Characters *)

Lemma lower_lower (c : ascii) : Chars.lower (Chars.lower c) = Chars.lower c.
Proof. destruct c as [[] [] [] [] [] [] [] []]; reflexivity. Qed.

Lemma lower_upper_lower (c : ascii) :
  Chars.lower (Chars.upper (Chars.lower c)) = Chars.lower c.
Proof. destruct c as [[] [] [] [] [] [] [] []]; reflexivity. Qed.

Lemma lower_or_upper (c : ascii) :
  c = Chars.lower c \/ c = Chars.upper (Chars.lower c).
Proof.
  destruct c as [[] [] [] [] [] [] [] []];
    first [left; reflexivity | right; reflexivity].
Qed.

Lemma lower_keeps_digit (c : ascii) :
  Chars.is_digit (Chars.lower c) = Chars.is_digit c.
Proof. destruct c as [[] [] [] [] [] [] [] []]; reflexivity. Qed.

Lemma lower_keeps_word (c : ascii) :
  Chars.is_word (Chars.lower c) = Chars.is_word c.
Proof. destruct c as [[] [] [] [] [] [] [] []]; reflexivity. Qed.

Lemma lower_keeps_space (c : ascii) :
  Chars.is_space (Chars.lower c) = Chars.is_space c.
Proof. destruct c as [[] [] [] [] [] [] [] []]; reflexivity. Qed.

Lemma lower_keeps_newline (c : ascii) :
  Chars.eqb (Chars.lower c) Chars.newline = Chars.eqb c Chars.newline.
Proof. destruct c as [[] [] [] [] [] [] [] []]; reflexivity. Qed.

Lemma in_chars_between (lo hi x : ascii) :
  In x (chars_between lo hi) <-> in_range lo hi x = true.
Proof.
  unfold chars_between, in_range, Chars.between, Chars.code.
  rewrite in_map_iff, andb_true_iff, Nat.leb_le, Nat.leb_le. split.
  - intros [n [<- Hn]]. apply in_seq in Hn.
    pose proof (nat_ascii_bounded hi) as Hhi.
    rewrite nat_ascii_embedding by lia. lia.
  - intros [H1 H2]. exists (nat_of_ascii x). split.
    + apply ascii_nat_embedding.
    + apply in_seq. lia.
Qed.

(** A range read without regard to case has the members whose lower-case
    form is that of the character. *)
Lemma range_ignoring_case (lo hi ch : ascii) :
  in_range lo hi (Chars.lower ch)
  || in_range lo hi (Chars.upper (Chars.lower ch))
  = existsb (fun x => Chars.eqb (Chars.lower x) (Chars.lower ch))
            (chars_between lo hi).
Proof.
  apply eq_true_iff_eq. rewrite orb_true_iff, existsb_exists. split.
  - intros [H | H]; apply in_chars_between in H.
    + exists (Chars.lower ch). split; [exact H|].
      apply Ascii.eqb_eq, lower_lower.
    + exists (Chars.upper (Chars.lower ch)). split; [exact H|].
      apply Ascii.eqb_eq, lower_upper_lower.
  - intros [x [Hx He]]. apply Ascii.eqb_eq in He.
    apply in_chars_between in Hx.
    destruct (lower_or_upper x) as [E | E]; rewrite He in E; subst x; auto.
Qed.

Lemma existsb_through_map (A B : Type) (g : A -> B) (f : B -> bool)
      (l : list A) :
  existsb f (map g l) = existsb (fun x => f (g x)) l.
Proof. induction l as [|x l IH]; simpl; [reflexivity | now rewrite IH]. Qed.

Lemma fold_item_match (it : item) (ch : ascii) :
  existsb (fun it' => item_match false it' (Chars.lower ch)) (fold_item it)
  = item_match true it ch.
Proof.
  destruct it as [c | lo hi | | |]; cbn [fold_item item_match existsb].
  - apply orb_false_r.
  - rewrite existsb_through_map. symmetry. apply range_ignoring_case.
  - rewrite orb_false_r. apply lower_keeps_digit.
  - rewrite orb_false_r. apply lower_keeps_word.
  - rewrite orb_false_r. apply lower_keeps_space.
Qed.

Lemma fold_items_match (items : list item) (ch : ascii) :
  existsb (fun it => item_match true it ch) items
  = existsb (fun it => item_match false it (Chars.lower ch))
            (flat_map fold_item items).
Proof.
  induction items as [|it items IH]; simpl; [reflexivity|].
  now rewrite existsb_app, fold_item_match, IH.
Qed.

(** *** The matcher *)

Section Folding.

Variable s : text.

Lemma step_char_lower (p q : ascii -> bool) (st : mstate) :
  (forall ch, p ch = q (Chars.lower ch)) ->
  step_char s p st = step_char (Str.lower s) q st.
Proof.
  intros H. unfold step_char, Str.lower. rewrite nth_error_map.
  destruct (nth_error s (fst st)) as [ch|]; simpl; [|reflexivity].
  now rewrite H.
Qed.

Lemma word_at_lower (i : nat) : word_at (Str.lower s) i = word_at s i.
Proof.
  unfold word_at, Str.lower. rewrite nth_error_map.
  destruct (nth_error s i); simpl; [apply lower_keeps_word | reflexivity].
Qed.

Lemma at_boundary_lower (i : nat) :
  at_boundary (Str.lower s) i = at_boundary s i.
Proof.
  unfold at_boundary. rewrite word_at_lower.
  destruct i; [reflexivity|]. now rewrite word_at_lower.
Qed.

Lemma at_end_lower (i : nat) : at_end (Str.lower s) i = at_end s i.
Proof.
  unfold at_end, Str.lower. rewrite length_map, nth_error_map.
  destruct (nth_error s i); simpl; [|reflexivity].
  now rewrite lower_keeps_newline.
Qed.

Lemma rep_more_ext (b1 b2 : mstate -> list mstate) :
  (forall st, b1 st = b2 st) ->
  forall fuel limit st, rep_more b1 fuel limit st = rep_more b2 fuel limit st.
Proof.
  intros H. induction fuel as [|f IH]; intros limit st; simpl; [reflexivity|].
  rewrite H. f_equal. destruct (exhausted limit); [reflexivity|].
  apply flat_map_ext. intros st'. now rewrite IH.
Qed.

Lemma rep_min_ext (b1 b2 k1 k2 : mstate -> list mstate) :
  (forall st, b1 st = b2 st) -> (forall st, k1 st = k2 st) ->
  forall n st, rep_min b1 n k1 st = rep_min b2 n k2 st.
Proof.
  intros Hb Hk. induction n as [|n IH]; intros st; simpl; [apply Hk|].
  rewrite Hb. apply flat_map_ext. exact IH.
Qed.

(** Matching with IGNORECASE is matching the pattern in lower case against
    the subject in lower case: the same matches, in the same order, with
    the same groups. *)
Lemma run_fold_case (r : regex) :
  forall st, run true s r st = run false (Str.lower s) (fold_case r) st.
Proof.
  induction r as [ | c | | items | | | | r1 IH1 r2 IH2 | r1 IH1 r2 IH2
                 | r IH lo hi | n r IH ];
    intros st; cbn [run fold_case].
  - reflexivity.
  - apply step_char_lower. reflexivity.
  - apply step_char_lower. intros ch. now rewrite lower_keeps_newline.
  - apply step_char_lower. intros ch. apply fold_items_match.
  - reflexivity.
  - now rewrite at_end_lower.
  - now rewrite at_boundary_lower.
  - rewrite IH1. apply flat_map_ext. exact IH2.
  - now rewrite IH1, IH2.
  - apply rep_min_ext; [exact IH|]. intros st'.
    unfold Str.lower at 2. rewrite length_map.
    apply rep_more_ext. exact IH.
  - now rewrite IH.
Qed.

Lemma scan_fold_case (r : regex) :
  forall n must_advance i,
    scan true s r must_advance n i
    = scan false (Str.lower s) (fold_case r) must_advance n i.
Proof.
  induction n as [|n IH]; intros must_advance i; cbn [scan];
    unfold match_at; rewrite run_fold_case;
    destruct (find _ _); try reflexivity.
  apply IH.
Qed.

End Folding.

(** [re.search] with IGNORECASE finds a pattern exactly when the pattern
    matches case-insensitively. *)
Lemma search_icase_ignores_case (t : text) (p : regex) :
  search_icase t p = found_ignoring_case t p.
Proof.
  unfold search_icase, found_ignoring_case, search.
  rewrite scan_fold_case. unfold Str.lower at 3. now rewrite length_map.
Qed.

Lemma find_same (A : Type) (f g : A -> bool) (l : list A) :
  (forall x, f x = g x) -> find f l = find g l.
Proof.
  intros H. induction l as [|x l IH]; simpl; [reflexivity|].
  now rewrite H, IH.
Qed.

Lemma blank_lower (t : text) :
  forallb Chars.is_space (Str.lower t) = forallb Chars.is_space t.
Proof.
  induction t as [|c t IH]; simpl; [reflexivity|].
  now rewrite lower_keeps_space, IH.
Qed.

Lemma digit_lower (t : text) :
  existsb Chars.is_digit (Str.lower t) = existsb Chars.is_digit t.
Proof.
  induction t as [|c t IH]; simpl; [reflexivity|].
  now rewrite lower_keeps_digit, IH.
Qed.

End CaseFacts.

(** ** The safety classifier, fingerprints and the validator *)

Module ContentPreservationFacts.
Import Re ContentPreservation Notions Scenarios StrFacts ReFacts.

(** In every pattern of the program the body of each repetition consumes a
    character, so an iteration of a loop always advances. *)
Lemma library_loops_consume : forallb loops_consume library_patterns = true.
Proof. vm_compute. reflexivity. Qed.

Lemma find_app (A : Type) (p : A -> bool) (l1 l2 : list A) :
find p (l1 ++ l2) =
match find p l1 with
| Some x => Some x
| None => find p l2
end.
Proof.
induction l1 as [|x l1 IH]; simpl; [reflexivity|].
now destruct (p x).
Qed.

Lemma find_tagged (name : string) (q : regex -> bool) (ps : list regex) :
find (fun cp : string * regex => q (snd cp)) (map (pair name) ps) =
match find q ps with
| Some p => Some (name, p)
| None => None
end.
Proof.
induction ps as [|p ps IH]; simpl; [reflexivity|].
now destruct (q p).
Qed.

(** The two nested loops visit the patterns in the flattened order and stop
  at the first that matches. *)
Lemma first_hit_flat (cats : list (string * list regex)) (t : text) :
first_hit cats t =
find (fun cp => search_icase t (snd cp))
     (flat_map (fun cat => map (pair (fst cat)) (snd cat)) cats).
Proof.
induction cats as [|[name ps] cats IH]; simpl; [reflexivity|].
rewrite find_app, find_tagged.
destruct (find (search_icase t) ps); [reflexivity | exact IH].
Qed.

Lemma is_empty_strip (t : text) :
is_empty (Str.strip t) = forallb Chars.is_space t.
Proof.
destruct (forallb Chars.is_space t) eqn:E.
- apply strip_nil_iff in E. now rewrite E.
- destruct (Str.strip t) eqn:S; [|reflexivity].
  apply strip_nil_iff in S. congruence.
Qed.

(** The classifier is the classifier of the specification. *)
Lemma assess_as_specified (t : text) :
  assess_paragraph_safety t = assess_by_spec t.
Proof.
  unfold assess_paragraph_safety, assess_by_spec.
  rewrite is_empty_strip, first_hit_flat, search_digits.
  rewrite (CaseFacts.find_same
             (fun cp : string * regex => search_icase t (snd cp))
             (fun cp => found_ignoring_case t (snd cp)));
    [reflexivity|].
  intros cp. apply CaseFacts.search_icase_ignores_case.
Qed.

(** C1.  For every text the classifier answers as the specification says:
    SAFE for an empty or blank text; otherwise CRITICAL as soon as a pattern
    of the four categories, tried in the order procedural, technical,
    numerical, regulatory, matches the text case-insensitively (the pattern
    in lower case is found in the text in lower case); otherwise REVIEW if
    the text has a digit; otherwise SAFE.  The nested loops stop at the
    first such pattern.  The answer does not depend on the case of the
    letters of the text.  The example with a procedural keyword and a bare
    number is CRITICAL; the lower-case word ok is CRITICAL by the acronym
    pattern, and no pattern finds it when the two cases are told apart; a
    text of two single letters is SAFE; a bare four-digit number is
    REVIEW. *)
Theorem assess_paragraph_safety_meets_spec (t : text) :
  assess_paragraph_safety t = assess_by_spec t
  /\ first_hit prohibited_patterns t
     = find (fun cp => found_ignoring_case t (snd cp)) flat_patterns
  /\ map fst prohibited_patterns = category_order
  /\ (forall t' : text,
        Str.lower t' = Str.lower t ->
        assess_paragraph_safety t' = assess_paragraph_safety t)
  /\ assess_paragraph_safety "Step 1: cost is 5 units" = CONTENT_CRITICAL
  /\ assess_paragraph_safety "ok" = CONTENT_CRITICAL
  /\ first_hit prohibited_patterns (text_of "ok")
     = Some ("technical_terms", nth 0 technical_terms_patterns Eps)
  /\ find (fun cp => search false (text_of "ok") (snd cp)) flat_patterns = None
  /\ assess_paragraph_safety "a b" = SAFE_TO_MODIFY
  /\ assess_paragraph_safety "1234" = REQUIRES_REVIEW.
Proof.
  split; [apply assess_as_specified|].
  split.
  { rewrite first_hit_flat. apply CaseFacts.find_same. intros cp.
    apply CaseFacts.search_icase_ignores_case. }
  split; [reflexivity|].
  split.
  { intros t' H. rewrite !assess_as_specified. unfold assess_by_spec.
    rewrite <- (CaseFacts.blank_lower t'), <- (CaseFacts.blank_lower t).
    rewrite <- (CaseFacts.digit_lower t'), <- (CaseFacts.digit_lower t).
    unfold found_ignoring_case. now rewrite H. }
  repeat split; vm_compute; reflexivity.
Qed.

(** *** The review scenario *)

(** C2.  On the paragraph of the review scenario the classifier answers
  CRITICAL (the acronym pattern, read without regard to case, finds the
  word Total), and the fingerprint of a document made of this paragraph
  lists the currency amount but not the percentage. *)
Theorem discount_scenario_evaluation (sha : text -> text) (now : nat) :
assess_paragraph_safety discount_text = CONTENT_CRITICAL
/\ first_hit prohibited_patterns discount_text
   = Some ("technical_terms", nth 0 technical_terms_patterns Eps)
/\ numerical_values (create_content_fingerprint sha now discount_document)
   = [ text_of "000.00"; text_of "$15,000.00"; text_of "15,000";
       text_of "00"; text_of "15" ]
/\ existsb (Str.eqb (text_of "15%"))
     (numerical_values (create_content_fingerprint sha now discount_document))
   = false.
Proof.
repeat split; vm_compute; reflexivity.
Qed.

(** *** The validator *)

Lemma check_values_from (processed : text) (values : list text) :
forall acc : bool * list text,
  fold_left
    (fun acc value =>
       if negb (Str.contains value processed)
       then (false, snd acc ++ [value])
       else acc)
    values acc
  = (fst acc && forallb (fun v => Str.contains v processed) values,
     snd acc ++ filter (fun v => negb (Str.contains v processed)) values).
Proof.
induction values as [|v values IH]; intros [b m]; simpl.
- now rewrite andb_true_r, app_nil_r.
- rewrite IH. destruct (Str.contains v processed); simpl.
  + reflexivity.
  + now rewrite andb_false_r, <- app_assoc.
Qed.

(** The loop computes a conjunction and the absent values, in order. *)
Lemma check_values_eq (values : list text) (processed : text) :
check_values values processed
= (forallb (fun v => Str.contains v processed) values,
   filter (fun v => negb (Str.contains v processed)) values).
Proof. unfold check_values. now rewrite check_values_from. Qed.

Lemma dedupe_from_incl (xs seen : list text) (v : text) :
In v (dedupe_from seen xs) -> In v xs.
Proof.
revert seen. induction xs as [|x xs IH]; simpl; intros seen H; [exact H|].
destruct (existsb (Str.eqb x) seen).
- right. eapply IH. exact H.
- destruct H as [H|H]; [now left | right; eapply IH; exact H].
Qed.

(** Every extracted numerical value occurs in the text it came from. *)
Lemma extracted_value_occurs (t v : text) :
In v (extract_numerical_values t) -> Str.contains v t = true.
Proof.
intros H. apply dedupe_from_incl in H.
apply in_flat_map in H as [p [_ Hp]].
now apply findall_py_contains in Hp.
Qed.

Lemma filter_none (A : Type) (p : A -> bool) (l : list A) :
(forall x, In x l -> p x = false) -> filter p l = [].
Proof.
induction l as [|x l IH]; simpl; intros H; [reflexivity|].
rewrite (H x (or_introl eq_refl)). apply IH. intros y Hy. apply H. now right.
Qed.

(** C3.  Round trip: the validator accepts the canonical full text of the
  document whose fingerprint it is given; all four checks pass and no
  value is missing. *)
Theorem round_trip_integrity (sha : text -> text) (now : nat) (doc : document) :
let report :=
  validate_content_integrity sha (create_content_fingerprint sha now doc)
    (full_text doc) in
overall_valid report = true
/\ content_hash_match report = true
/\ word_count_match report = true
/\ character_count_match report = true
/\ numerical_values_preserved report = true
/\ missing_values report = [].
Proof.
cbn zeta. unfold validate_content_integrity.
cbn [full_text_hash word_count character_count numerical_values
     create_content_fingerprint overall_valid content_hash_match
     word_count_match character_count_match numerical_values_preserved
     missing_values].
rewrite eqb_refl, !Nat.eqb_refl, check_values_eq. cbn [fst snd andb].
assert (Hall : forallb (fun v => Str.contains v (full_text doc))
                 (extract_numerical_values (full_text doc)) = true).
{ apply forallb_forall. intros v Hv. now apply extracted_value_occurs. }
rewrite Hall. repeat split; try reflexivity.
apply filter_none. intros v Hv.
rewrite (extracted_value_occurs _ _ Hv). reflexivity.
Qed.

(** C5.  For every fingerprint and candidate text the report says that the
  numerical values are preserved exactly when each fingerprinted value
  occurs literally in the candidate; a value that does not occur is listed
  as missing; and the overall verdict is the conjunction of the four
  checks.  Altering the amount of the review scenario is reported. *)
Theorem numeric_preservation_report
      (sha : text -> text) (fp : ContentFingerprint) (candidate : text) :
let report := validate_content_integrity sha fp candidate in
(numerical_values_preserved report = true
 <-> forall v, In v (numerical_values fp) -> occurs_in v candidate)
/\ (forall v, In v (numerical_values fp) ->
              ~ occurs_in v candidate -> In v (missing_values report))
/\ (forall v, In v (missing_values report) ->
              In v (numerical_values fp) /\ ~ occurs_in v candidate)
/\ overall_valid report
   = content_hash_match report && word_count_match report
     && character_count_match report && numerical_values_preserved report
/\ (forall now,
      let altered :=
        validate_content_integrity sha
          (create_content_fingerprint sha now discount_document)
          (text_of "Total cost is $20,000.00 with 15% discount.") in
      numerical_values_preserved altered = false
      /\ In (text_of "$15,000.00") (missing_values altered)).
Proof.
cbn zeta. unfold validate_content_integrity.
cbn [overall_valid content_hash_match word_count_match
     character_count_match numerical_values_preserved missing_values].
rewrite check_values_eq. cbn [fst snd].
split; [|split; [|split; [|split]]].
- rewrite forallb_forall. split; intros H v Hv; apply contains_iff; auto.
- intros v Hv Hno. apply filter_In. split; [exact Hv|].
  destruct (Str.contains v candidate) eqn:E; [|reflexivity].
  apply contains_iff in E. contradiction.
- intros v Hv. apply filter_In in Hv as [Hv Hno]. split; [exact Hv|].
  intros Hocc. apply contains_iff in Hocc. rewrite Hocc in Hno. discriminate.
- reflexivity.
- intros now. rewrite check_values_eq. cbn [fst snd]. split.
  + vm_compute. reflexivity.
  + vm_compute. left. reflexivity.
Qed.

(** *** Prohibited zones *)

Lemma zones_of_paragraph_critical (sha : text -> text) (i : nat) (t : text) :
Forall (fun z => safety_level z = CONTENT_CRITICAL)
       (zones_of_paragraph sha i t).
Proof.
apply Forall_forall. intros z Hz. unfold zones_of_paragraph in Hz.
apply in_flat_map in Hz as [cat [_ Hz]].
destruct (find (search_icase t) (snd cat)); [|contradiction].
destruct Hz as [<- | []]. reflexivity.
Qed.

Lemma zones_all_critical (sha : text -> text) (doc : document) :
Forall (fun z => safety_level z = CONTENT_CRITICAL)
       (identify_prohibited_zones sha doc).
Proof.
apply Forall_forall. intros z Hz.
unfold identify_prohibited_zones in Hz.
apply in_flat_map in Hz as [[i p] [_ Hz]]. cbn [fst snd] in Hz.
destruct (has_text p); [|contradiction].
pose proof (zones_of_paragraph_critical sha i (para_text p)) as H.
rewrite Forall_forall in H. now apply H.
Qed.

(** *** Fingerprint stability *)

Lemma filter_through (A B : Type) (f : A -> B) (p : A -> bool) (q : B -> bool)
    (l1 l2 : list A) :
(forall x, p x = q (f x)) ->
map f l1 = map f l2 ->
map f (filter p l1) = map f (filter p l2).
Proof.
intros Hpq. revert l2.
induction l1 as [|x l1 IH]; intros [|y l2] H; simpl in *; try discriminate;
  [reflexivity|].
injection H as Hxy H. rewrite (Hpq x), (Hpq y), Hxy.
destruct (q (f y)); simpl; [rewrite Hxy; f_equal|]; now apply IH.
Qed.

Lemma length_through (A B : Type) (f : A -> B) (l1 l2 : list A) :
map f l1 = map f l2 -> length l1 = length l2.
Proof.
intros H. rewrite <- (length_map f l1), <- (length_map f l2). now rewrite H.
Qed.

Lemma kept_texts_equal (d1 d2 : document) :
same_content d1 d2 ->
map para_text (filter has_text (doc_paragraphs d1))
= map para_text (filter has_text (doc_paragraphs d2)).
Proof.
intros [Ht _].
apply filter_through
  with (q := fun t => negb (is_empty (Str.strip t))); [reflexivity | exact Ht].
Qed.

Lemma heading_count_equal (d1 d2 : document) :
same_content d1 d2 ->
length (filter is_heading (doc_paragraphs d1))
= length (filter is_heading (doc_paragraphs d2)).
Proof.
intros [_ [Hs _]]. apply length_through with (f := style_name).
apply filter_through
  with (q := fun n => Str.startswith (text_of "Heading") n);
  [reflexivity | exact Hs].
Qed.

(** C9.  Two runs of the fingerprint builder on documents with the same
  content agree on both hashes, the paragraph hashes, the two counts and
  the numerical values, whatever the clock shows at each run; the
  timestamp is the clock value of the run. *)
Theorem fingerprint_stability
      (sha : text -> text) (now1 now2 : nat) (d1 d2 : document) :
same_content d1 d2 ->
let f1 := create_content_fingerprint sha now1 d1 in
let f2 := create_content_fingerprint sha now2 d2 in
full_text_hash f1 = full_text_hash f2
/\ paragraph_hashes f1 = paragraph_hashes f2
/\ structure_hash f1 = structure_hash f2
/\ word_count f1 = word_count f2
/\ character_count f1 = character_count f2
/\ numerical_values f1 = numerical_values f2
/\ timestamp f1 = now1 /\ timestamp f2 = now2.
Proof.
intros Hsame. cbn zeta.
pose proof (kept_texts_equal Hsame) as Hk.
pose proof (heading_count_equal Hsame) as Hh.
assert (Hft : full_text d1 = full_text d2)
  by (unfold full_text; now rewrite Hk).
destruct Hsame as [_ [_ Htab]].
unfold create_content_fingerprint.
cbn [full_text_hash paragraph_hashes structure_hash word_count
     character_count numerical_values timestamp].
rewrite Hft, Hh, Htab, (length_through _ _ _ Hk).
repeat split; try reflexivity.
rewrite <- (map_map para_text sha (filter has_text (doc_paragraphs d1))).
rewrite <- (map_map para_text sha (filter has_text (doc_paragraphs d2))).
now rewrite Hk.
Qed.

Lemma fingerprint_stability_witness :
same_content discount_document discount_copy
/\ (let f1 := create_content_fingerprint (fun t => t) 1 discount_document in
    let f2 := create_content_fingerprint (fun t => t) 2 discount_copy in
    full_text_hash f1 = full_text_hash f2
    /\ paragraph_hashes f1 = paragraph_hashes f2
    /\ structure_hash f1 = structure_hash f2
    /\ word_count f1 = word_count f2
    /\ character_count f1 = character_count f2
    /\ numerical_values f1 = numerical_values f2
    /\ timestamp f1 = 1 /\ timestamp f2 = 2).
Proof.
assert (H : same_content discount_document discount_copy)
  by (repeat split; reflexivity).
split; [exact H|].
exact (@fingerprint_stability (fun t => t) 1 2 discount_document discount_copy H).
Defined.

End ContentPreservationFacts.

(** ** The filter pipeline *)

Module MultiStageFacts.
Import Re MultiStage Notions Scenarios StrFacts.

(** *** Stripping commutes with lower-casing and is idempotent *)

Lemma is_space_lower (c : ascii) :
Chars.is_space (Chars.lower c) = Chars.is_space c.
Proof. destruct c as [[] [] [] [] [] [] [] []]; reflexivity. Qed.

Lemma lstrip_lower (s : text) :
Str.lstrip (Str.lower s) = Str.lower (Str.lstrip s).
Proof.
induction s as [|c s IH]; simpl; [reflexivity|].
rewrite is_space_lower. destruct (Chars.is_space c); [exact IH | reflexivity].
Qed.

Lemma strip_lower (s : text) :
Str.strip (Str.lower s) = Str.lower (Str.strip s).
Proof.
unfold Str.strip, Str.rstrip. rewrite lstrip_lower.
unfold Str.lower. rewrite <- map_rev.
fold (Str.lower (rev (Str.lstrip s))). rewrite lstrip_lower.
unfold Str.lower. now rewrite map_rev.
Qed.

Lemma lstrip_head (s r : text) (c : ascii) :
Str.lstrip s = c :: r -> Chars.is_space c = false.
Proof.
induction s as [|x s IH]; simpl; [discriminate|].
destruct (Chars.is_space x) eqn:E; [exact IH|].
intros H. injection H as <- _. exact E.
Qed.

Lemma lstrip_fixed (s : text) :
(forall c r, s = c :: r -> Chars.is_space c = false) -> Str.lstrip s = s.
Proof.
destruct s as [|c r]; simpl; intros H; [reflexivity|].
now rewrite (H c r eq_refl).
Qed.

Lemma lstrip_idem (s : text) : Str.lstrip (Str.lstrip s) = Str.lstrip s.
Proof. apply lstrip_fixed. intros c r H. eapply lstrip_head. exact H. Qed.

Lemma rstrip_prefix (u : text) :
exists a, u = Str.rstrip u ++ a.
Proof.
destruct (lstrip_suffix (rev u)) as [a [Ha _]].
exists (rev a). unfold Str.rstrip.
rewrite <- rev_app_distr, <- Ha. now rewrite rev_involutive.
Qed.

Lemma strip_idem (s : text) : Str.strip (Str.strip s) = Str.strip s.
Proof.
unfold Str.strip.
assert (Hl : Str.lstrip (Str.rstrip (Str.lstrip s)) = Str.rstrip (Str.lstrip s)).
{ apply lstrip_fixed. intros c r Hc.
  destruct (rstrip_prefix (Str.lstrip s)) as [a Ha].
  rewrite Hc in Ha. simpl in Ha. eapply lstrip_head. exact Ha. }
rewrite Hl. unfold Str.rstrip at 1 2.
now rewrite rev_involutive, lstrip_idem.
Qed.

(** Stage 3 hands the classifier a stripped text; stripping it again
  changes nothing. *)
Lemma classify_strip (t : text) :
_classify_paragraph (Str.strip t) = _classify_paragraph t.
Proof. unfold _classify_paragraph. now rewrite strip_idem. Qed.

(** *** The filter loops *)

Lemma filter_loop_kept (reason_of : text -> option string)
    (paragraphs : list paragraph) :
forall kept dbg,
  fst (filter_loop reason_of paragraphs kept dbg)
  = kept ++ filter (survives reason_of) paragraphs.
Proof.
induction paragraphs as [|para rest IH]; intros kept dbg; simpl.
- now rewrite app_nil_r.
- unfold survives at 1. destruct (reason_of (para_text para)).
  + apply IH.
  + rewrite IH. now rewrite <- app_assoc.
Qed.

Lemma filter_subsequence (A : Type) (p : A -> bool) (l : list A) :
subsequence (filter p l) l.
Proof.
induction l as [|x l IH]; simpl; [constructor|].
destruct (p x); now constructor.
Qed.

Lemma stage1_kept (paragraphs : list paragraph) (d : debug_info) :
fst (stage1_navigation_filter paragraphs d)
= filter (survives stage1_reason) paragraphs.
Proof.
unfold stage1_navigation_filter. cbn [fst]. now rewrite filter_loop_kept.
Qed.

Lemma stage2_kept (paragraphs : list paragraph) (d : debug_info) :
fst (stage2_metadata_filter paragraphs d)
= filter (survives stage2_reason) paragraphs.
Proof.
unfold stage2_metadata_filter. cbn [fst]. now rewrite filter_loop_kept.
Qed.

Lemma classify_loop_out (paragraphs : list paragraph) :
forall out dbg,
  fst (classify_loop paragraphs out dbg)
  = out ++ map (fun para =>
                  {| c_text := Str.strip (para_text para);
                     c_style := _classify_paragraph (Str.strip (para_text para));
                     original_para := para |})
               paragraphs.
Proof.
induction paragraphs as [|para rest IH]; intros out dbg; simpl.
- now rewrite app_nil_r.
- rewrite IH. now rewrite <- app_assoc.
Qed.

(** C10.  Stage 1 and Stage 2 return a subsequence of their input: the kept
  paragraph objects, unchanged, in their original order.  Stage 3 emits
  one record per survivor, in order; its text is the survivor's text
  without the spaces at its two ends, and its style is the classifier's
  answer for that text. *)
Theorem stages_preserve_paragraphs (paragraphs : list paragraph) (d : debug_info) :
subsequence (fst (stage1_navigation_filter paragraphs d)) paragraphs
/\ subsequence (fst (stage2_metadata_filter paragraphs d)) paragraphs
/\ Forall2
     (fun c para =>
        original_para c = para
        /\ c_text c = Str.strip (para_text para)
        /\ c_style c = _classify_paragraph (c_text c)
        /\ exists a b,
             para_text para = a ++ c_text c ++ b
             /\ forallb Chars.is_space a = true
             /\ forallb Chars.is_space b = true)
     (fst (stage3_classify_content paragraphs d)) paragraphs.
Proof.
split; [|split].
- rewrite stage1_kept. apply filter_subsequence.
- rewrite stage2_kept. apply filter_subsequence.
- unfold stage3_classify_content. cbn [fst]. rewrite classify_loop_out.
  cbn [app]. induction paragraphs as [|para rest IH]; simpl; constructor.
  + cbn [original_para c_text c_style]. repeat split.
    apply strip_decompose.
  + exact IH.
Qed.

(** *** The blank-page rule *)

Lemma stage2_none_no_phrase (raw : text) :
stage2_reason raw = None ->
Str.contains blank_phrase (Str.lower (Str.strip raw)) = false.
Proof.
unfold stage2_reason, blank_phrase. cbv zeta.
destruct (Str.eqb (Str.strip raw) "INTENTIONALLY LEFT BLANK"); [discriminate|].
destruct (Str.contains "intentionally left blank" (Str.lower (Str.strip raw)));
  [discriminate | reflexivity].
Qed.

(** No other rule of Stage 2 is consulted before the two blank-page rules. *)
Lemma stage2_phrase_first (raw : text) :
Str.contains blank_phrase (Str.lower (Str.strip raw)) = true ->
stage2_reason raw = Some "intentionally left blank (exact)"
\/ stage2_reason raw = Some "intentionally left blank (variant)".
Proof.
unfold stage2_reason, blank_phrase. cbv zeta. intros H.
destruct (Str.eqb (Str.strip raw) "INTENTIONALLY LEFT BLANK"); [now left|].
rewrite H. now right.
Qed.

(** C4.  Whatever sequence Stage 2 receives, and so whatever Stage 1 removed
  from it, a paragraph that Stage 2 keeps does not contain the blank-page
  phrase once lower-cased and stripped (in either order); and a text that
  contains it is removed by one of the two blank-page rules, which come
  first in the chain. *)
Theorem blank_page_guarantee
      (paragraphs : list paragraph) (d : debug_info) (p : paragraph) :
In p (fst (stage2_metadata_filter paragraphs d)) ->
Str.contains blank_phrase (Str.lower (Str.strip (para_text p))) = false
/\ Str.contains blank_phrase (Str.strip (Str.lower (para_text p))) = false
/\ (forall raw,
      Str.contains blank_phrase (Str.lower (Str.strip raw)) = true ->
      stage2_reason raw = Some "intentionally left blank (exact)"
      \/ stage2_reason raw = Some "intentionally left blank (variant)").
Proof.
rewrite stage2_kept. intros Hin. apply filter_In in Hin as [_ Hs].
unfold survives in Hs.
destruct (stage2_reason (para_text p)) eqn:E; [discriminate|].
apply stage2_none_no_phrase in E.
rewrite strip_lower. repeat split; try exact E.
apply stage2_phrase_first.
Qed.

Lemma blank_page_guarantee_witness :
In overview (fst (stage2_metadata_filter [blank_page; overview]
                    {| dbg_stage1 := []; dbg_stage2 := []; dbg_stage3 := [] |}))
/\ Str.contains blank_phrase (Str.lower (Str.strip (para_text overview))) = false
/\ fst (stage2_metadata_filter [blank_page; overview]
          {| dbg_stage1 := []; dbg_stage2 := []; dbg_stage3 := [] |})
   = [overview].
Proof.
assert (H : In overview
              (fst (stage2_metadata_filter [blank_page; overview]
                      {| dbg_stage1 := []; dbg_stage2 := []; dbg_stage3 := [] |})))
  by (vm_compute; left; reflexivity).
split; [exact H|]. split.
- exact (proj1 (@blank_page_guarantee [blank_page; overview] _ overview H)).
- vm_compute. reflexivity.
Defined.

(** *** The upper-case heading rule *)

Lemma candidate_scope : heading_candidate short_heading.
Proof.
unfold heading_candidate. cbv zeta. repeat split;
  try (vm_compute; reflexivity).
apply Nat.ltb_lt. vm_compute. reflexivity.
Qed.

Lemma candidate_evacuation : heading_candidate long_heading.
Proof.
unfold heading_candidate. cbv zeta. repeat split;
  try (vm_compute; reflexivity).
apply Nat.ltb_lt. vm_compute. reflexivity.
Qed.

(** C7, as worded, fails: the five-letter heading SCOPE is labelled
  Heading 2 and the 46-letter heading is labelled Heading 1, so the
  shorter text does not get the tier of higher priority. *)
Lemma short_heading_gets_lower_tier : ~ short_heading_outranks_long.
Proof.
intros H.
specialize (H short_heading long_heading candidate_scope candidate_evacuation).
assert (H1 : length (Str.strip short_heading) < 30)
  by (apply Nat.ltb_lt; vm_compute; reflexivity).
assert (H2 : 30 <= length (Str.strip long_heading))
  by (apply Nat.leb_le; vm_compute; reflexivity).
specialize (H H1 H2). vm_compute in H. lia.
Qed.

(** C7, amended.  A text that is shorter than 100 characters, does not end
  in a period, is upper case and matches no list rule is labelled as a
  heading: Heading 2 when it is shorter than 30 characters and Heading 1
  otherwise. *)
Theorem uppercase_heading_tiers (t : text) :
heading_candidate t ->
(length (Str.strip t) < 30 -> _classify_paragraph t = "Heading 2")
/\ (30 <= length (Str.strip t) -> _classify_paragraph t = "Heading 1")
/\ (exists n, heading_tier (_classify_paragraph t) = Some n).
Proof.
unfold heading_candidate. cbv zeta. intros [Hlen [Hend [Hup Hlist]]].
unfold list_rule in Hlist. cbv zeta in Hlist.
apply orb_false_iff in Hlist as [Hlist Hmodal].
apply orb_false_iff in Hlist as [Hpat Himp].
apply Nat.ltb_lt in Hlen.
assert (Hc : _classify_paragraph t =
             if length (Str.strip t) <? 30 then "Heading 2" else "Heading 1").
{ unfold _classify_paragraph. cbv zeta.
  rewrite Hpat, Himp, Hmodal, Hlen, Hend, Hup. reflexivity. }
rewrite Hc. split; [|split].
- intros H. apply Nat.ltb_lt in H. now rewrite H.
- intros H. apply Nat.ltb_ge in H. now rewrite H.
- destruct (length (Str.strip t) <? 30); [exists 2 | exists 1]; reflexivity.
Qed.

Lemma uppercase_heading_tiers_witness :
heading_candidate short_heading
/\ _classify_paragraph short_heading = "Heading 2"
/\ heading_candidate long_heading
/\ _classify_paragraph long_heading = "Heading 1".
Proof.
split; [exact candidate_scope|]. split.
- apply (proj1 (@uppercase_heading_tiers short_heading candidate_scope)).
  apply Nat.ltb_lt. vm_compute. reflexivity.
- split; [exact candidate_evacuation|].
  apply (proj1 (proj2 (@uppercase_heading_tiers long_heading candidate_evacuation))).
  apply Nat.leb_le. vm_compute. reflexivity.
Defined.

End MultiStageFacts.

(** ** The style sheet generator *)

Module SafeFormattingFacts.
Import SafeFormatting StrFacts.

Lemma emitted_properties_allowed (rule : SafeFormattingRule) :
Forall (fun pv => allowed (fst pv) = true) (emitted_properties rule).
Proof.
apply Forall_forall. intros pv H. unfold emitted_properties in H.
now apply filter_In in H as [_ H].
Qed.

(** C8.  The property keys that the style-guide rules contribute all pass
  the allow-list test, for every style guide; yet the style sheet
  generated for the default style guide contains the property
  [content:], which comes from the fixed marker blocks. *)
Theorem generated_css_has_content_property (preserved_mark review_mark : text) :
(forall guide : list (string * SafeFormattingRule),
    Forall (fun entry =>
              Forall (fun pv => allowed (fst pv) = true)
                     (emitted_properties (snd entry)))
           guide)
/\ existsb (String.eqb "content") prohibited_properties = true
/\ Str.contains "content:"
     (Str.lower (_generate_safe_css preserved_mark review_mark default_style_guide))
   = true.
Proof.
split; [|split].
- intros guide. apply Forall_forall. intros entry _.
  apply emitted_properties_allowed.
- reflexivity.
- vm_compute. reflexivity.
Qed.

End SafeFormattingFacts.

(** ** More on fingerprints, zones and the safety report *)

Module ContentPreservationMore.
Import Re ContentPreservation Notions Scenarios StrFacts ReFacts.
Import ContentPreservationFacts.

(** *** De-duplication of the numerical values *)

Lemma seen_iff (x : text) (seen : list text) :
  existsb (Str.eqb x) seen = true <-> In x seen.
Proof.
  rewrite existsb_exists. split.
  - intros [y [Hy He]]. apply eqb_eq in He. now subst.
  - intros H. exists x. split; [exact H | apply eqb_refl].
Qed.

Lemma dedupe_from_iff (xs : list text) :
  forall seen v, In v (dedupe_from seen xs) <-> In v xs /\ ~ In v seen.
Proof.
  induction xs as [|x xs IH]; intros seen v; simpl.
  - tauto.
  - destruct (existsb (Str.eqb x) seen) eqn:E.
    + apply seen_iff in E. rewrite IH. split.
      * intros [H Hn]. auto.
      * intros [[<- | H] Hn]; [contradiction | auto].
    + assert (Hx : ~ In x seen).
      { intros H. apply seen_iff in H. congruence. }
      simpl. rewrite IH. simpl. split.
      * intros [<- | [H Hn]]; [auto|]. split; [auto|]. tauto.
      * intros [[<- | H] Hn]; [auto|].
        destruct (list_eq_dec ascii_dec x v) as [->|Hne]; [auto|].
        right. split; [exact H|]. intros [Heq|Hs]; [now apply Hne | now apply Hn].
Qed.

Lemma dedupe_from_NoDup (xs : list text) :
  forall seen, NoDup (dedupe_from seen xs).
Proof.
  induction xs as [|x xs IH]; intros seen; simpl; [constructor|].
  destruct (existsb (Str.eqb x) seen); [apply IH|].
  constructor; [|apply IH].
  intros H. apply dedupe_from_iff in H as [_ H]. apply H. now left.
Qed.

Lemma dedupe_from_subsequence (xs : list text) :
  forall seen, subsequence (dedupe_from seen xs) xs.
Proof.
  induction xs as [|x xs IH]; intros seen; simpl; [constructor|].
  destruct (existsb (Str.eqb x) seen); constructor; apply IH.
Qed.

(** [dedupe_from] keeps an element exactly when it is not among those seen
    so far: with [pre] the part of the list already scanned, the result is
    the list of first appearances from there on. *)
Lemma dedupe_from_first (pre seen ys xs : list text) :
  xs = pre ++ ys ->
  (forall v, In v seen <-> In v pre) ->
  dedupe_from seen ys
  = map snd
        (filter (fun kx : nat * text =>
                   negb (existsb (Str.eqb (snd kx)) (firstn (fst kx) xs)))
                (combine (seq (length pre) (length ys)) ys)).
Proof.
  revert pre seen. induction ys as [|y ys IH]; intros pre seen Hx Hs;
    [reflexivity|].
  cbn [dedupe_from length seq combine filter fst snd].
  assert (Hf : firstn (length pre) xs = pre).
  { rewrite Hx, firstn_app, Nat.sub_diag, firstn_all. simpl.
    apply app_nil_r. }
  rewrite Hf.
  assert (He : existsb (Str.eqb y) pre = existsb (Str.eqb y) seen).
  { destruct (existsb (Str.eqb y) seen) eqn:E.
    - apply seen_iff. apply Hs. now apply seen_iff.
    - destruct (existsb (Str.eqb y) pre) eqn:E'; [|reflexivity].
      apply seen_iff, Hs, seen_iff in E'. congruence. }
  rewrite He.
  assert (Hx' : xs = (pre ++ [y]) ++ ys) by (now rewrite <- app_assoc).
  assert (Hl : S (length pre) = length (pre ++ [y]))
    by (rewrite length_app; simpl; lia).
  rewrite Hl.
  destruct (existsb (Str.eqb y) seen) eqn:E; cbn [negb map snd].
  - apply IH; [exact Hx'|]. intros v. rewrite in_app_iff, <- Hs. simpl.
    apply seen_iff in E. split; [tauto|].
    intros [H | [<- | []]]; assumption.
  - f_equal. apply IH; [exact Hx'|]. intros v.
    rewrite in_app_iff, <- Hs. simpl. tauto.
Qed.

(** X1.  The numerical values of a fingerprint are pairwise distinct; they
    are exactly the strings [findall] reports for one of the numerical
    patterns on the full text, listed in the order of their first
    appearance. *)
Theorem numerical_values_distinct
        (sha : text -> text) (now : nat) (doc : document) :
  let values := numerical_values (create_content_fingerprint sha now doc) in
  NoDup values
  /\ (forall v, In v values <->
                exists p, In p numerical_values_patterns
                          /\ In v (findall_py p (full_text doc)))
  /\ subsequence values
       (flat_map (fun p => findall_py p (full_text doc)) numerical_values_patterns)
  /\ values
     = first_appearances
         (flat_map (fun p => findall_py p (full_text doc))
                   numerical_values_patterns).
Proof.
  cbn zeta. cbn [numerical_values create_content_fingerprint].
  unfold extract_numerical_values, dedupe. split; [|split; [|split]].
  - apply dedupe_from_NoDup.
  - intros v. rewrite dedupe_from_iff, in_flat_map. simpl. tauto.
  - apply dedupe_from_subsequence.
  - unfold first_appearances.
    apply (dedupe_from_first [] []); [reflexivity | tauto].
Qed.

(** *** Counts of a fingerprint *)

Lemma count_words_app_space (a r : text) (sp : ascii) :
  Chars.is_space sp = true ->
  forall inword,
    Str.count_words_from inword (a ++ sp :: r)
    = Str.count_words_from inword a + Str.count_words r.
Proof.
  intros Hsp. induction a as [|c a IH]; intros inword; simpl.
  - now rewrite Hsp.
  - destruct (Chars.is_space c).
    + apply IH.
    + rewrite IH. lia.
Qed.

Lemma count_words_join (l : list text) :
  Str.count_words (Str.join [Chars.newline] l)
  = list_sum (map Str.count_words l).
Proof.
  induction l as [|p l IH]; [reflexivity|].
  destruct l as [|q l].
  - simpl. lia.
  - change (Str.join [Chars.newline] (p :: q :: l))
      with (p ++ Chars.newline :: Str.join [Chars.newline] (q :: l)).
    unfold Str.count_words at 1.
    rewrite count_words_app_space by reflexivity.
    rewrite IH. reflexivity.
Qed.

Lemma length_join (l : list text) :
  length (Str.join [Chars.newline] l)
  = list_sum (map (@length ascii) l) + pred (length l).
Proof.
  induction l as [|p l IH]; [reflexivity|].
  destruct l as [|q l].
  - simpl. lia.
  - change (Str.join [Chars.newline] (p :: q :: l))
      with (p ++ Chars.newline :: Str.join [Chars.newline] (q :: l)).
    rewrite length_app. cbn [length]. rewrite IH. simpl. lia.
Qed.

(** X2.  The word count of a fingerprint is the sum of the word counts of
    the non-blank paragraphs; its character count is the sum of their
    lengths plus one separator between consecutive paragraphs; and there is
    one paragraph hash per non-blank paragraph. *)
Theorem fingerprint_counts
        (sha : text -> text) (now : nat) (doc : document) :
  let kept := filter has_text (doc_paragraphs doc) in
  let f := create_content_fingerprint sha now doc in
  word_count f = list_sum (map (fun p => Str.count_words (para_text p)) kept)
  /\ character_count f
     = list_sum (map (fun p => length (para_text p)) kept) + pred (length kept)
  /\ length (paragraph_hashes f) = length kept.
Proof.
  cbn zeta.
  cbn [word_count character_count paragraph_hashes create_content_fingerprint].
  unfold full_text. rewrite count_words_join, length_join, !map_map, !length_map.
  auto.
Qed.

(** *** Text added around the original *)

Lemma contains_wrap (v a c b : text) :
  Str.contains v c = true -> Str.contains v (a ++ c ++ b) = true.
Proof.
  rewrite !contains_iff. intros [x [y ->]].
  exists (a ++ x), (y ++ b). now rewrite <- !app_assoc.
Qed.

(** X3.  When the candidate is the full text of the document with any text
    put before and after it (markup, say), the validator still finds every
    numerical value and lists none as missing; the character count matches,
    and the overall verdict can be positive, only if nothing was added. *)
Theorem wrapped_text_keeps_values
        (sha : text -> text) (now : nat) (doc : document) (a b : text) :
  let report :=
    validate_content_integrity sha (create_content_fingerprint sha now doc)
      (a ++ full_text doc ++ b) in
  numerical_values_preserved report = true
  /\ missing_values report = []
  /\ (character_count_match report = true <-> a = [] /\ b = [])
  /\ (overall_valid report = true -> a = [] /\ b = []).
Proof.
  cbn zeta. unfold validate_content_integrity.
  cbn [full_text_hash word_count character_count numerical_values
       create_content_fingerprint overall_valid content_hash_match
       word_count_match character_count_match numerical_values_preserved
       missing_values].
  rewrite check_values_eq. cbn [fst snd].
  assert (Hall : forall v, In v (extract_numerical_values (full_text doc)) ->
                           Str.contains v (a ++ full_text doc ++ b) = true).
  { intros v Hv. apply contains_wrap. now apply extracted_value_occurs. }
  assert (Hlen : (length (a ++ full_text doc ++ b) =? length (full_text doc)) = true
                 <-> a = [] /\ b = []).
  { rewrite Nat.eqb_eq, !length_app. split.
    - intros H. destruct a, b; simpl in H; try lia. auto.
    - intros [-> ->]. simpl. lia. }
  split; [|split; [|split]].
  - apply forallb_forall. exact Hall.
  - apply filter_none. intros v Hv. now rewrite (Hall v Hv).
  - exact Hlen.
  - intros H. apply andb_true_iff in H as [H _].
    apply andb_true_iff in H as [_ H]. now apply Hlen.
Qed.

(** *** Zones and the classifier *)

Lemma assess_unfold (t : text) :
  assess_paragraph_safety t =
  if forallb Chars.is_space t then SAFE_TO_MODIFY
  else match first_hit prohibited_patterns t with
       | Some _ => CONTENT_CRITICAL
       | None =>
           if existsb Chars.is_digit t then REQUIRES_REVIEW
           else SAFE_TO_MODIFY
       end.
Proof.
  unfold assess_paragraph_safety. now rewrite is_empty_strip, search_digits.
Qed.

Lemma has_text_spaces (p : paragraph) :
  has_text p = negb (forallb Chars.is_space (para_text p)).
Proof. unfold has_text. now rewrite is_empty_strip. Qed.

Lemma critical_iff_hit (t : text) :
  assess_paragraph_safety t = CONTENT_CRITICAL <->
  forallb Chars.is_space t = false /\ first_hit prohibited_patterns t <> None.
Proof.
  rewrite assess_unfold.
  destruct (forallb Chars.is_space t).
  - split; [discriminate | intros [H _]; discriminate].
  - destruct (first_hit prohibited_patterns t).
    + split; [intros _; split; [reflexivity | discriminate] | reflexivity].
    + split.
      * destruct (existsb Chars.is_digit t); discriminate.
      * intros [_ H]. now elim H.
Qed.

(** The zone a category contributes for paragraph [i]. *)
Definition zone_of_category (sha : text -> text) (i : nat) (t : text)
           (cat : string * list regex) : list ProhibitedZone :=
  match find (search_icase t) (snd cat) with
  | Some _ =>
      [ {| zone_type := fst cat; start_paragraph := i; end_paragraph := i;
           content_hash := sha t; safety_level := CONTENT_CRITICAL;
           text_sample := firstn 100 t |} ]
  | None => []
  end.

Lemma zones_nil_iff (sha : text -> text) (i : nat) (t : text)
      (cats : list (string * list regex)) :
  flat_map (zone_of_category sha i t) cats = [] <-> first_hit cats t = None.
Proof.
  induction cats as [|[name ps] cats IH]; simpl; [tauto|].
  unfold zone_of_category at 1. cbn [fst snd].
  destruct (find (search_icase t) ps); simpl.
  - split; discriminate.
  - exact IH.
Qed.

Lemma zones_types_in_order (sha : text -> text) (i : nat) (t : text)
      (cats : list (string * list regex)) :
  subsequence (map zone_type (flat_map (zone_of_category sha i t) cats))
              (map fst cats).
Proof.
  induction cats as [|[name ps] cats IH]; simpl; [constructor|].
  unfold zone_of_category at 1. cbn [fst snd].
  destruct (find (search_icase t) ps); simpl; now constructor.
Qed.

Lemma zone_fields (sha : text -> text) (i : nat) (t : text)
      (cats : list (string * list regex)) (z : ProhibitedZone) :
  In z (flat_map (zone_of_category sha i t) cats) ->
  start_paragraph z = i /\ end_paragraph z = i
  /\ content_hash z = sha t /\ text_sample z = firstn 100 t
  /\ In (zone_type z) (map fst cats).
Proof.
  intros H. apply in_flat_map in H as [cat [Hcat H]].
  unfold zone_of_category in H.
  destruct (find (search_icase t) (snd cat)); [|contradiction].
  destruct H as [<- | []]. cbn. repeat split. now apply in_map.
Qed.

Lemma subsequence_length (A : Type) (l1 l2 : list A) :
  subsequence l1 l2 -> length l1 <= length l2.
Proof. induction 1; simpl; lia. Qed.

Lemma zones_one_per_category_len (sha : text -> text) (i : nat) (t : text) :
  length (zones_of_paragraph sha i t) <= 4
  /\ (assess_paragraph_safety t <> CONTENT_CRITICAL ->
      forallb Chars.is_space t = false ->
      zones_of_paragraph sha i t = []).
Proof.
  split.
  - pose proof (zones_types_in_order sha i t prohibited_patterns) as H.
    apply subsequence_length in H. rewrite !length_map in H. exact H.
  - intros Hc Hsp.
    apply (zones_nil_iff sha i t prohibited_patterns).
    destruct (first_hit prohibited_patterns t) eqn:E; [|reflexivity].
    exfalso. apply Hc. apply critical_iff_hit. split; [exact Hsp|]. congruence.
Qed.

Lemma subsequence_In (A : Type) (l1 l2 : list A) (x : A) :
  subsequence l1 l2 -> In x l1 -> In x l2.
Proof. induction 1; simpl; intuition. Qed.

Lemma subsequence_NoDup (A : Type) (l1 l2 : list A) :
  subsequence l1 l2 -> NoDup l2 -> NoDup l1.
Proof.
  induction 1 as [| x l1 l2 H IH | x l1 l2 H IH]; intros Hn.
  - constructor.
  - inversion Hn; subst. constructor; [|auto].
    intros Hin. apply (@subsequence_In _ _ _ x H) in Hin. contradiction.
  - inversion Hn; subst. auto.
Qed.

(** X4.  For one paragraph the scan yields at most one zone per category,
    in the order of the categories: never more than four zones, and no two
    of the same type. *)
Theorem zones_one_per_category (sha : text -> text) (i : nat) (t : text) :
  subsequence (map zone_type (zones_of_paragraph sha i t)) category_order
  /\ NoDup (map zone_type (zones_of_paragraph sha i t))
  /\ length (zones_of_paragraph sha i t) <= 4.
Proof.
  pose proof (zones_types_in_order sha i t prohibited_patterns) as H.
  change (flat_map (zone_of_category sha i t) prohibited_patterns)
    with (zones_of_paragraph sha i t) in H.
  change (map fst prohibited_patterns) with category_order in H.
  split; [exact H|]. split.
  - assert (Hn : NoDup category_order).
    { unfold category_order. repeat constructor; simpl; intuition discriminate. }
    clear - H Hn. induction H.
    + constructor.
    + inversion Hn; subst. constructor; [|auto].
      intros Hin. apply H2. clear - Hin H.
      induction H; simpl in *; [contradiction| |]; intuition.
    + inversion Hn; subst. auto.
  - apply subsequence_length in H. rewrite length_map in H. exact H.
Qed.

(** *** The zones of a document *)

Lemma in_enumerate_from (A : Type) (xs : list A) :
  forall k i x,
    In (i, x) (combine (seq k (length xs)) xs) <->
    k <= i /\ nth_error xs (i - k) = Some x.
Proof.
  induction xs as [|y xs IH]; intros k i x; simpl.
  - split; [contradiction|]. intros [_ H]. destruct (i - k); discriminate.
  - rewrite IH. split.
    + intros [H | [Hk Hn]].
      * injection H as <- <-. split; [lia|]. now rewrite Nat.sub_diag.
      * split; [lia|]. replace (i - k) with (S (i - S k)) by lia. exact Hn.
    + intros [Hk Hn]. destruct (i - k) as [|m] eqn:E.
      * left. injection Hn as <-. f_equal. lia.
      * right. split; [lia|]. replace (i - S k) with m by lia. exact Hn.
Qed.

Lemma in_enumerate (A : Type) (xs : list A) (i : nat) (x : A) :
  In (i, x) (enumerate xs) <-> nth_error xs i = Some x.
Proof.
  unfold enumerate. rewrite in_enumerate_from, Nat.sub_0_r.
  split; [tauto | intros H; split; [lia | exact H]].
Qed.

Lemma in_zones (sha : text -> text) (doc : document) (z : ProhibitedZone) :
  In z (identify_prohibited_zones sha doc) <->
  exists i p, nth_error (doc_paragraphs doc) i = Some p
              /\ has_text p = true
              /\ In z (zones_of_paragraph sha i (para_text p)).
Proof.
  unfold identify_prohibited_zones. rewrite in_flat_map. split.
  - intros [[i p] [Hin H]]. cbn [fst snd] in H. apply in_enumerate in Hin.
    exists i, p. destruct (has_text p); [auto | contradiction].
  - intros [i [p [Hn [Ht H]]]]. exists (i, p). cbn [fst snd].
    rewrite Ht. split; [now apply in_enumerate | exact H].
Qed.

Lemma StronglySorted_app (l1 l2 : list nat) :
  StronglySorted le l1 -> StronglySorted le l2 ->
  (forall x y, In x l1 -> In y l2 -> x <= y) ->
  StronglySorted le (l1 ++ l2).
Proof.
  induction 1 as [|x l1 Hs IH Hx]; intros H2 Hle; simpl; [exact H2|].
  constructor.
  - apply IH; [exact H2|]. intros a b Ha Hb. apply Hle; [now right | exact Hb].
  - apply Forall_app. split; [exact Hx|].
    apply Forall_forall. intros y Hy. apply Hle; [now left | exact Hy].
Qed.

Lemma StronglySorted_const (k : nat) (l : list nat) :
  (forall x, In x l -> x = k) -> StronglySorted le l.
Proof.
  induction l as [|x l IH]; intros H; constructor.
  - apply IH. intros y Hy. apply H. now right.
  - apply Forall_forall. intros y Hy.
    rewrite (H x (or_introl eq_refl)), (H y (or_intror Hy)). lia.
Qed.

Lemma zones_from_sorted (sha : text -> text) (ps : list paragraph) :
  forall k,
    let zones :=
      flat_map
        (fun ip : nat * paragraph =>
           if has_text (snd ip)
           then zones_of_paragraph sha (fst ip) (para_text (snd ip))
           else [])
        (combine (seq k (length ps)) ps) in
    StronglySorted le (map start_paragraph zones)
    /\ forall z, In z zones -> k <= start_paragraph z.
Proof.
  induction ps as [|p ps IH]; intros k; cbn zeta; simpl.
  - split; [constructor | contradiction].
  - destruct (IH (S k)) as [Hs Hk]. cbn zeta in Hs, Hk.
    assert (Hp : forall z,
               In z (if has_text p
                     then zones_of_paragraph sha k (para_text p) else []) ->
               start_paragraph z = k).
    { intros z Hz. destruct (has_text p); [|contradiction].
      now apply (zone_fields sha k (para_text p) prohibited_patterns z). }
    split.
    + rewrite map_app. apply StronglySorted_app.
      * apply StronglySorted_const with (k := k). intros x Hx.
        apply in_map_iff in Hx as [z [<- Hz]]. now apply Hp.
      * exact Hs.
      * intros x y Hx Hy.
        apply in_map_iff in Hx as [z [<- Hz]].
        apply in_map_iff in Hy as [z' [<- Hz']].
        rewrite (Hp z Hz). specialize (Hk z' Hz'). lia.
    + intros z Hz. apply in_app_or in Hz as [Hz|Hz].
      * rewrite (Hp z Hz). lia.
      * specialize (Hk z Hz). lia.
Qed.

(** *** The zones of one paragraph of a document *)

Lemma filter_all (A : Type) (p : A -> bool) (l : list A) :
  (forall x, In x l -> p x = true) -> filter p l = l.
Proof.
  induction l as [|x l IH]; simpl; intros H; [reflexivity|].
  rewrite (H x (or_introl eq_refl)). f_equal. apply IH.
  intros y Hy. apply H. now right.
Qed.

Lemma zones_at_own (sha : text -> text) (i k : nat) (t : text) :
  zones_at i (zones_of_paragraph sha k t)
  = if k =? i then zones_of_paragraph sha k t else [].
Proof.
  unfold zones_at. destruct (k =? i) eqn:E.
  - apply filter_all. intros z Hz.
    apply (zone_fields sha k t prohibited_patterns z) in Hz as [-> _].
    exact E.
  - apply ContentPreservationFacts.filter_none. intros z Hz.
    apply (zone_fields sha k t prohibited_patterns z) in Hz as [-> _].
    exact E.
Qed.

Lemma zones_at_from (sha : text -> text) (i : nat) (ps : list paragraph) :
  forall k,
    zones_at i
      (flat_map
         (fun ip : nat * paragraph =>
            if has_text (snd ip)
            then zones_of_paragraph sha (fst ip) (para_text (snd ip))
            else [])
         (combine (seq k (length ps)) ps))
    = if i <? k then []
      else match nth_error ps (i - k) with
           | Some p =>
               if has_text p then zones_of_paragraph sha i (para_text p)
               else []
           | None => []
           end.
Proof.
  induction ps as [|p ps IH]; intros k.
  - simpl. destruct (i <? k); [reflexivity|]. now destruct (i - k).
  - cbn [length seq combine flat_map fst snd]. unfold zones_at in *.
    rewrite filter_app, IH.
    assert (Hp : filter (fun z => start_paragraph z =? i)
                        (if has_text p
                         then zones_of_paragraph sha k (para_text p) else [])
                 = if k =? i
                   then (if has_text p
                         then zones_of_paragraph sha k (para_text p) else [])
                   else []).
    { destruct (has_text p); [apply zones_at_own|]. now destruct (k =? i). }
    rewrite Hp. clear Hp.
    destruct (Nat.lt_trichotomy i k) as [Hlt | [Heq | Hgt]].
    + assert (E1 : (k =? i) = false) by (apply Nat.eqb_neq; lia).
      assert (E2 : (i <? S k) = true) by (apply Nat.ltb_lt; lia).
      assert (E3 : (i <? k) = true) by (apply Nat.ltb_lt; lia).
      now rewrite E1, E2, E3.
    + subst k.
      assert (E2 : (i <? S i) = true) by (apply Nat.ltb_lt; lia).
      rewrite Nat.eqb_refl, E2, Nat.ltb_irrefl, Nat.sub_diag, app_nil_r.
      reflexivity.
    + assert (E1 : (k =? i) = false) by (apply Nat.eqb_neq; lia).
      assert (E2 : (i <? S k) = false) by (apply Nat.ltb_ge; lia).
      assert (E3 : (i <? k) = false) by (apply Nat.ltb_ge; lia).
      rewrite E1, E2, E3. replace (i - k) with (S (i - S k)) by lia.
      reflexivity.
Qed.

(** The zones of paragraph [i] are those its own scan contributes. *)
Lemma zones_at_paragraph (sha : text -> text) (doc : document) (i : nat) :
  zones_at i (identify_prohibited_zones sha doc)
  = match nth_error (doc_paragraphs doc) i with
    | Some p =>
        if has_text p then zones_of_paragraph sha i (para_text p) else []
    | None => []
    end.
Proof.
  unfold identify_prohibited_zones, enumerate.
  rewrite (zones_at_from sha i (doc_paragraphs doc) 0).
  now rewrite Nat.sub_0_r.
Qed.

Lemma find_existsb (A : Type) (f : A -> bool) (l : list A) :
  existsb f l = match find f l with Some _ => true | None => false end.
Proof.
  induction l as [|x l IH]; simpl; [reflexivity|].
  now destruct (f x).
Qed.

(** The types of the zones of one paragraph: the names of the categories
    that have a matching pattern. *)
Lemma zone_types_matching (sha : text -> text) (i : nat) (t : text)
      (cats : list (string * list regex)) :
  map zone_type (flat_map (zone_of_category sha i t) cats)
  = map fst (filter (fun cat => existsb (search_icase t) (snd cat)) cats).
Proof.
  induction cats as [|[name ps] cats IH]; simpl; [reflexivity|].
  unfold zone_of_category at 1. cbn [fst snd].
  rewrite find_existsb.
  destruct (find (search_icase t) ps); simpl; now rewrite IH.
Qed.

Lemma subsequence_filter (A : Type) (f : A -> bool) (l : list A) :
  subsequence (filter f l) l.
Proof.
  induction l as [|x l IH]; simpl; [constructor|].
  destruct (f x); now constructor.
Qed.

Lemma subsequence_nil (A : Type) (l : list A) : subsequence [] l.
Proof. induction l; now constructor. Qed.

Lemma subsequence_map (A B : Type) (g : A -> B) (l1 l2 : list A) :
  subsequence l1 l2 -> subsequence (map g l1) (map g l2).
Proof. induction 1; simpl; now constructor. Qed.

(** C6, as worded, fails: the paragraph of the first end-to-end scenario,
    Step 1: Turn off the main power switch., has three zones, one each for
    the procedural, the technical and the numerical category.  The [break]
    leaves the loop over the patterns of one category only. *)
Lemma power_switch_paragraph_has_three_zones : ~ one_zone_per_paragraph.
Proof.
  intros H. specialize (H (fun t => t) power_switch_document 0).
  vm_compute in H. lia.
Qed.

(** C6, amended.  Every zone the scan returns is CRITICAL.  A paragraph
    yields one zone for every category that has a pattern matching its
    text, in the order of the categories, and none when it is blank: at
    most one zone per category and at most four in all, the union of the
    matching categories and not the first of them alone.  The paragraph of
    the first end-to-end scenario yields three. *)
Theorem zones_one_per_matching_category (sha : text -> text) (doc : document) :
  Forall (fun z => safety_level z = CONTENT_CRITICAL)
         (identify_prohibited_zones sha doc)
  /\ (forall i,
        let zones := zones_at i (identify_prohibited_zones sha doc) in
        map zone_type zones
        = match nth_error (doc_paragraphs doc) i with
          | Some p =>
              if forallb Chars.is_space (para_text p) then []
              else map fst
                     (filter (fun cat =>
                                existsb (search_icase (para_text p)) (snd cat))
                             prohibited_patterns)
          | None => []
          end
        /\ subsequence (map zone_type zones) category_order
        /\ NoDup (map zone_type zones)
        /\ length zones <= 4)
  /\ map zone_type
         (zones_at 0 (identify_prohibited_zones sha power_switch_document))
     = [ "procedural_language"; "technical_terms"; "numerical_values" ].
Proof.
  split; [apply ContentPreservationFacts.zones_all_critical|].
  split; [|vm_compute; reflexivity].
  intros i. cbn zeta.
  assert (Heq : map zone_type (zones_at i (identify_prohibited_zones sha doc))
                = match nth_error (doc_paragraphs doc) i with
                  | Some p =>
                      if forallb Chars.is_space (para_text p) then []
                      else map fst
                             (filter
                                (fun cat =>
                                   existsb (search_icase (para_text p)) (snd cat))
                                prohibited_patterns)
                  | None => []
                  end).
  { rewrite zones_at_paragraph.
    destruct (nth_error (doc_paragraphs doc) i) as [p|]; [|reflexivity].
    rewrite has_text_spaces.
    destruct (forallb Chars.is_space (para_text p)); [reflexivity|].
    apply (zone_types_matching sha i (para_text p) prohibited_patterns). }
  assert (Hsub : subsequence
                   (map zone_type
                        (zones_at i (identify_prohibited_zones sha doc)))
                   category_order).
  { rewrite Heq.
    destruct (nth_error (doc_paragraphs doc) i) as [p|];
      [|apply subsequence_nil].
    destruct (forallb Chars.is_space (para_text p)); [apply subsequence_nil|].
    change category_order with (map fst prohibited_patterns).
    apply subsequence_map, subsequence_filter. }
  split; [exact Heq|]. split; [exact Hsub|]. split.
  - apply (subsequence_NoDup Hsub).
    unfold category_order. repeat constructor; simpl; intuition discriminate.
  - apply subsequence_length in Hsub. rewrite length_map in Hsub.
    exact Hsub.
Qed.

(** X5.  Every zone of a document points at one of its non-blank
    paragraphs, which the classifier rates CRITICAL: start and end are the
    paragraph's index, the hash is that of its text, the sample is the first
    100 characters of the text, and the type is one of the four category
    names.  The zones come in document order. *)
Theorem zones_describe_paragraphs (sha : text -> text) (doc : document) :
  Forall
    (fun z =>
       exists p,
         nth_error (doc_paragraphs doc) (start_paragraph z) = Some p
         /\ has_text p = true
         /\ assess_paragraph_safety (para_text p) = CONTENT_CRITICAL
         /\ end_paragraph z = start_paragraph z
         /\ content_hash z = sha (para_text p)
         /\ text_sample z = firstn 100 (para_text p)
         /\ length (text_sample z) <= 100
         /\ In (zone_type z) category_order)
    (identify_prohibited_zones sha doc)
  /\ StronglySorted le (map start_paragraph (identify_prohibited_zones sha doc)).
Proof.
  split.
  - apply Forall_forall. intros z Hz.
    apply in_zones in Hz as [i [p [Hn [Ht Hz]]]].
    pose proof (zone_fields sha i (para_text p) prohibited_patterns z Hz)
      as [Hs [He [Hh [Hx Hty]]]].
    exists p. rewrite Hs, He, Hh, Hx. repeat split; auto.
    + apply critical_iff_hit. split.
      * rewrite has_text_spaces in Ht. now apply negb_true_iff in Ht.
      * intros Hnone.
        apply (zones_nil_iff sha i (para_text p) prohibited_patterns) in Hnone.
        unfold zones_of_paragraph in Hz.
        change (flat_map (zone_of_category sha i (para_text p)) prohibited_patterns)
          with (zones_of_paragraph sha i (para_text p)) in Hnone.
        unfold zones_of_paragraph in Hnone. rewrite Hnone in Hz. contradiction.
    + apply firstn_le_length.
  - apply (zones_from_sorted sha (doc_paragraphs doc) 0).
Qed.

(** X6.  A paragraph of the document has a zone exactly when the classifier
    rates its text CRITICAL: the scan and the classifier never disagree. *)
Theorem zone_iff_critical
        (sha : text -> text) (doc : document) (i : nat) (p : paragraph) :
  nth_error (doc_paragraphs doc) i = Some p ->
  (exists z, In z (identify_prohibited_zones sha doc) /\ start_paragraph z = i)
  <-> assess_paragraph_safety (para_text p) = CONTENT_CRITICAL.
Proof.
  intros Hn. split.
  - intros [z [Hz Hs]]. apply in_zones in Hz as [j [q [Hq [Ht Hz]]]].
    pose proof (zone_fields sha j (para_text q) prohibited_patterns z Hz)
      as [Hj _].
    assert (j = i) by congruence. subst j.
    assert (q = p) by congruence. subst q.
    apply critical_iff_hit. split.
    + rewrite has_text_spaces in Ht. now apply negb_true_iff in Ht.
    + intros Hnone.
      apply (zones_nil_iff sha i (para_text p) prohibited_patterns) in Hnone.
      change (flat_map (zone_of_category sha i (para_text p)) prohibited_patterns)
        with (zones_of_paragraph sha i (para_text p)) in Hnone.
      rewrite <- Hs in Hnone. rewrite Hnone in Hz. contradiction.
  - intros Hc. apply critical_iff_hit in Hc as [Hsp Hhit].
    destruct (zones_of_paragraph sha i (para_text p)) as [|z zs] eqn:E.
    + exfalso. apply Hhit.
      now apply (zones_nil_iff sha i (para_text p) prohibited_patterns).
    + exists z. split.
      * apply in_zones. exists i, p. rewrite E, has_text_spaces, Hsp.
        repeat split; [exact Hn | now left].
      * apply (zone_fields sha i (para_text p) prohibited_patterns z).
        change (flat_map (zone_of_category sha i (para_text p)) prohibited_patterns)
          with (zones_of_paragraph sha i (para_text p)).
        rewrite E. now left.
Qed.

Lemma zone_iff_critical_witness :
  nth_error (doc_paragraphs power_switch_document) 0
  = Some {| para_id := 0;
            para_text := "Step 1: Turn off the main power switch.";
            style_name := "Normal" |}
  /\ ((exists z, In z (identify_prohibited_zones (fun t => t) power_switch_document)
                 /\ start_paragraph z = 0)
      <-> assess_paragraph_safety
            (text_of "Step 1: Turn off the main power switch.")
          = CONTENT_CRITICAL).
Proof.
  split; [reflexivity|].
  exact (@zone_iff_critical (fun t => t) power_switch_document 0 _ eq_refl).
Defined.

(** *** The counts of the safety report *)

Definition is_critical (p : paragraph) : bool :=
  has_text p &&
  match assess_paragraph_safety (para_text p) with
  | CONTENT_CRITICAL => true
  | _ => false
  end.

Lemma count_fold (ps : list paragraph) :
  forall acc,
    let r := fold_left count_paragraph ps acc in
    total_paragraphs r = total_paragraphs acc + length (filter has_text ps)
    /\ safe_to_modify r + requires_review r + content_critical r
       = safe_to_modify acc + requires_review acc + content_critical acc
         + length (filter has_text ps)
    /\ content_critical r
       = content_critical acc + length (filter is_critical ps).
Proof.
  induction ps as [|p ps IH]; intros acc; cbn zeta; simpl.
  - lia.
  - destruct (IH (count_paragraph acc p)) as [H1 [H2 H3]]. cbn zeta in H1, H2, H3.
    rewrite H1, H2, H3. clear H1 H2 H3.
    unfold count_paragraph, is_critical.
    destruct (has_text p); simpl; [|lia].
    destruct (assess_paragraph_safety (para_text p)); simpl; lia.
Qed.

Lemma zones_count_one (sha : text -> text) (k : nat) (p : paragraph) :
  let n := length (if has_text p
                   then zones_of_paragraph sha k (para_text p) else []) in
  (if is_critical p then 1 else 0) <= n
  /\ n <= 4 * (if is_critical p then 1 else 0).
Proof.
  cbn zeta. unfold is_critical.
  destruct (has_text p) eqn:Ht; simpl; [|lia].
  destruct (zones_one_per_category_len sha k (para_text p)) as [Hle Hnil].
  rewrite has_text_spaces in Ht. apply negb_true_iff in Ht.
  destruct (assess_paragraph_safety (para_text p)) eqn:A.
  - rewrite Hnil by (congruence || exact Ht). simpl. lia.
  - assert (Hne : zones_of_paragraph sha k (para_text p) <> []).
    { intros Hz.
      apply (zones_nil_iff sha k (para_text p) prohibited_patterns) in Hz.
      apply critical_iff_hit in A as [_ A]. now apply A. }
    destruct (zones_of_paragraph sha k (para_text p)); [congruence|].
    simpl in *. lia.
  - rewrite Hnil by (congruence || exact Ht). simpl. lia.
Qed.

Lemma zones_count_from (sha : text -> text) (ps : list paragraph) :
  forall k,
    let n :=
      length
        (flat_map
           (fun ip : nat * paragraph =>
              if has_text (snd ip)
              then zones_of_paragraph sha (fst ip) (para_text (snd ip))
              else [])
           (combine (seq k (length ps)) ps)) in
    length (filter is_critical ps) <= n <= 4 * length (filter is_critical ps).
Proof.
  induction ps as [|p ps IH]; intros k; cbn zeta; simpl; [lia|].
  specialize (IH (S k)). cbn zeta in IH. rewrite length_app.
  pose proof (zones_count_one sha k p) as Hp. cbn zeta in Hp.
  destruct (is_critical p); simpl in *; lia.
Qed.

(** X7.  In the safety report the three counts of the breakdown add up to
    the total, which is the number of non-blank paragraphs; and the number
    of prohibited zones lies between the number of CRITICAL paragraphs and
    four times that number. *)
Theorem safety_report_counts (sha : text -> text) (doc : document) :
  let c := count_safety_levels doc in
  safe_to_modify c + requires_review c + content_critical c = total_paragraphs c
  /\ total_paragraphs c = length (filter has_text (doc_paragraphs doc))
  /\ content_critical c <= prohibited_zones_count sha doc
     <= 4 * content_critical c.
Proof.
  cbn zeta. unfold count_safety_levels.
  destruct (count_fold (doc_paragraphs doc)
              {| safe_to_modify := 0; requires_review := 0;
                 content_critical := 0; total_paragraphs := 0 |})
    as [H1 [H2 H3]].
  cbn zeta in H1, H2, H3. cbn [safe_to_modify requires_review content_critical
                               total_paragraphs] in H1, H2, H3.
  rewrite H1, H2, H3. simpl.
  pose proof (zones_count_from sha (doc_paragraphs doc) 0) as Hz.
  cbn zeta in Hz. unfold prohibited_zones_count, identify_prohibited_zones,
                  enumerate.
  lia.
Qed.

(** *** Digits *)

Lemma digit_not_space (c : ascii) :
  Chars.is_digit c = true -> Chars.is_space c = false.
Proof.
  destruct c as [[] [] [] [] [] [] [] []]; intros H;
    try reflexivity; discriminate H.
Qed.

Lemma digit_not_blank (t : text) :
  existsb Chars.is_digit t = true -> forallb Chars.is_space t = false.
Proof.
  intros H. apply existsb_exists in H as [c [Hin Hc]].
  destruct (forallb Chars.is_space t) eqn:E; [|reflexivity].
  rewrite forallb_forall in E. specialize (E c Hin).
  apply digit_not_space in Hc. congruence.
Qed.

(** X8.  A text with a digit is never rated SAFE: it is CRITICAL when some
    pattern is found in it and REVIEW otherwise. *)
Theorem digit_text_never_safe (t : text) :
  existsb Chars.is_digit t = true ->
  assess_paragraph_safety t <> SAFE_TO_MODIFY
  /\ (assess_paragraph_safety t = REQUIRES_REVIEW
      <-> first_hit prohibited_patterns t = None)
  /\ (assess_paragraph_safety t = CONTENT_CRITICAL
      <-> first_hit prohibited_patterns t <> None).
Proof.
  intros Hd. rewrite assess_unfold, (digit_not_blank t Hd), Hd.
  destruct (first_hit prohibited_patterns t); repeat split;
    try discriminate; try reflexivity; intros H; try discriminate H;
    now elim H.
Qed.

Lemma digit_text_never_safe_witness :
  existsb Chars.is_digit (text_of "1234") = true
  /\ assess_paragraph_safety (text_of "1234") <> SAFE_TO_MODIFY.
Proof.
  assert (H : existsb Chars.is_digit (text_of "1234") = true) by reflexivity.
  split; [exact H|].
  exact (proj1 (@digit_text_never_safe (text_of "1234") H)).
Defined.

(** *** Documents without text *)

Lemma flat_map_all_nil (A B : Type) (f : A -> list B) (l : list A) :
  (forall x, In x l -> f x = []) -> flat_map f l = [].
Proof.
  induction l as [|x l IH]; simpl; intros H; [reflexivity|].
  rewrite (H x (or_introl eq_refl)). apply IH. intros y Hy. apply H. now right.
Qed.

(** X9.  For a document whose paragraphs are all blank the fingerprint is
    that of the empty text (no paragraph hash, zero words and characters,
    no numerical value), no zone is reported, the report counts no
    paragraph, and the validator accepts the empty text. *)
Theorem blank_document_fingerprint
        (sha : text -> text) (now : nat) (doc : document) :
  Forall (fun p => has_text p = false) (doc_paragraphs doc) ->
  let f := create_content_fingerprint sha now doc in
  full_text doc = []
  /\ full_text_hash f = sha []
  /\ paragraph_hashes f = []
  /\ word_count f = 0 /\ character_count f = 0
  /\ numerical_values f = []
  /\ identify_prohibited_zones sha doc = []
  /\ total_paragraphs (count_safety_levels doc) = 0
  /\ overall_valid (validate_content_integrity sha f []) = true.
Proof.
  intros Hb. cbn zeta. rewrite Forall_forall in Hb.
  assert (Hk : filter has_text (doc_paragraphs doc) = [])
    by (apply filter_none; exact Hb).
  assert (Hft : full_text doc = []) by (unfold full_text; now rewrite Hk).
  assert (Hz : identify_prohibited_zones sha doc = []).
  { unfold identify_prohibited_zones. apply flat_map_all_nil.
    intros [i p] Hin. cbn [fst snd]. apply in_combine_r in Hin.
    now rewrite (Hb p Hin). }
  assert (Hc : total_paragraphs (count_safety_levels doc) = 0).
  { unfold count_safety_levels.
    destruct (count_fold (doc_paragraphs doc)
                {| safe_to_modify := 0; requires_review := 0;
                   content_critical := 0; total_paragraphs := 0 |})
      as [H1 _].
    cbn zeta in H1. rewrite H1, Hk. reflexivity. }
  unfold validate_content_integrity, create_content_fingerprint.
  cbn [full_text_hash paragraph_hashes word_count character_count
       numerical_values overall_valid].
  rewrite Hft, Hk, eqb_refl.
  repeat split; try reflexivity; assumption.
Qed.

Lemma blank_document_fingerprint_witness :
  Forall (fun p => has_text p = false) (doc_paragraphs blank_document)
  /\ full_text blank_document = []
  /\ word_count (create_content_fingerprint (fun t => t) 5 blank_document) = 0.
Proof.
  assert (H : Forall (fun p => has_text p = false) (doc_paragraphs blank_document))
    by (repeat constructor).
  split; [exact H|].
  pose proof (@blank_document_fingerprint (fun t => t) 5 blank_document H) as R.
  cbn zeta in R. split; [exact (proj1 R)|].
  exact (proj1 (proj2 (proj2 (proj2 R)))).
Defined.

End ContentPreservationMore.

(** ** More on the filter pipeline *)

Module MultiStageMore.
Import Re MultiStage Notions Scenarios StrFacts MultiStageFacts.

(** *** Every paragraph is kept or recorded *)

(** The diagnostics a filter stage adds: one entry per removed paragraph. *)
Definition removed_entries (reason_of : text -> option string)
           (paragraphs : list paragraph) : list text :=
  flat_map
    (fun para =>
       match reason_of (para_text para) with
       | Some reason => [filtered_entry (Str.strip (para_text para)) reason]
       | None => []
       end)
    paragraphs.

Lemma filter_loop_dbg (reason_of : text -> option string)
      (paragraphs : list paragraph) :
  forall kept dbg,
    snd (filter_loop reason_of paragraphs kept dbg)
    = dbg ++ removed_entries reason_of paragraphs.
Proof.
  induction paragraphs as [|para rest IH]; intros kept dbg; simpl.
  - now rewrite app_nil_r.
  - destruct (reason_of (para_text para)); rewrite IH; simpl.
    + now rewrite <- app_assoc.
    + reflexivity.
Qed.

Lemma kept_plus_removed (reason_of : text -> option string)
      (paragraphs : list paragraph) :
  length (filter (survives reason_of) paragraphs)
  + length (removed_entries reason_of paragraphs)
  = length paragraphs.
Proof.
  induction paragraphs as [|para rest IH]; simpl; [reflexivity|].
  unfold survives at 1. rewrite length_app.
  destruct (reason_of (para_text para)); simpl; lia.
Qed.

Lemma classify_loop_dbg (paragraphs : list paragraph) :
  forall out dbg,
    snd (classify_loop paragraphs out dbg)
    = dbg ++ map (fun para =>
                    classified_entry (Str.strip (para_text para))
                      (_classify_paragraph (Str.strip (para_text para))))
                 paragraphs.
Proof.
  induction paragraphs as [|para rest IH]; intros out dbg; simpl.
  - now rewrite app_nil_r.
  - rewrite IH. now rewrite <- app_assoc.
Qed.

(** X10.  A filter stage accounts for every paragraph it receives: the
    paragraph is kept, or one diagnostic entry is appended for it to the
    stage's own list; earlier entries stay and the lists of the other
    stages are untouched.  Stage 3 appends one entry per paragraph and
    returns as many records. *)
Theorem stages_account_for_paragraphs
        (paragraphs : list paragraph) (d : debug_info) :
  let r1 := stage1_navigation_filter paragraphs d in
  let r2 := stage2_metadata_filter paragraphs d in
  let r3 := stage3_classify_content paragraphs d in
  (exists added,
      dbg_stage1 (snd r1) = dbg_stage1 d ++ added
      /\ length (fst r1) + length added = length paragraphs)
  /\ dbg_stage2 (snd r1) = dbg_stage2 d /\ dbg_stage3 (snd r1) = dbg_stage3 d
  /\ (exists added,
         dbg_stage2 (snd r2) = dbg_stage2 d ++ added
         /\ length (fst r2) + length added = length paragraphs)
  /\ dbg_stage1 (snd r2) = dbg_stage1 d /\ dbg_stage3 (snd r2) = dbg_stage3 d
  /\ (exists added,
         dbg_stage3 (snd r3) = dbg_stage3 d ++ added
         /\ length added = length paragraphs
         /\ length (fst r3) = length paragraphs)
  /\ dbg_stage1 (snd r3) = dbg_stage1 d /\ dbg_stage2 (snd r3) = dbg_stage2 d.
Proof.
  cbn zeta. repeat split.
  - exists (removed_entries stage1_reason paragraphs).
    rewrite stage1_kept. unfold stage1_navigation_filter.
    cbn [snd dbg_stage1]. rewrite filter_loop_dbg.
    split; [reflexivity | apply kept_plus_removed].
  - exists (removed_entries stage2_reason paragraphs).
    rewrite stage2_kept. unfold stage2_metadata_filter.
    cbn [snd dbg_stage2]. rewrite filter_loop_dbg.
    split; [reflexivity | apply kept_plus_removed].
  - eexists. unfold stage3_classify_content. cbn [fst snd dbg_stage3].
    rewrite classify_loop_dbg, classify_loop_out. cbn [app].
    split; [reflexivity|]. now rewrite !length_map.
Qed.

(** *** The two filter stages as filters *)

Lemma filter_idem (A : Type) (p : A -> bool) (l : list A) :
  filter p (filter p l) = filter p l.
Proof.
  induction l as [|x l IH]; simpl; [reflexivity|].
  destruct (p x) eqn:E; simpl; [rewrite E; f_equal|]; exact IH.
Qed.

Lemma filter_comm (A : Type) (p q : A -> bool) (l : list A) :
  filter p (filter q l) = filter q (filter p l).
Proof.
  induction l as [|x l IH]; simpl; [reflexivity|].
  destruct (p x) eqn:P, (q x) eqn:Q; simpl; rewrite ?P, ?Q, IH; reflexivity.
Qed.

Lemma removed_none (reason_of : text -> option string)
      (paragraphs : list paragraph) :
  removed_entries reason_of (filter (survives reason_of) paragraphs) = [].
Proof.
  induction paragraphs as [|para rest IH]; simpl; [reflexivity|].
  unfold survives at 1.
  destruct (reason_of (para_text para)) eqn:E; simpl; [exact IH|].
  now rewrite E.
Qed.

(** X11.  Running a filter stage on its own output removes nothing more and
    records nothing; and the paragraphs that survive both filter stages are
    the same whichever of the two runs first. *)
Theorem filter_stages_compose
        (paragraphs : list paragraph) (d d' : debug_info) :
  stage1_navigation_filter (fst (stage1_navigation_filter paragraphs d)) d'
  = (fst (stage1_navigation_filter paragraphs d), d')
  /\ stage2_metadata_filter (fst (stage2_metadata_filter paragraphs d)) d'
     = (fst (stage2_metadata_filter paragraphs d), d')
  /\ fst (stage2_metadata_filter (fst (stage1_navigation_filter paragraphs d)) d')
     = fst (stage1_navigation_filter (fst (stage2_metadata_filter paragraphs d)) d').
Proof.
  split; [|split].
  - rewrite (surjective_pairing (stage1_navigation_filter _ d')).
    rewrite !stage1_kept, filter_idem. f_equal.
    unfold stage1_navigation_filter. cbn [snd].
    rewrite filter_loop_dbg, removed_none, app_nil_r. now destruct d'.
  - rewrite (surjective_pairing (stage2_metadata_filter _ d')).
    rewrite !stage2_kept, filter_idem. f_equal.
    unfold stage2_metadata_filter. cbn [snd].
    rewrite filter_loop_dbg, removed_none, app_nil_r. now destruct d'.
  - rewrite !stage1_kept, !stage2_kept. apply filter_comm.
Qed.

(** *** Rules that never fire *)

(** X12.  Two rules of the chains are dead: every text the rule "master
    table of contents" of Stage 1 tests for is already removed by the rule
    "table of contents variant", and the rule "this page intentionally left
    blank" of Stage 2 is shadowed by the variant rule before it. *)
Theorem shadowed_rules_never_fire (t : text) :
  stage1_reason t <> Some "master table of contents"
  /\ stage2_reason t <> Some "this page intentionally left blank"
  /\ stage1_reason "MASTER TABLE OF CONTENTS" = Some "table of contents variant".
Proof.
  split; [|split].
  - unfold stage1_reason. cbv zeta.
    destruct (length (Str.strip t) <? 3); [discriminate|].
    destruct (Str.eqb (Str.strip t) "TABLE OF CONTENTS"); [discriminate|].
    destruct (Str.contains "table of contents" (Str.lower (Str.strip t))) eqn:C;
      [discriminate|].
    destruct (Str.eqb (Str.strip t) "MASTER TABLE OF CONTENTS") eqn:E.
    + apply eqb_eq in E. rewrite E in C. vm_compute in C. discriminate.
    + repeat (match goal with
              | |- context [if ?c then _ else _] => destruct c
              end; try discriminate).
  - unfold stage2_reason. cbv zeta.
    destruct (Str.eqb (Str.strip t) "INTENTIONALLY LEFT BLANK"); [discriminate|].
    destruct (Str.contains "intentionally left blank" (Str.lower (Str.strip t)))
      eqn:C; [discriminate|].
    destruct (Str.contains "this page intentionally left blank"
                (Str.lower (Str.strip t))) eqn:E.
    + exfalso. apply contains_iff in E as [a [b E]].
      assert (H : Str.contains "intentionally left blank"
                    (Str.lower (Str.strip t)) = true).
      { apply contains_iff. exists (a ++ text_of "this page "), b.
        rewrite E. rewrite <- !app_assoc. reflexivity. }
      congruence.
    + repeat (match goal with
              | |- context [if ?c then _ else _] => destruct c
              end; try discriminate).
  - vm_compute. reflexivity.
Qed.

(** *** Labels *)

(** X13.  The classifier answers with one of six labels; it answers with a
    heading label only for a text that, once stripped, is shorter than 100
    characters, does not end in a period, matches no list rule and is upper
    case or title case. *)
Theorem heading_labels_need_short_lines (t : text) :
  In (_classify_paragraph t)
     [ "List Paragraph"; "Heading 1"; "Heading 2"; "Heading 3"; "Normal";
       "Body Text" ]
  /\ (In (_classify_paragraph t) [ "Heading 1"; "Heading 2"; "Heading 3" ] ->
      length (Str.strip t) < 100
      /\ Str.endswith "." (Str.strip t) = false
      /\ list_rule (Str.strip t) = false
      /\ (Str.isupper (Str.strip t) = true \/ Str.istitle (Str.strip t) = true)).
Proof.
  unfold _classify_paragraph, list_rule. cbv zeta.
  destruct (existsb (fun p => match_ false (Str.strip t) p) list_patterns);
    [split; [simpl; auto | simpl; intuition discriminate]|].
  destruct (existsb (fun verb => Str.startswith (text_of verb)
                                   (Str.lower (Str.strip t))) imperative_starts);
    [split; [simpl; auto | simpl; intuition discriminate]|].
  destruct (existsb (fun phrase => Str.contains (text_of phrase)
                                     (Str.lower (Str.strip t))) modal_phrases);
    [split; [simpl; auto | simpl; intuition discriminate]|].
  destruct (length (Str.strip t) <? 100) eqn:L; cbn [andb].
  - apply Nat.ltb_lt in L.
    destruct (Str.endswith "." (Str.strip t)); cbn [negb].
    + destruct (Str.startswith "NOTE:" (Str.strip t));
        (split; [simpl; auto 10 | simpl; intuition discriminate]).
    + destruct (Str.isupper (Str.strip t)).
      * destruct (length (Str.strip t) <? 30);
          (split; [simpl; auto 10 | intros _; auto]).
      * destruct (Str.istitle (Str.strip t)).
        -- split; [simpl; auto 10 | intros _; auto].
        -- destruct (Str.startswith "NOTE:" (Str.strip t));
             (split; [simpl; auto 10 | simpl; intuition discriminate]).
  - destruct (Str.startswith "NOTE:" (Str.strip t));
      (split; [simpl; auto 10 | simpl; intuition discriminate]).
Qed.

(** *** Surrounding spaces *)

Lemma lstrip_app_spaces (a x : text) :
  forallb Chars.is_space a = true -> Str.lstrip (a ++ x) = Str.lstrip x.
Proof.
  induction a as [|c a IH]; simpl; [reflexivity|].
  intros H. apply andb_true_iff in H as [Hc Ha]. rewrite Hc. now apply IH.
Qed.

Lemma rstrip_app_spaces (x b : text) :
  forallb Chars.is_space b = true -> Str.rstrip (x ++ b) = Str.rstrip x.
Proof.
  intros H. unfold Str.rstrip. rewrite rev_app_distr.
  rewrite lstrip_app_spaces; [reflexivity | now rewrite forallb_rev].
Qed.

Lemma lstrip_app (t b : text) :
  Str.lstrip (t ++ b)
  = if forallb Chars.is_space t then Str.lstrip b else Str.lstrip t ++ b.
Proof.
  induction t as [|c t IH]; simpl; [reflexivity|].
  destruct (Chars.is_space c); simpl; [exact IH | reflexivity].
Qed.

Lemma strip_pad (a t b : text) :
  forallb Chars.is_space a = true -> forallb Chars.is_space b = true ->
  Str.strip (a ++ t ++ b) = Str.strip t.
Proof.
  intros Ha Hb. unfold Str.strip.
  rewrite lstrip_app_spaces by exact Ha. rewrite lstrip_app.
  destruct (forallb Chars.is_space t) eqn:E.
  - rewrite (lstrip_all_space b Hb), (lstrip_all_space t E). reflexivity.
  - now apply rstrip_app_spaces.
Qed.

(** X14.  Spaces before and after a paragraph's text change nothing: both
    filter stages decide as on the bare text and the classifier gives the
    same label. *)
Theorem surrounding_spaces_ignored (a t b : text) :
  forallb Chars.is_space a = true -> forallb Chars.is_space b = true ->
  stage1_reason (a ++ t ++ b) = stage1_reason t
  /\ stage2_reason (a ++ t ++ b) = stage2_reason t
  /\ _classify_paragraph (a ++ t ++ b) = _classify_paragraph t.
Proof.
  intros Ha Hb.
  unfold stage1_reason, stage2_reason, _classify_paragraph.
  now rewrite (strip_pad a t b Ha Hb).
Qed.

Lemma surrounding_spaces_ignored_witness :
  forallb Chars.is_space (text_of "  ") = true
  /\ forallb Chars.is_space (text_of " ") = true
  /\ stage1_reason (text_of "  " ++ text_of "A-1" ++ text_of " ")
     = stage1_reason (text_of "A-1").
Proof.
  split; [reflexivity|]. split; [reflexivity|].
  exact (proj1 (@surrounding_spaces_ignored (text_of "  ") (text_of "A-1")
                  (text_of " ") eq_refl eq_refl)).
Defined.

(** *** The formatter as a whole *)

Definition nonblank (p : paragraph) : bool :=
  negb (ContentPreservation.is_empty (Str.strip (para_text p))).

(** The paragraphs that reach Stage 3. *)
Definition pipeline_survivors (paragraphs : list paragraph) : list paragraph :=
  filter (survives stage2_reason)
         (filter (survives stage1_reason) (filter nonblank paragraphs)).

Definition classify_all (paragraphs : list paragraph) : list classified :=
  map (fun para =>
         {| c_text := Str.strip (para_text para);
            c_style := _classify_paragraph (Str.strip (para_text para));
            original_para := para |})
      paragraphs.

Lemma counter_incr_sum (key : string) (c : counter) :
  list_sum (map snd (counter_incr key c)) = S (list_sum (map snd c)).
Proof.
  induction c as [|[k n] c IH]; simpl; [reflexivity|].
  destruct (String.eqb k key); simpl; [reflexivity | rewrite IH; lia].
Qed.

Lemma write_loop_some (style_known : string -> bool) (items : list classified) :
  forall out counts doc cnt,
    write_loop style_known items out counts = Some (doc, cnt) ->
    exists written,
      doc = out ++ written
      /\ map np_text written = map c_text items
      /\ Forall (fun np => style_known (np_style np) = true) written
      /\ list_sum (map snd cnt) = list_sum (map snd counts) + length items.
Proof.
  induction items as [|item rest IH]; intros out counts doc cnt H; simpl in H.
  - injection H as <- <-. exists []. rewrite app_nil_r. simpl.
    repeat split; [constructor | lia].
  - destruct (style_known (c_style item)) eqn:K.
    + apply IH in H as [w [Hd [Ht [Hk Hs]]]].
      exists ({| np_text := c_text item; np_style := c_style item |} :: w).
      rewrite Hd, <- app_assoc. simpl. rewrite Ht, Hs, counter_incr_sum.
      repeat split; [constructor; [exact K | exact Hk] | lia].
    + destruct (style_known "Body Text") eqn:B; [|discriminate].
      apply IH in H as [w [Hd [Ht [Hk Hs]]]].
      exists ({| np_text := c_text item; np_style := "Body Text" |} :: w).
      rewrite Hd, <- app_assoc. simpl. rewrite Ht, Hs, counter_incr_sum.
      repeat split; [constructor; [exact B | exact Hk] | lia].
Qed.

Lemma write_loop_none (style_known : string -> bool) (items : list classified) :
  forall out counts,
    write_loop style_known items out counts = None <->
    style_known "Body Text" = false
    /\ exists item, In item items /\ style_known (c_style item) = false.
Proof.
  induction items as [|item rest IH]; intros out counts; simpl.
  - split; [discriminate | intros [_ [item [[] _]]]].
  - destruct (style_known (c_style item)) eqn:K.
    + rewrite IH. split.
      * intros [B [x [Hx Hk]]]. eauto.
      * intros [B [x [[<- | Hx] Hk]]]; [congruence | eauto].
    + destruct (style_known "Body Text") eqn:B.
      * rewrite IH. split; intros [H _]; discriminate.
      * split; [|reflexivity]. intros _. eauto.
Qed.

Lemma format_document_items (style_known : string -> bool)
      (paragraphs : list paragraph) (d : debug_info) :
  fst (format_document style_known paragraphs d)
  = match write_loop style_known
            (classify_all (pipeline_survivors paragraphs)) [] [] with
    | Some (doc, counts) =>
        Some {| new_doc := doc;
                total_processed := length (pipeline_survivors paragraphs);
                total_filtered :=
                  length (filter nonblank paragraphs)
                  - length (pipeline_survivors paragraphs);
                style_counts := counts |}
    | None => None
    end.
Proof.
  unfold format_document. cbv zeta.
  assert (H : fst (stage3_classify_content
                     (fst (stage2_metadata_filter
                             (fst (stage1_navigation_filter
                                     (filter nonblank paragraphs) d))
                             (snd (stage1_navigation_filter
                                     (filter nonblank paragraphs) d))))
                     (snd (stage2_metadata_filter
                             (fst (stage1_navigation_filter
                                     (filter nonblank paragraphs) d))
                             (snd (stage1_navigation_filter
                                     (filter nonblank paragraphs) d)))))
              = classify_all (pipeline_survivors paragraphs)).
  { unfold stage3_classify_content. cbn [fst].
    rewrite classify_loop_out, stage2_kept, stage1_kept. reflexivity. }
  fold nonblank. rewrite H.
  destruct (write_loop style_known
              (classify_all (pipeline_survivors paragraphs)) [] [])
    as [[doc counts]|]; cbn [fst]; [|reflexivity].
  unfold classify_all. now rewrite length_map.
Qed.

Lemma stage1_none_length (raw : text) :
  stage1_reason raw = None -> 3 <= length (Str.strip raw).
Proof.
  unfold stage1_reason. cbv zeta.
  destruct (length (Str.strip raw) <? 3) eqn:E; [discriminate|].
  intros _. now apply Nat.ltb_ge in E.
Qed.

Lemma contains_lower (v x : text) :
  Str.contains v x = true -> Str.contains (Str.lower v) (Str.lower x) = true.
Proof.
  rewrite !contains_iff. intros [a [b ->]].
  exists (Str.lower a), (Str.lower b). unfold Str.lower.
  now rewrite !map_app.
Qed.

Lemma survivor_facts (paragraphs : list paragraph) (p : paragraph) :
  In p (pipeline_survivors paragraphs) ->
  In p paragraphs
  /\ 3 <= length (Str.strip (para_text p))
  /\ Str.contains blank_phrase (Str.lower (Str.strip (para_text p))) = false.
Proof.
  unfold pipeline_survivors. intros H.
  apply filter_In in H as [H H2]. apply filter_In in H as [H H1].
  apply filter_In in H as [H _]. unfold survives in H1, H2.
  destruct (stage1_reason (para_text p)) eqn:E1; [discriminate|].
  destruct (stage2_reason (para_text p)) eqn:E2; [discriminate|].
  split; [exact H|]. split.
  - now apply stage1_none_length.
  - now apply stage2_none_no_phrase.
Qed.

Lemma map_filter_subsequence (A B : Type) (f : A -> B) (p : A -> bool)
      (l : list A) :
  subsequence (map f (filter p l)) (map f l).
Proof.
  induction l as [|x l IH]; simpl; [constructor|].
  destruct (p x); simpl; now constructor.
Qed.

Lemma subsequence_trans (A : Type) (l1 l2 l3 : list A) :
  subsequence l1 l2 -> subsequence l2 l3 -> subsequence l1 l3.
Proof.
  intros H12 H23. revert l1 H12.
  induction H23 as [|x l2 l3 H IH|x l2 l3 H IH]; intros l1 H12.
  - exact H12.
  - inversion H12; subst.
    + constructor. now apply IH.
    + apply sub_drop. now apply IH.
  - apply sub_drop. now apply IH.
Qed.

Lemma survivors_subsequence (paragraphs : list paragraph) :
  subsequence
    (map (fun p => Str.strip (para_text p)) (pipeline_survivors paragraphs))
    (map (fun p => Str.strip (para_text p)) paragraphs).
Proof.
  unfold pipeline_survivors.
  eapply subsequence_trans; [apply map_filter_subsequence|].
  eapply subsequence_trans; apply map_filter_subsequence.
Qed.

(** X15.  When the formatter succeeds, the texts of the new document are
    texts of the input, stripped, in their original order; none is shorter
    than three characters or still carries spaces at its ends, none contains
    the blank-page phrase in any letter case, and the critical check of
    [compare_results] finds nothing. *)
Theorem formatted_text_is_original
        (style_known : string -> bool) (paragraphs : list paragraph)
        (d : debug_info) (r : format_result) :
  fst (format_document style_known paragraphs d) = Some r ->
  subsequence (map np_text (new_doc r))
              (map (fun p => Str.strip (para_text p)) paragraphs)
  /\ Forall (fun t => 3 <= length t
                      /\ Str.strip t = t
                      /\ Str.contains blank_phrase (Str.lower t) = false)
            (map np_text (new_doc r))
  /\ intentional_blank_found (map np_text (new_doc r)) = false.
Proof.
  rewrite format_document_items.
  destruct (write_loop style_known
              (classify_all (pipeline_survivors paragraphs)) [] [])
    as [[doc counts]|] eqn:W; [|discriminate].
  intros H. injection H as <-. cbn [new_doc].
  apply write_loop_some in W as [w [Hd [Ht _]]]. simpl in Hd. subst doc.
  assert (Htexts : map np_text w
                   = map (fun p => Str.strip (para_text p))
                         (pipeline_survivors paragraphs)).
  { rewrite Ht. unfold classify_all. now rewrite map_map. }
  rewrite Htexts.
  assert (Hall : Forall (fun t => 3 <= length t
                                  /\ Str.strip t = t
                                  /\ Str.contains blank_phrase (Str.lower t) = false)
                        (map (fun p => Str.strip (para_text p))
                             (pipeline_survivors paragraphs))).
  { apply Forall_forall. intros t Hin.
    apply in_map_iff in Hin as [p [<- Hp]].
    apply survivor_facts in Hp as [_ [Hlen Hno]].
    repeat split; [exact Hlen | apply strip_idem | exact Hno]. }
  split; [apply survivors_subsequence|]. split; [exact Hall|].
  unfold intentional_blank_found.
  destruct (existsb _ _) eqn:E; [|reflexivity].
  apply existsb_exists in E as [t [Hin Hc]].
  apply filter_In in Hin as [Hin _].
  rewrite Forall_forall in Hall. destruct (Hall t Hin) as [_ [_ Hno]].
  apply contains_lower in Hc.
  change (Str.lower (text_of "INTENTIONALLY LEFT BLANK")) with blank_phrase in Hc.
  congruence.
Qed.

Lemma formatted_text_is_original_witness :
  fst (format_document (fun _ => true) handbook_paragraphs no_debug)
  = Some {| new_doc :=
              [ {| np_text := "GENERAL"; np_style := "Heading 2" |};
                {| np_text := "Crew members must report on time.";
                   np_style := "List Paragraph" |} ];
            total_processed := 2;
            total_filtered := 2;
            style_counts := [ ("Heading 2", 1); ("List Paragraph", 1) ] |}
  /\ intentional_blank_found
       [ text_of "GENERAL"; text_of "Crew members must report on time." ]
     = false.
Proof.
  assert (H : fst (format_document (fun _ => true) handbook_paragraphs no_debug)
              = Some {| new_doc :=
                          [ {| np_text := "GENERAL"; np_style := "Heading 2" |};
                            {| np_text := "Crew members must report on time.";
                               np_style := "List Paragraph" |} ];
                        total_processed := 2;
                        total_filtered := 2;
                        style_counts :=
                          [ ("Heading 2", 1); ("List Paragraph", 1) ] |})
    by (vm_compute; reflexivity).
  split; [exact H|].
  exact (proj2 (proj2 (@formatted_text_is_original (fun _ => true)
                         handbook_paragraphs no_debug _ H))).
Defined.

(** X16.  When the formatter succeeds, the processed and the filtered
    paragraphs add up to the non-blank paragraphs of the input; the new
    document has one paragraph per processed one, each with a style the
    template knows; and the style counts add up to the number processed. *)
Theorem formatted_counts
        (style_known : string -> bool) (paragraphs : list paragraph)
        (d : debug_info) (r : format_result) :
  fst (format_document style_known paragraphs d) = Some r ->
  total_processed r + total_filtered r = length (filter nonblank paragraphs)
  /\ length (new_doc r) = total_processed r
  /\ list_sum (map snd (style_counts r)) = total_processed r
  /\ Forall (fun np => style_known (np_style np) = true) (new_doc r).
Proof.
  rewrite format_document_items.
  destruct (write_loop style_known
              (classify_all (pipeline_survivors paragraphs)) [] [])
    as [[doc counts]|] eqn:W; [|discriminate].
  intros H. injection H as <-.
  cbn [new_doc total_processed total_filtered style_counts].
  apply write_loop_some in W as [w [Hd [Ht [Hk Hs]]]]. simpl in Hd, Hs. subst doc.
  assert (Hle : length (pipeline_survivors paragraphs)
                <= length (filter nonblank paragraphs)).
  { unfold pipeline_survivors.
    etransitivity; [apply filter_length_le|]. apply filter_length_le. }
  assert (Hw : length w = length (pipeline_survivors paragraphs)).
  { rewrite <- (length_map np_text w), Ht. unfold classify_all.
    now rewrite !length_map. }
  repeat split.
  - lia.
  - exact Hw.
  - rewrite Hs. unfold classify_all. now rewrite length_map.
  - exact Hk.
Qed.

Lemma formatted_counts_witness :
  fst (format_document (fun _ => true) handbook_paragraphs no_debug)
  = Some {| new_doc :=
              [ {| np_text := "GENERAL"; np_style := "Heading 2" |};
                {| np_text := "Crew members must report on time.";
                   np_style := "List Paragraph" |} ];
            total_processed := 2;
            total_filtered := 2;
            style_counts := [ ("Heading 2", 1); ("List Paragraph", 1) ] |}
  /\ 2 + 2 = length (filter nonblank handbook_paragraphs).
Proof.
  assert (H : fst (format_document (fun _ => true) handbook_paragraphs no_debug)
              = Some {| new_doc :=
                          [ {| np_text := "GENERAL"; np_style := "Heading 2" |};
                            {| np_text := "Crew members must report on time.";
                               np_style := "List Paragraph" |} ];
                        total_processed := 2;
                        total_filtered := 2;
                        style_counts :=
                          [ ("Heading 2", 1); ("List Paragraph", 1) ] |})
    by (vm_compute; reflexivity).
  split; [exact H|].
  exact (proj1 (@formatted_counts (fun _ => true)
                  handbook_paragraphs no_debug _ H)).
Defined.

(** X17.  The formatter fails exactly when the template lacks the style
    Body Text and the label of some paragraph that reaches Stage 3; with
    Body Text in the template it always produces a document. *)
Theorem formatter_failure
        (style_known : string -> bool) (paragraphs : list paragraph)
        (d : debug_info) :
  (fst (format_document style_known paragraphs d) = None <->
   style_known "Body Text" = false
   /\ exists p, In p (pipeline_survivors paragraphs)
                /\ style_known (_classify_paragraph (Str.strip (para_text p)))
                   = false)
  /\ (style_known "Body Text" = true ->
      fst (format_document style_known paragraphs d) <> None).
Proof.
  assert (Hiff : fst (format_document style_known paragraphs d) = None <->
                 style_known "Body Text" = false
                 /\ exists p, In p (pipeline_survivors paragraphs)
                              /\ style_known
                                   (_classify_paragraph (Str.strip (para_text p)))
                                 = false).
  { rewrite format_document_items.
    destruct (write_loop style_known
                (classify_all (pipeline_survivors paragraphs)) [] [])
      as [[doc counts]|] eqn:W.
    - split; [discriminate|]. intros [B [p [Hp Hk]]].
      assert (Hn : write_loop style_known
                     (classify_all (pipeline_survivors paragraphs)) [] [] = None).
      { apply write_loop_none. split; [exact B|].
        eexists. split; [apply in_map; exact Hp | exact Hk]. }
      congruence.
    - split; [|reflexivity]. intros _.
      apply write_loop_none in W as [B [item [Hin Hk]]].
      split; [exact B|]. unfold classify_all in Hin.
      apply in_map_iff in Hin as [p [<- Hp]]. eauto. }
  split; [exact Hiff|].
  intros B H. apply Hiff in H as [H _]. congruence.
Qed.

End MultiStageMore.

(** ** More on the formatting engine *)

Module SafeFormattingMore.
Import ContentPreservation SafeFormatting Notions Scenarios StrFacts.

(** *** Escaping *)

Lemma replace_char_one (old : ascii) (new : text) (c : ascii) :
  Str.replace_char old new [c] = if Chars.eqb c old then new else [c].
Proof. unfold Str.replace_char. simpl. apply app_nil_r. Qed.

Lemma replace_char_flat_map (old : ascii) (new : text)
      (f : ascii -> text) (t : text) :
  Str.replace_char old new (flat_map f t)
  = flat_map (fun c => Str.replace_char old new (f c)) t.
Proof.
  unfold Str.replace_char. induction t as [|c t IH]; simpl; [reflexivity|].
  now rewrite flat_map_app, IH.
Qed.

Lemma esc_char_cases (c : ascii) :
  (c = "&"%char /\ esc_char c = text_of "&amp;")
  \/ (c = "<"%char /\ esc_char c = text_of "&lt;")
  \/ (c = ">"%char /\ esc_char c = text_of "&gt;")
  \/ (c = Re.chr 34 /\ esc_char c = text_of "&quot;")
  \/ (c = "'"%char /\ esc_char c = text_of "&#x27;")
  \/ (is_special c = false /\ esc_char c = [c]).
Proof.
  unfold esc_char, is_special.
  destruct (Chars.eqb c "&") eqn:E1;
    [apply chars_eqb_eq in E1; auto|].
  destruct (Chars.eqb c "<") eqn:E2;
    [apply chars_eqb_eq in E2; auto|].
  destruct (Chars.eqb c ">") eqn:E3;
    [apply chars_eqb_eq in E3; auto 6|].
  destruct (Chars.eqb c (Re.chr 34)) eqn:E4;
    [apply chars_eqb_eq in E4; auto 8|].
  destruct (Chars.eqb c "'") eqn:E5;
    [apply chars_eqb_eq in E5; auto 10|].
  simpl. auto 12.
Qed.

Lemma escape_one (c : ascii) :
  Str.replace_char "'" "&#x27;"
    (Str.replace_char (Re.chr 34) "&quot;"
       (Str.replace_char ">" "&gt;"
          (Str.replace_char "<" "&lt;"
             (Str.replace_char "&" "&amp;" [c]))))
  = esc_char c.
Proof.
  unfold esc_char. rewrite replace_char_one.
  destruct (Chars.eqb c "&") eqn:E1; [vm_compute; reflexivity|].
  rewrite replace_char_one.
  destruct (Chars.eqb c "<") eqn:E2; [vm_compute; reflexivity|].
  rewrite replace_char_one.
  destruct (Chars.eqb c ">") eqn:E3; [vm_compute; reflexivity|].
  rewrite replace_char_one.
  destruct (Chars.eqb c (Re.chr 34)) eqn:E4; [vm_compute; reflexivity|].
  rewrite replace_char_one.
  destruct (Chars.eqb c "'") eqn:E5; reflexivity.
Qed.

(** The five replacements in a row amount to one pass that puts an entity
    for each special character. *)
Lemma escape_charwise (t : text) : _escape_html t = flat_map esc_char t.
Proof.
  unfold _escape_html. destruct t as [|c t]; [reflexivity|].
  cbn [is_empty].
  assert (H : forall u : text, u = flat_map (fun x => [x]) u).
  { induction u as [|x u IH]; simpl; [reflexivity | now rewrite <- IH]. }
  rewrite (H (c :: t)) at 1.
  rewrite !replace_char_flat_map.
  apply flat_map_ext. intros x. apply escape_one.
Qed.

Definition is_markup (c : ascii) : bool :=
  Chars.eqb c "<" || Chars.eqb c ">" || Chars.eqb c (Re.chr 34)
  || Chars.eqb c "'".

(** X18.  An escaped text holds none of the characters that open or close
    a tag or delimit an attribute value. *)
Theorem escaped_text_has_no_markup (t : text) :
  forallb (fun c => negb (is_markup c)) (_escape_html t) = true.
Proof.
  rewrite escape_charwise. induction t as [|c t IH]; simpl; [reflexivity|].
  rewrite forallb_app, IH, andb_true_r.
  destruct (esc_char_cases c)
    as [[_ ->]|[[_ ->]|[[_ ->]|[[_ ->]|[[_ ->]|[Hs ->]]]]]];
    try reflexivity.
  simpl. rewrite andb_true_r. unfold is_special in Hs. unfold is_markup.
  destruct (Chars.eqb c "&"); simpl in Hs; [discriminate|].
  now rewrite Hs.
Qed.

Lemma esc_char_prefix_free (x y : ascii) (r1 r2 : text) :
  esc_char x ++ r1 = esc_char y ++ r2 -> x = y /\ r1 = r2.
Proof.
  intros H.
  destruct (esc_char_cases x)
    as [[Hx Ex]|[[Hx Ex]|[[Hx Ex]|[[Hx Ex]|[[Hx Ex]|[Hx Ex]]]]]];
  destruct (esc_char_cases y)
    as [[Hy Ey]|[[Hy Ey]|[[Hy Ey]|[[Hy Ey]|[[Hy Ey]|[Hy Ey]]]]]];
  rewrite Ex, Ey in H; subst; simpl in H;
    try (inversion H; subst; auto; fail);
    try (inversion H; subst; discriminate Hy);
    try (inversion H; subst; discriminate Hx).
Qed.

Lemma escape_charwise_injective (a : text) :
  forall b, flat_map esc_char a = flat_map esc_char b -> a = b.
Proof.
  induction a as [|x a IH]; intros [|y b] H; simpl in H.
  - reflexivity.
  - exfalso. destruct (esc_char_cases y)
      as [[_ E]|[[_ E]|[[_ E]|[[_ E]|[[_ E]|[_ E]]]]]];
      rewrite E in H; discriminate H.
  - exfalso. destruct (esc_char_cases x)
      as [[_ E]|[[_ E]|[[_ E]|[[_ E]|[[_ E]|[_ E]]]]]];
      rewrite E in H; discriminate H.
  - apply esc_char_prefix_free in H as [-> H]. f_equal. now apply IH.
Qed.

(** X19.  Escaping loses nothing: two texts with the same escaped form are
    the same text. *)
Theorem escape_html_injective (a b : text) :
  _escape_html a = _escape_html b -> a = b.
Proof.
  rewrite !escape_charwise. apply escape_charwise_injective.
Qed.

Lemma escape_html_injective_witness :
  _escape_html (text_of "a<b & c") = _escape_html (text_of "a<b & c")
  /\ text_of "a<b & c" = text_of "a<b & c".
Proof.
  split; [reflexivity|].
  exact (@escape_html_injective (text_of "a<b & c") (text_of "a<b & c") eq_refl).
Defined.

Lemma escape_length (t : text) :
  length t <= length (flat_map esc_char t)
  /\ (existsb is_special t = true -> length t < length (flat_map esc_char t)).
Proof.
  induction t as [|c t [IH1 IH2]]; simpl.
  - split; [lia | discriminate].
  - rewrite length_app.
    destruct (esc_char_cases c)
      as [[-> ->]|[[-> ->]|[[-> ->]|[[-> ->]|[[-> ->]|[Hs ->]]]]]];
      simpl; try (split; [lia | intros _; lia]).
    rewrite Hs. simpl. split; [lia|]. intros H. specialize (IH2 H). lia.
Qed.

(** X20.  Escaping never shortens a text, and it returns the text unchanged
    exactly when the text has none of the five special characters. *)
Theorem escape_html_fixed_points (t : text) :
  length t <= length (_escape_html t)
  /\ (_escape_html t = t <-> existsb is_special t = false).
Proof.
  rewrite escape_charwise. destruct (escape_length t) as [H1 H2].
  split; [exact H1|]. split.
  - intros E. destruct (existsb is_special t); [|reflexivity].
    specialize (H2 eq_refl). rewrite E in H2. lia.
  - intros Hn. clear H1 H2. induction t as [|c t IH]; simpl; [reflexivity|].
    simpl in Hn. apply orb_false_iff in Hn as [Hc Hn].
    destruct (esc_char_cases c)
      as [[-> _]|[[-> _]|[[-> _]|[[-> _]|[[-> _]|[_ ->]]]]]];
      try discriminate Hc.
    simpl. now rewrite IH.
Qed.

(** *** The CSS validator *)

Lemma contains_app_r (v a b : text) :
  Str.contains v b = true -> Str.contains v (a ++ b) = true.
Proof.
  rewrite !contains_iff. intros [x [y ->]]. exists (a ++ x), y.
  now rewrite <- app_assoc.
Qed.

Lemma contains_in_join (v e sep : text) (l : list text) :
  In e l -> Str.contains v e = true -> Str.contains v (Str.join sep l) = true.
Proof.
  induction l as [|p l IH]; intros Hin Hc; [contradiction|].
  destruct l as [|q l].
  - destruct Hin as [<- | []]. exact Hc.
  - change (Str.join sep (p :: q :: l)) with (p ++ sep ++ Str.join sep (q :: l)).
    destruct Hin as [<- | Hin].
    + now apply contains_app_l.
    + apply contains_app_r, contains_app_r. now apply IH.
Qed.

Lemma flag_fold (A : Type) (test : A -> bool) (msg : A -> text) (l : list A) :
  forall acc : bool * list text,
    fold_left
      (fun acc x => if test x then (false, snd acc ++ [msg x]) else acc) l acc
    = (fst acc && forallb (fun x => negb (test x)) l,
       snd acc ++ map msg (filter test l)).
Proof.
  induction l as [|x l IH]; intros [b m]; simpl.
  - now rewrite andb_true_r, app_nil_r.
  - rewrite IH. destruct (test x); simpl.
    + now rewrite andb_false_r, <- app_assoc.
    + reflexivity.
Qed.

Lemma forallb_neg_filter (A : Type) (test : A -> bool) (l : list A) :
  forallb (fun x => negb (test x)) l = true <-> filter test l = [].
Proof.
  induction l as [|x l IH]; simpl; [tauto|].
  destruct (test x); simpl; [split; discriminate | exact IH].
Qed.

Definition names_property (css : text) (p : string) : bool :=
  Str.contains (text_of p) css.

Definition has_pattern (css : text) (pat : string * Re.regex) : bool :=
  Re.search true css (snd pat).

Lemma validate_css_eq (css : text) :
  is_safe (validate_css_safety css)
  = forallb (fun p => negb (names_property css p)) prohibited_properties
    && forallb (fun pat => negb (has_pattern css pat)) unsafe_patterns
  /\ violations (validate_css_safety css)
     = map (fun p => text_of "Prohibited property found: " ++ text_of p)
           (filter (names_property css) prohibited_properties)
       ++ map (fun pat => text_of "Unsafe pattern found: " ++ text_of (fst pat))
              (filter (has_pattern css) unsafe_patterns).
Proof.
  unfold validate_css_safety, check_patterns, check_properties.
  cbn [is_safe violations].
  rewrite (flag_fold (names_property css)
             (fun p => text_of "Prohibited property found: " ++ text_of p)).
  rewrite (flag_fold (has_pattern css)
             (fun pat => text_of "Unsafe pattern found: " ++ text_of (fst pat))).
  cbn [fst snd andb app]. split; reflexivity.
Qed.

(** X21.  The validator calls a style sheet safe exactly when it lists no
    violation, and that is exactly when none of the prohibited property
    names occurs anywhere in the text and none of the unsafe patterns is
    found; there are at most nine violations and never a warning. *)
Theorem css_validation_verdict (css : text) :
  let r := validate_css_safety css in
  (is_safe r = true <-> violations r = [])
  /\ (is_safe r = true <->
      (forall p, In p prohibited_properties -> ~ occurs_in (text_of p) css)
      /\ (forall pat, In pat unsafe_patterns ->
                      Re.search true css (snd pat) = false))
  /\ length (violations r) <= 9
  /\ warnings r = [].
Proof.
  cbn zeta. destruct (validate_css_eq css) as [Hs Hv]. rewrite Hs, Hv.
  split; [|split; [|split]].
  - rewrite andb_true_iff, !forallb_neg_filter. split.
    + intros [-> ->]. reflexivity.
    + intros H. apply app_eq_nil in H as [H1 H2].
      apply map_eq_nil in H1, H2. auto.
  - rewrite andb_true_iff, !forallb_forall. split.
    + intros [H1 H2]. split.
      * intros p Hp Ho. specialize (H1 p Hp). apply contains_iff in Ho.
        unfold names_property in H1. rewrite Ho in H1. discriminate.
      * intros pat Hp. specialize (H2 pat Hp). now apply negb_true_iff in H2.
    + intros [H1 H2]. split.
      * intros p Hp. apply negb_true_iff. unfold names_property.
        destruct (Str.contains (text_of p) css) eqn:E; [|reflexivity].
        apply contains_iff in E. now apply H1 in E.
      * intros pat Hp. apply negb_true_iff. now apply H2.
  - rewrite length_app, !length_map.
    pose proof (filter_length_le (names_property css) prohibited_properties).
    pose proof (filter_length_le (has_pattern css) unsafe_patterns).
    simpl in *. lia.
  - reflexivity.
Qed.

Lemma generated_css_names_content
      (preserved_mark review_mark : text)
      (guide : list (string * SafeFormattingRule)) :
  Str.contains "content" (_generate_safe_css preserved_mark review_mark guide)
  = true.
Proof.
  unfold _generate_safe_css, css_rules.
  apply contains_in_join with (e := safety_styles preserved_mark review_mark).
  - apply in_or_app. right. apply in_or_app. right. now left.
  - unfold safety_styles. apply contains_app_l. vm_compute. reflexivity.
Qed.

(** X22.  The engine's validator rejects every style sheet the engine's
    generator produces, whatever the style guide: the fixed marker blocks
    name the property [content], which is the first violation listed. *)
Theorem validator_rejects_generated_css
        (preserved_mark review_mark : text)
        (guide : list (string * SafeFormattingRule)) :
  let r := validate_css_safety
             (_generate_safe_css preserved_mark review_mark guide) in
  is_safe r = false
  /\ hd_error (violations r)
     = Some (text_of "Prohibited property found: content").
Proof.
  cbn zeta.
  destruct (validate_css_eq
              (_generate_safe_css preserved_mark review_mark guide)) as [Hs Hv].
  rewrite Hs, Hv. unfold prohibited_properties. cbn [forallb filter].
  unfold names_property at 1 6.
  rewrite (generated_css_names_content preserved_mark review_mark guide).
  split; reflexivity.
Qed.

(** *** Extraction and rendering *)

Section RenderingFacts.

Variable value : Type.
Variable py_str : value -> text.
Variable fmt : paragraph -> list (string * value).
Variable preserved_mark review_mark : text.

Lemma classify_type_level (p : paragraph) :
  Str.startswith "h" (text_of (_classify_paragraph_type p)) = true ->
  exists n, int_of_second (_classify_paragraph_type p) = Some n /\ 1 <= n <= 6.
Proof.
  unfold _classify_paragraph_type. cbv zeta.
  repeat (match goal with
          | |- context [if ?c then _ else _] => destruct c
          end;
          try (intros _; eexists; split; [vm_compute; reflexivity | lia]));
    vm_compute; discriminate.
Qed.

Definition keeps (ip : nat * paragraph) : bool := has_text (snd ip).

Definition describes (pd : ParagraphData value) (ip : nat * paragraph) : Prop :=
  pd_index pd = fst ip
  /\ pd_text pd = para_text (snd ip)
  /\ pd_style_name pd = style_name (snd ip)
  /\ pd_element_type pd = _classify_paragraph_type (snd ip)
  /\ pd_formatting pd = fmt (snd ip)
  /\ pd_safety_level pd = assess_paragraph_safety (para_text (snd ip)).

Definition heading_ok (indexed : list (nat * paragraph)) (h : heading_entry)
  : Prop :=
  1 <= he_level h <= 6
  /\ exists p, In (he_index h, p) indexed
               /\ he_text h = para_text p
               /\ int_of_second (_classify_paragraph_type p) = Some (he_level h).

Lemma extract_paragraphs_some (indexed : list (nat * paragraph)) :
  forall paras headings,
  exists new_paras new_headings,
    extract_paragraphs fmt indexed paras headings
    = Some (paras ++ new_paras, headings ++ new_headings)
    /\ Forall2 describes new_paras (filter keeps indexed)
    /\ Forall (heading_ok indexed) new_headings.
Proof.
  induction indexed as [|[i p] rest IH]; intros paras headings.
  - exists [], []. simpl. rewrite !app_nil_r. repeat split; constructor.
  - cbn [extract_paragraphs filter]. unfold keeps at 1, has_text. cbn [snd].
    destruct (is_empty (Str.strip (para_text p))) eqn:E; cbn [negb].
    + destruct (IH paras headings) as [np [nh [H1 [H2 H3]]]].
      exists np, nh. repeat split; [exact H1 | exact H2|].
      eapply Forall_impl; [|exact H3].
      intros h [Hl [q [Hq Hr]]]. split; [exact Hl|]. exists q.
      split; [now right | exact Hr].
    + destruct (Str.startswith "h" (text_of (_classify_paragraph_type p))) eqn:S.
      * destruct (classify_type_level p S) as [n [Hn Hr]]. rewrite Hn.
        match goal with
        | |- context [extract_paragraphs fmt rest (paras ++ [?pd]) (headings ++ [?he])] =>
            destruct (IH (paras ++ [pd]) (headings ++ [he]))
              as [np [nh [H1 [H2 H3]]]];
            exists (pd :: np), (he :: nh)
        end.
        rewrite H1, <- !app_assoc. repeat split.
        -- constructor; [|exact H2]. repeat split.
        -- constructor.
           ++ split; [exact Hr|]. exists p. cbn. repeat split; auto.
           ++ eapply Forall_impl; [|exact H3].
              intros h [Hl [q [Hq Hx]]]. split; [exact Hl|]. exists q.
              split; [now right | exact Hx].
      * match goal with
        | |- context [extract_paragraphs fmt rest (paras ++ [?pd]) headings] =>
            destruct (IH (paras ++ [pd]) headings) as [np [nh [H1 [H2 H3]]]];
            exists (pd :: np), nh
        end.
        rewrite H1, <- !app_assoc. repeat split.
        -- constructor; [|exact H2]. repeat split.
        -- eapply Forall_impl; [|exact H3].
           intros h [Hl [q [Hq Hx]]]. split; [exact Hl|]. exists q.
           split; [now right | exact Hx].
Qed.

Lemma extraction_shape (document_path : text) (doc : docx) :
  exists c,
    extract_content_safely fmt document_path doc = Some c
    /\ Forall2 describes (ct_paragraphs c)
         (filter keeps (enumerate (dx_paragraphs doc)))
    /\ Forall (fun h =>
                 1 <= he_level h <= 6
                 /\ exists p, nth_error (dx_paragraphs doc) (he_index h) = Some p
                              /\ he_text h = para_text p)
              (heading_hierarchy (ct_structure c))
    /\ map (fun t => map (map cell_text) (td_rows t)) (ct_tables c)
       = dx_tables doc
    /\ Forall (fun t =>
                 Forall (Forall (fun cl =>
                                   cell_safety_level cl
                                   = assess_paragraph_safety (cell_text cl)))
                        (td_rows t))
              (ct_tables c).
Proof.
  unfold extract_content_safely.
  destruct (extract_paragraphs_some (enumerate (dx_paragraphs doc)) [] [])
    as [np [nh [H1 [H2 H3]]]].
  rewrite H1. cbn [app]. eexists. split; [reflexivity|].
  cbn [ct_paragraphs ct_structure heading_hierarchy ct_tables].
  split; [exact H2|]. split; [|split].
  - eapply Forall_impl; [|exact H3].
    intros h [Hl [p [Hp [Ht _]]]]. split; [exact Hl|]. exists p.
    split; [|exact Ht].
    now apply ContentPreservationMore.in_enumerate in Hp.
  - unfold enumerate. generalize 0.
    induction (dx_tables doc) as [|t ts IH]; intros k; simpl; [reflexivity|].
    rewrite IH. f_equal. rewrite map_map.
    induction t as [|row t IHt]; simpl; [reflexivity|].
    rewrite IHt. f_equal. rewrite map_map. simpl. apply map_id.
  - apply Forall_forall. intros t Ht. apply in_map_iff in Ht as [[i tb] [<- _]].
    cbn [td_rows _extract_table_data snd].
    apply Forall_forall. intros row Hrow. apply in_map_iff in Hrow as [r [<- _]].
    apply Forall_forall. intros cl Hcl. apply in_map_iff in Hcl as [x [<- _]].
    reflexivity.
Qed.


(** X23.  Extraction never fails on the heading level: it returns a content
    with one paragraph record per non-blank paragraph, in order, carrying
    the paragraph's index, text, style name, element type and safety level;
    every heading entry has a level from 1 to 6 and points at a paragraph of
    the document; every table is kept, and each cell carries the safety
    level of its text. *)
Theorem extraction_succeeds (document_path : text) (doc : docx) :
  exists c,
    extract_content_safely fmt document_path doc = Some c
    /\ Forall2 describes (ct_paragraphs c)
         (filter keeps (enumerate (dx_paragraphs doc)))
    /\ Forall (fun h =>
                 1 <= he_level h <= 6
                 /\ exists p, nth_error (dx_paragraphs doc) (he_index h) = Some p
                              /\ he_text h = para_text p)
              (heading_hierarchy (ct_structure c))
    /\ map (fun t => map (map cell_text) (td_rows t)) (ct_tables c)
       = dx_tables doc
    /\ Forall (fun t =>
                 Forall (Forall (fun cl =>
                                   cell_safety_level cl
                                   = assess_paragraph_safety (cell_text cl)))
                        (td_rows t))
              (ct_tables c).
Proof. apply extraction_shape. Qed.

(** *** What the HTML holds *)

Lemma paragraph_in_parts (c : content value)
      (guide : option (list (string * SafeFormattingRule)))
      (para : ParagraphData value) :
  In para (ct_paragraphs c) ->
  In (paragraph_html para) (html_parts preserved_mark review_mark c guide).
Proof.
  intros H. unfold html_parts. cbv zeta.
  apply in_or_app. right. apply in_or_app. right. apply in_or_app. left.
  now apply in_map.
Qed.

Lemma cell_in_parts (c : content value)
      (guide : option (list (string * SafeFormattingRule)))
      (table : TableData) (row : list cell) (cl : cell) :
  In table (ct_tables c) -> In row (td_rows table) -> In cl row ->
  exists i, In (cell_html i cl) (html_parts preserved_mark review_mark c guide).
Proof.
  intros Ht Hr Hc. apply In_nth_error in Hr as [i Hi]. exists i.
  unfold html_parts. cbv zeta.
  apply in_or_app. right. apply in_or_app. right. apply in_or_app. right.
  apply in_or_app. left. apply in_flat_map. exists table. split; [exact Ht|].
  unfold table_html. apply in_or_app. right. apply in_or_app. left.
  apply in_flat_map. exists (i, row). split.
  - apply ContentPreservationMore.in_enumerate_from.
    rewrite Nat.sub_0_r. split; [lia | exact Hi].
  - cbn [fst snd]. apply in_or_app. right. apply in_or_app. left.
    now apply in_map.
Qed.

Lemma contains_self_app (v b : text) : Str.contains v (v ++ b) = true.
Proof. apply contains_iff. now exists [], b. Qed.

Ltac find_part :=
  first [ apply contains_self_app | apply contains_app_r; find_part ].

Lemma escaped_in_paragraph_html (para : ParagraphData value) :
  Str.contains (_escape_html (pd_text para)) (paragraph_html para) = true.
Proof.
  unfold paragraph_html.
  destruct (pd_safety_level para); find_part.
Qed.

Lemma escaped_in_cell_html (i : nat) (cl : cell) :
  Str.contains (_escape_html (cell_text cl)) (cell_html i cl) = true.
Proof.
  unfold cell_html. cbv zeta. find_part.
Qed.

(** X24.  Whatever the content and the style guide, the HTML holds the
    escaped text of every paragraph, inside the element built for the
    paragraph, and the escaped text of every table cell. *)
Theorem html_holds_every_text
        (c : content value)
        (guide : option (list (string * SafeFormattingRule))) :
  let html := generate_safe_html preserved_mark review_mark c guide in
  Forall (fun para =>
            occurs_in (paragraph_html para) html
            /\ occurs_in (_escape_html (pd_text para)) html)
         (ct_paragraphs c)
  /\ Forall (fun table =>
               Forall (Forall (fun cl =>
                                 occurs_in (_escape_html (cell_text cl)) html))
                      (td_rows table))
            (ct_tables c).
Proof.
  cbn zeta. unfold generate_safe_html. split.
  - apply Forall_forall. intros para Hp.
    pose proof (paragraph_in_parts c guide para Hp) as Hin. split.
    + apply contains_iff. eapply contains_in_join; [exact Hin|].
      apply contains_iff. exists [], []. now rewrite app_nil_r.
    + apply contains_iff. eapply contains_in_join; [exact Hin|].
      apply escaped_in_paragraph_html.
  - apply Forall_forall. intros table Ht.
    apply Forall_forall. intros row Hr.
    apply Forall_forall. intros cl Hc.
    destruct (cell_in_parts c guide table row cl Ht Hr Hc) as [i Hin].
    apply contains_iff. eapply contains_in_join; [exact Hin|].
    apply escaped_in_cell_html.
Qed.

(** *** The style guide and the body *)

Lemma join_app (sep : text) (l1 l2 : list text) :
  l1 <> [] -> l2 <> [] ->
  Str.join sep (l1 ++ l2) = Str.join sep l1 ++ sep ++ Str.join sep l2.
Proof.
  intros H1 H2. induction l1 as [|x l1 IH]; [congruence|].
  destruct l1 as [|y l1].
  - simpl. destruct l2; [congruence | reflexivity].
  - change (Str.join sep ((x :: y :: l1) ++ l2))
      with (x ++ sep ++ Str.join sep ((y :: l1) ++ l2)).
    rewrite IH by discriminate.
    change (Str.join sep (x :: y :: l1)) with (x ++ sep ++ Str.join sep (y :: l1)).
    now rewrite <- !app_assoc.
Qed.

(** X25.  The style guide reaches the HTML only through the style sheet:
    the text before the style sheet and the text after it are the same for
    every style guide. *)
Theorem style_guide_touches_only_css (c : content value) :
  exists before after,
    forall guide : option (list (string * SafeFormattingRule)),
      generate_safe_html preserved_mark review_mark c guide
      = before
        ++ _generate_safe_css preserved_mark review_mark
             (match guide with
              | Some g => g
              | None => default_style_guide
              end)
        ++ after.
Proof.
  pose (title := or_default (md_title (ct_metadata c)) "Formatted Document").
  pose (head6 :=
          [ text_of "<!DOCTYPE html>";
            text_of "<html " ++ attr "lang" "en" ++ text_of ">";
            text_of "<head>";
            text_of "<meta " ++ attr "charset" "UTF-8" ++ text_of ">";
            text_of "<meta " ++ attr "name" "viewport" ++ text_of " "
            ++ attr "content" "width=device-width, initial-scale=1.0"
            ++ text_of ">";
            text_of "<title>" ++ _escape_html title ++ text_of "</title>" ]).
  pose (tail :=
          [ text_of "</head><body>" ]
          ++ (if is_empty title then []
              else [ text_of "<h1 " ++ attr "class" "document-title"
                     ++ text_of ">" ++ _escape_html title ++ text_of "</h1>" ])
          ++ map (@paragraph_html value) (ct_paragraphs c)
          ++ flat_map table_html (ct_tables c)
          ++ [ text_of "<div " ++ attr "class" "document-metadata" ++ text_of ">";
               text_of "<p><small>Processed: "
               ++ or_default (md_document_path (ct_metadata c)) "Unknown"
               ++ text_of "</small></p>" ]
          ++ (if truthy (md_author (ct_metadata c))
              then [ text_of "<p><small>Author: "
                     ++ _escape_html (or_default (md_author (ct_metadata c)) "")
                     ++ text_of "</small></p>" ]
              else [])
          ++ [ text_of "</div>"; text_of "</body></html>" ]).
  exists (Str.join nl head6 ++ nl ++ text_of "<style>"),
         (text_of "</style>" ++ nl ++ Str.join nl tail).
  intros guide.
  assert (Hparts :
             html_parts preserved_mark review_mark c guide
             = head6
               ++ [ text_of "<style>"
                    ++ _generate_safe_css preserved_mark review_mark
                         (match guide with
                          | Some g => g
                          | None => default_style_guide
                          end)
                    ++ text_of "</style>" ]
               ++ tail) by reflexivity.
  unfold generate_safe_html. rewrite Hparts.
  rewrite join_app by (subst head6 tail; discriminate).
  rewrite join_app by (subst head6 tail; discriminate).
  cbn [Str.join]. now rewrite <- !app_assoc.
Qed.

(** *** Zones end up in preserved elements *)

Lemma in_extracted (document_path : text) (doc : docx) (c : content value)
      (i : nat) (p : paragraph) :
  extract_content_safely fmt document_path doc = Some c ->
  nth_error (dx_paragraphs doc) i = Some p ->
  has_text p = true ->
  exists pd, In pd (ct_paragraphs c) /\ describes pd (i, p).
Proof.
  intros He Hn Ht.
  destruct (extraction_shape document_path doc) as [c' [He' [H2 _]]].
  assert (c' = c) by congruence. subst c'.
  assert (Hin : In (i, p) (filter keeps (enumerate (dx_paragraphs doc)))).
  { apply filter_In. split; [now apply ContentPreservationMore.in_enumerate|].
    exact Ht. }
  clear - H2 Hin. induction H2 as [|pd ip l l' Hd H IH]; [contradiction|].
  destruct Hin as [-> | Hin].
  - exists pd. split; [now left | exact Hd].
  - destruct (IH Hin) as [pd' [Hp Hd']]. exists pd'. split; [now right | exact Hd'].
Qed.

(** X26.  After extraction and rendering, every paragraph for which the
    scan reports a prohibited zone appears in the HTML as a [p] element of
    class [preserved], marked critical, around its escaped text. *)
Theorem zones_are_rendered_preserved
        (sha : text -> text) (document_path : text) (doc : docx)
        (c : content value)
        (guide : option (list (string * SafeFormattingRule)))
        (z : ProhibitedZone) :
  extract_content_safely fmt document_path doc = Some c ->
  In z (identify_prohibited_zones sha
          {| doc_paragraphs := dx_paragraphs doc;
             doc_tables := length (dx_tables doc) |}) ->
  exists p,
    nth_error (dx_paragraphs doc) (start_paragraph z) = Some p
    /\ occurs_in
         (text_of "<p " ++ attr "class" "preserved" ++ text_of " "
          ++ attr "data-safety" "critical" ++ text_of ">"
          ++ _escape_html (para_text p) ++ text_of "</p>")
         (generate_safe_html preserved_mark review_mark c guide).
Proof.
  intros He Hz.
  apply ContentPreservationMore.in_zones in Hz as [i [p [Hn [Ht Hz]]]].
  cbn [doc_paragraphs] in Hn.
  pose proof (ContentPreservationMore.zone_fields
                sha i (para_text p) prohibited_patterns z Hz) as [Hs _].
  assert (Hc : assess_paragraph_safety (para_text p) = CONTENT_CRITICAL).
  { apply ContentPreservationMore.critical_iff_hit. split.
    - rewrite ContentPreservationMore.has_text_spaces in Ht.
      now apply negb_true_iff in Ht.
    - intros Hnone.
      apply (ContentPreservationMore.zones_nil_iff
               sha i (para_text p) prohibited_patterns) in Hnone.
      change (flat_map (ContentPreservationMore.zone_of_category
                          sha i (para_text p)) prohibited_patterns)
        with (zones_of_paragraph sha i (para_text p)) in Hnone.
      rewrite Hnone in Hz. contradiction. }
  destruct (in_extracted document_path doc i He Hn Ht)
    as [pd [Hin [_ [Htxt [_ [_ [_ Hlvl]]]]]]].
  cbn [fst snd] in Htxt, Hlvl.
  exists p. rewrite Hs. split; [exact Hn|].
  apply contains_iff. unfold generate_safe_html.
  eapply contains_in_join; [exact (paragraph_in_parts c guide pd Hin)|].
  unfold paragraph_html. rewrite Hlvl, Hc, Htxt.
  apply contains_iff. exists [], []. now rewrite app_nil_r.
Qed.

(** *** Formatting changes *)

Lemma map_key_cases (css_prop key : string) :
  _map_css_to_format_key css_prop = Some key ->
  In css_prop [ "font-family"; "font-size"; "font-weight"; "font-style";
                "text-align" ].
Proof.
  unfold _map_css_to_format_key.
  destruct (String.eqb css_prop "font-family") eqn:E1;
    [apply String.eqb_eq in E1; subst; simpl; auto|].
  destruct (String.eqb css_prop "font-size") eqn:E2;
    [apply String.eqb_eq in E2; subst; simpl; auto|].
  destruct (String.eqb css_prop "font-weight") eqn:E3;
    [apply String.eqb_eq in E3; subst; simpl; auto|].
  destruct (String.eqb css_prop "font-style") eqn:E4;
    [apply String.eqb_eq in E4; subst; simpl; auto|].
  destruct (String.eqb css_prop "text-align") eqn:E5;
    [apply String.eqb_eq in E5; subst; simpl; auto 6|].
  discriminate.
Qed.

Definition change_ok (paragraph : ParagraphData value)
           (rule : SafeFormattingRule) (ch : FormattingChange) : Prop :=
  In (css_property ch)
     [ "font-family"; "font-size"; "font-weight"; "font-style"; "text-align" ]
  /\ change_type ch = css_property ch
  /\ old_value ch <> new_value ch
  /\ element_id ch = text_of "paragraph_" ++ Str.of_nat (pd_index paragraph)
  /\ exists v, In (css_property ch, v) (css_properties rule)
               /\ new_value ch = text_of v.

Lemma apply_rule_ok (paragraph : ParagraphData value) (rule : SafeFormattingRule) :
  Forall (change_ok paragraph rule) (_apply_formatting_rule py_str paragraph rule).
Proof.
  apply Forall_forall. intros ch H. unfold _apply_formatting_rule in H.
  apply in_flat_map in H as [[prop v] [Hin H]]. cbv zeta in H. cbn [fst snd] in H.
  destruct (_map_css_to_format_key prop) as [key|] eqn:K; [|contradiction].
  destruct (dict_get key (pd_formatting paragraph)) as [cur|]; [|contradiction].
  destruct (Str.eqb (py_str cur) (text_of v)) eqn:E; [contradiction|].
  destruct H as [<- | []]. unfold change_ok. cbn.
  repeat split.
  - now apply map_key_cases in K.
  - intros Heq. apply eqb_eq in Heq. congruence.
  - exists v. split; [exact Hin | reflexivity].
Qed.

Lemma flat_map_short (A B : Type) (f : A -> list B) (l : list A) :
  (forall x, length (f x) <= 1) -> length (flat_map f l) <= length l.
Proof.
  intros H. induction l as [|x l IH]; simpl; [lia|].
  rewrite length_app. specialize (H x). lia.
Qed.

(** X27.  Every change recorded for a paragraph and a rule concerns one of
    the five properties that map to a formatting key, names a property of
    the rule with its value as the new value, has an old value different
    from the new one and carries the paragraph's index in its identifier;
    a rule yields at most one change per property, and none for a paragraph
    whose formatting dictionary is empty. *)
Theorem formatting_changes_are_real
        (paragraph : ParagraphData value) (rule : SafeFormattingRule) :
  Forall (change_ok paragraph rule)
         (_apply_formatting_rule py_str paragraph rule)
  /\ length (_apply_formatting_rule py_str paragraph rule)
     <= length (css_properties rule)
  /\ (pd_formatting paragraph = [] ->
      _apply_formatting_rule py_str paragraph rule = []).
Proof.
  split; [apply apply_rule_ok|]. split.
  - unfold _apply_formatting_rule. apply flat_map_short. intros pv. cbv zeta.
    destruct (_map_css_to_format_key (fst pv)) as [key|]; [|simpl; lia].
    destruct (dict_get key (pd_formatting paragraph)) as [cur|]; [|simpl; lia].
    destruct (negb (Str.eqb (py_str cur) (text_of (snd pv)))); simpl; lia.
  - intros He. unfold _apply_formatting_rule. rewrite He.
    apply ContentPreservationMore.flat_map_all_nil. intros pv _. cbv zeta.
    destruct (_map_css_to_format_key (fst pv)); reflexivity.
Qed.

(** X28.  The changes collected while rendering all belong to paragraphs
    rated SAFE whose element type has a rule in the style guide: a CRITICAL
    or REVIEW paragraph never gets a formatting change. *)
Theorem changes_only_for_safe_paragraphs
        (c : content value) (guide : list (string * SafeFormattingRule)) :
  Forall
    (fun ch =>
       exists para rule,
         In para (ct_paragraphs c)
         /\ pd_safety_level para = SAFE_TO_MODIFY
         /\ dict_get (pd_element_type para) guide = Some rule
         /\ change_ok para rule ch)
    (changes_made py_str c guide).
Proof.
  apply Forall_forall. intros ch H. unfold changes_made in H.
  apply in_flat_map in H as [para [Hin H]].
  destruct (pd_safety_level para) eqn:L; try contradiction.
  destruct (dict_get (pd_element_type para) guide) as [rule|] eqn:G;
    [|contradiction].
  exists para, rule.
  split; [exact Hin|]. split; [exact L|]. split; [exact G|].
  pose proof (apply_rule_ok para rule) as Hok.
  rewrite Forall_forall in Hok. now apply Hok.
Qed.

End RenderingFacts.

Lemma zones_are_rendered_preserved_witness :
  exists c z,
    extract_content_safely (fun _ => @nil (string * unit))
      (text_of "manual.docx") power_switch_docx = Some c
    /\ In z (identify_prohibited_zones (fun t => t)
               {| doc_paragraphs := dx_paragraphs power_switch_docx;
                  doc_tables := length (dx_tables power_switch_docx) |})
    /\ exists p,
         nth_error (dx_paragraphs power_switch_docx) (start_paragraph z) = Some p
         /\ occurs_in
              (text_of "<p " ++ attr "class" "preserved" ++ text_of " "
               ++ attr "data-safety" "critical" ++ text_of ">"
               ++ _escape_html (para_text p) ++ text_of "</p>")
              (generate_safe_html [] [] c None).
Proof.
  destruct (extract_content_safely (fun _ => @nil (string * unit))
              (text_of "manual.docx") power_switch_docx) as [c|] eqn:E;
    [|vm_compute in E; discriminate E].
  pose (z := {| zone_type := "procedural_language";
                start_paragraph := 0; end_paragraph := 0;
                content_hash := text_of "Step 1: Turn off the main power switch.";
                safety_level := CONTENT_CRITICAL;
                text_sample := text_of "Step 1: Turn off the main power switch." |}).
  assert (Hz : In z (identify_prohibited_zones (fun t => t)
                       {| doc_paragraphs := dx_paragraphs power_switch_docx;
                          doc_tables := length (dx_tables power_switch_docx) |}))
    by (vm_compute; left; reflexivity).
  exists c, z. split; [reflexivity|]. split; [exact Hz|].
  exact (@zones_are_rendered_preserved unit (fun _ => []) [] [] (fun t => t)
           (text_of "manual.docx") power_switch_docx c None z E Hz).
Defined.

End SafeFormattingMore.
